(** * EarthView helpers ([satelite/earthview.py]): a shallow embedding

    The development follows the Python module top to bottom: the static
    subset table and its accessors, the shard paths built by
    [load_dataset], and the per-subset conversion [item_to_images].

    The collaborators the module calls are modelled as far as the module
    uses them:
    - Python values that occur in metadata are the type [json];
    - a Python [dict] is an association list in insertion order with
      unique keys; the metadata mapping is a heap object, so that the
      aliasing between the caller's record and the returned record is
      visible;
    - a NumPy array is a shape together with nested sequences of
      scalars; [float64] is the kernel's binary64 type;
    - [json.loads] is a parameter of the development;
    - a PIL image is the mode chosen by [Image.fromarray] together with
      the array it was built from. *)

From Stdlib Require Import String Ascii DecimalString.
From Stdlib Require DecimalN.
From Stdlib Require Import ZArith List Bool Lia.
From Stdlib Require Import Floats Uint63.
Import ListNotations.
Set Warnings "-register-all".
Open Scope string_scope.
Open Scope Z_scope.

Set Implicit Arguments.

(* ===================================================================== *)
(** * Python values and exceptions *)
(* ===================================================================== *)

(** Values that occur inside a metadata block: what [json.loads] can
    return.  A nested [JDict] is an immutable value here; only the
    top-level metadata mapping is a heap object (see [heap]). *)
Inductive json : Type :=
| JNull
| JBool (b : bool)
| JInt (n : Z)
| JFloat (f : float)
| JStr (s : string)
| JList (l : list json)
| JDict (d : list (string * json)).

(** The exceptions the module can raise.  [KeyError] carries the key
    that was looked up, [UnboundLocalError] the local variable read
    before assignment.  [DanglingReference] is not a Python exception:
    it is the outcome on a record whose metadata names a location that
    is not in the store, a state no Python program is in. *)
Inductive exn : Type :=
| KeyError (k : json)
| TypeError
| ValueError
| IndexError
| AxisError
| JSONDecodeError
| UnboundLocalError (name : string)
| DanglingReference.

Inductive result (A : Type) : Type :=
| Ok (a : A)
| Raise (e : exn).
Arguments Raise {A} e.

Definition rbind {A B} (r : result A) (k : A -> result B) : result B :=
  match r with
  | Ok a => k a
  | Raise e => Raise e
  end.

Declare Scope res_scope.
Delimit Scope res_scope with res.
Notation "x <- c ;; k" := (rbind c (fun x => k))
  (at level 61, c at next level, right associativity) : res_scope.

(** A list comprehension whose body may raise: elements are evaluated
    left to right and the first exception wins. *)
Fixpoint traverse {A B} (f : A -> result B) (l : list A) : result (list B) :=
  match l with
  | [] => Ok []
  | x :: xs =>
      match f x with
      | Raise e => Raise e
      | Ok y =>
          match traverse f xs with
          | Raise e => Raise e
          | Ok ys => Ok (y :: ys)
          end
      end
  end.

(* ===================================================================== *)
(** * Python dictionaries *)
(* ===================================================================== *)

Section Dict.
Variable V : Type.

Definition dict := list (string * V).

(** [d.get(k)] *)
Fixpoint dict_get (d : dict) (k : string) : option V :=
  match d with
  | [] => None
  | (k', v) :: rest => if String.eqb k k' then Some v else dict_get rest k
  end.

(** [d[k] = v]: an existing key keeps its position, a new key goes last. *)
Fixpoint dict_set (d : dict) (k : string) (v : V) : dict :=
  match d with
  | [] => [(k, v)]
  | (k', v') :: rest =>
      if String.eqb k k' then (k', v) :: rest else (k', v') :: dict_set rest k v
  end.

(** [d[k]] *)
Definition dict_getitem (d : dict) (k : string) : result V :=
  match dict_get d k with
  | Some v => Ok v
  | None => Raise (KeyError (JStr k))
  end.

End Dict.

(* ===================================================================== *)
(** * NumPy arrays *)
(* ===================================================================== *)

(** Nested sequences of scalars: the nested Python lists a record holds
    for a raster field, and the contents of an array. *)
Inductive nested (A : Type) : Type :=
| Scalar (a : A)
| Seq (l : list (nested A)).
Arguments Scalar {A} a.
Arguments Seq {A} l.

Record ndarray (A : Type) : Type := mk_ndarray {
  shape : list nat;
  data : nested A
}.

Definition unseq {A} (a : nested A) : list (nested A) :=
  match a with
  | Seq l => l
  | Scalar _ => []
  end.

Fixpoint nmap {A B} (f : A -> B) (a : nested A) : nested B :=
  match a with
  | Scalar x => Scalar (f x)
  | Seq l => Seq (map (nmap f) l)
  end.

Fixpoint shape_eqb (s t : list nat) : bool :=
  match s, t with
  | [], [] => true
  | x :: s', y :: t' => Nat.eqb x y && shape_eqb s' t'
  | _, _ => false
  end.

Definition same_shape (s : list nat) (o : option (list nat)) : bool :=
  match o with
  | Some t => shape_eqb s t
  | None => false
  end.

(** The shape NumPy discovers for nested lists: a scalar is 0-d, an
    empty list has shape (0,), and the items of a list must all have
    the same shape (otherwise the array is inhomogeneous). *)
Fixpoint np_shape {A} (a : nested A) : option (list nat) :=
  match a with
  | Scalar _ => Some []
  | Seq l =>
      match map np_shape l with
      | [] => Some [0%nat]
      | None :: _ => None
      | Some s :: rest =>
          if forallb (same_shape s) rest then Some (length l :: s) else None
      end
  end.

(** [np.asarray(v)] on nested lists of integers. *)
Definition np_asarray (v : nested Z) : result (ndarray Z) :=
  match np_shape v with
  | Some s => Ok (mk_ndarray s v)
  | None => Raise ValueError
  end.

(** [.astype("uint8")] on an integer array: the low 8 bits. *)
Definition uint8 (z : Z) : Z := z mod 256.

Definition astype_uint8 (a : ndarray Z) : ndarray Z :=
  mk_ndarray (shape a) (nmap uint8 (data a)).

(** ** float64 *)

(** An integer array element converted to [float64] (exact below 2^53). *)
Definition float_of_Z (z : Z) : float := PrimFloat.of_uint63 (Uint63.of_Z z).

(** The integer part of a finite binary64 value (rounding toward zero). *)
Definition trunc_float (f : float) : Z :=
  match Prim2SF f with
  | SpecFloat.S754_finite s m e =>
      let mag := match e with
                 | Z0 => Zpos m
                 | Zpos p => Zpos m * 2 ^ Zpos p
                 | Zneg p => Zpos m / 2 ^ Zpos p
                 end in
      if s then - mag else mag
  | _ => 0
  end.

(** [.astype("uint8")] on a [float64] element.  NumPy performs the C
    conversion: the value is truncated toward zero to a machine integer
    and the low 8 bits are kept; nothing clamps.  This is what x86-64
    and AArch64 compute for finite values below 2^31 in magnitude, which
    covers every value the module produces (at most 255/0.01*256); a NaN
    (the mean of an empty slice) converts to 0 on both. *)
Definition float_to_uint8 (f : float) : Z := (trunc_float f) mod 256.

Definition float_astype_uint8 (a : ndarray float) : ndarray Z :=
  mk_ndarray (shape a) (nmap float_to_uint8 (data a)).

(** ** Indexing, iteration and reshaping *)

(** [for x in a] / [list(a)]: the sub-arrays along axis 0. *)
Definition np_iter {A} (a : ndarray A) : result (list (ndarray A)) :=
  match shape a with
  | [] => Raise TypeError
  | _ :: s => Ok (map (mk_ndarray s) (unseq (data a)))
  end.

(** [len(a)] *)
Definition np_len {A} (a : ndarray A) : result nat :=
  match shape a with
  | [] => Raise TypeError
  | n :: _ => Ok n
  end.

(** Items [j] of every row, in row order. *)
Definition column {A} (j : nat) (rows : list (nested A)) : list (nested A) :=
  flat_map (fun r => match nth_error (unseq r) j with
                     | Some x => [x]
                     | None => []
                     end) rows.

(** Exchange of the two leading axes of contents whose axis 1 has size [m]. *)
Definition swap01 {A} (m : nat) (a : nested A) : nested A :=
  Seq (map (fun j => Seq (column j (unseq a))) (seq 0 m)).

(** [a.transpose(1,2,0)]: [C,H,W] to [H,W,C]. *)
Definition transpose_120 {A} (a : ndarray A) : result (ndarray A) :=
  match shape a with
  | [c; h; w] =>
      Ok (mk_ndarray [h; w; c]
            (Seq (map (swap01 w) (unseq (swap01 h (data a))))))
  | _ => Raise ValueError
  end.

(** [a.transpose(0,2,3,1)]: [N,C,H,W] to [N,H,W,C]. *)
Definition transpose_0231 {A} (a : ndarray A) : result (ndarray A) :=
  match shape a with
  | [n; c; h; w] =>
      Ok (mk_ndarray [n; h; w; c]
            (Seq (map (fun x => Seq (map (swap01 w) (unseq (swap01 h x))))
                      (unseq (data a)))))
  | _ => Raise ValueError
  end.

(** [a[0]] *)
Definition index_first {A} (a : ndarray A) : result (ndarray A) :=
  match shape a, unseq (data a) with
  | S _ :: s, x :: _ => Ok (mk_ndarray s x)
  | _, _ => Raise IndexError
  end.

(** [a[0,:,:]] *)
Definition index_0cc {A} (a : ndarray A) : result (ndarray A) :=
  match shape a, unseq (data a) with
  | S _ :: h :: w :: s, x :: _ => Ok (mk_ndarray (h :: w :: s) x)
  | _, _ => Raise IndexError
  end.

(** Item [k] along the leading axis (callers check the bound). *)
Definition child {A} (k : nat) (a : nested A) : nested A :=
  nth k (unseq a) (Seq []).

(** [a[:,k,:,:]] *)
Definition index_ckcc {A} (k : nat) (a : ndarray A) : result (ndarray A) :=
  match shape a with
  | n :: c :: h :: w :: s =>
      if (k <? c)%nat
      then Ok (mk_ndarray (n :: h :: w :: s)
                 (Seq (map (child k) (unseq (data a)))))
      else Raise IndexError
  | _ => Raise IndexError
  end.

(** [a[lo:hi]] and [a[lo:]] along the leading axis, for literal
    non-negative bounds: Python clamps them to the length. *)
Definition slice {A} (lo hi : nat) (l : list A) : list A :=
  firstn (hi - lo) (skipn lo l).

Definition np_slice {A} (lo : nat) (hi : option nat) (a : ndarray A)
  : result (ndarray A) :=
  match shape a with
  | [] => Raise IndexError
  | n :: s =>
      let l := match hi with
               | Some hi => slice lo hi (unseq (data a))
               | None => skipn lo (unseq (data a))
               end in
      Ok (mk_ndarray (length l :: s) (Seq l))
  end.

(** [a[:,:,:,[0,2,4]]] on a 4-d array. *)
Definition take_last (idx : list nat) (px : nested Z) : nested Z :=
  Seq (map (fun k => child k px) idx).

Definition index_ccc_024 (a : ndarray Z) : result (ndarray Z) :=
  match shape a with
  | [n; h; w; c] =>
      if (4 <? c)%nat
      then Ok (mk_ndarray [n; h; w; 3%nat]
                 (Seq (map (fun img =>
                    Seq (map (fun row =>
                       Seq (map (take_last [0; 2; 4]%nat) (unseq row)))
                         (unseq img)))
                    (unseq (data a)))))
      else Raise IndexError
  | _ => Raise IndexError
  end.

(** [a.squeeze()]: axes of size 1 are dropped. *)
Fixpoint squeeze_shape (s : list nat) : list nat :=
  match s with
  | [] => []
  | 1%nat :: s' => squeeze_shape s'
  | n :: s' => n :: squeeze_shape s'
  end.

Fixpoint squeeze_data {A} (s : list nat) (d : nested A) : nested A :=
  match s with
  | [] => d
  | 1%nat :: s' => squeeze_data s' (child 0 d)
  | _ :: s' => Seq (map (squeeze_data s') (unseq d))
  end.

Definition squeeze {A} (a : ndarray A) : ndarray A :=
  mk_ndarray (squeeze_shape (shape a)) (squeeze_data (shape a) (data a)).

(** [np.expand_dims(a, 1)] *)
Definition expand_dims_1 {A} (a : ndarray A) : result (ndarray A) :=
  match shape a with
  | n :: s =>
      Ok (mk_ndarray (n :: 1%nat :: s)
            (Seq (map (fun x => Seq [x]) (unseq (data a)))))
  | [] => Raise AxisError
  end.

(** [np.expand_dims(a, 2)] *)
Definition expand_dims_2 {A} (a : ndarray A) : result (ndarray A) :=
  match shape a with
  | h :: w :: s =>
      Ok (mk_ndarray (h :: w :: 1%nat :: s)
            (Seq (map (fun row => Seq (map (fun x => Seq [x]) (unseq row)))
                      (unseq (data a)))))
  | _ => Raise AxisError
  end.

Fixpoint zip_with {A B C} (f : A -> B -> C) (l : list A) (l' : list B)
  : list C :=
  match l, l' with
  | x :: xs, y :: ys => f x y :: zip_with f xs ys
  | _, _ => []
  end.

Definition join {A} (x y : nested A) : nested A := Seq (unseq x ++ unseq y).

(** [np.concatenate((a, b), 1)] *)
Definition concatenate_1 {A} (a b : ndarray A) : result (ndarray A) :=
  match shape a, shape b with
  | n :: c :: s, n' :: c' :: s' =>
      if shape_eqb (n :: s) (n' :: s')
      then Ok (mk_ndarray (n :: (c + c')%nat :: s)
                 (Seq (zip_with join (unseq (data a)) (unseq (data b)))))
      else Raise ValueError
  | _, _ => Raise ValueError
  end.

(** [np.concatenate((a, b, c), 2)] *)
Definition concatenate_2 {A} (a b c : ndarray A) : result (ndarray A) :=
  match shape a, shape b, shape c with
  | h :: w :: ka :: s, h' :: w' :: kb :: s', h'' :: w'' :: kc :: s'' =>
      if shape_eqb (h :: w :: s) (h' :: w' :: s')
         && shape_eqb (h :: w :: s) (h'' :: w'' :: s'')
      then Ok (mk_ndarray (h :: w :: (ka + kb + kc)%nat :: s)
                 (Seq (zip_with (fun ra rbc =>
                         Seq (zip_with join (unseq ra) (unseq rbc)))
                       (unseq (data a))
                       (zip_with (fun rb rc =>
                          Seq (zip_with join (unseq rb) (unseq rc)))
                          (unseq (data b)) (unseq (data c))))))
      else Raise ValueError
  | _, _, _ => Raise ValueError
  end.

(** ** Element-wise float arithmetic *)

Fixpoint nzip {A B C} (f : A -> B -> C) (a : nested A) (b : nested B)
  : nested C :=
  match a, b with
  | Scalar x, Scalar y => Scalar (f x y)
  | Seq l, Seq l' =>
      Seq ((fix go (l : list (nested A)) (l' : list (nested B)) :=
              match l, l' with
              | x :: xs, y :: ys => nzip f x y :: go xs ys
              | _, _ => []
              end) l l')
  | _, _ => Seq []
  end.

(** The Python float [0.01], i.e. the binary64 nearest to 1/100. *)
Definition one_hundredth : float :=
  PrimFloat.div (float_of_Z 1) (float_of_Z 100).

(** One element of [c0 / (c1 + 0.01) * 256] on uint8 operands. *)
Definition ratio (c0 c1 : Z) : float :=
  PrimFloat.mul
    (PrimFloat.div (float_of_Z c0) (PrimFloat.add (float_of_Z c1) one_hundredth))
    (float_of_Z 256).

(** [a[:,0,:,:] / (a[:,1,:,:] + 0.01) * 256] on arrays of one shape. *)
Definition ratio_array (a0 a1 : ndarray Z) : ndarray float :=
  mk_ndarray (shape a0) (nzip ratio (data a0) (data a1)).

(** ** [np.average(a, 0)] on a uint8 array *)

Definition scalars {A} (l : list (nested A)) : list A :=
  flat_map (fun x => match x with Scalar z => [z] | Seq _ => [] end) l.

(** The float64 mean of integer samples; an empty sample gives NaN. *)
Definition mean (vals : list Z) : float :=
  PrimFloat.div
    (fold_left (fun acc z => PrimFloat.add acc (float_of_Z z)) vals
               (float_of_Z 0))
    (float_of_Z (Z.of_nat (length vals))).

(** The mean over the leading axis, position by position of the
    remaining shape [s]. *)
Fixpoint mean_axis0 (s : list nat) (l : list (nested Z)) : nested float :=
  match s with
  | [] => Scalar (mean (scalars l))
  | n :: s' => Seq (map (fun j => mean_axis0 s' (column j l)) (seq 0 n))
  end.

Definition np_average_0 (a : ndarray Z) : result (ndarray float) :=
  match shape a with
  | [] => Raise AxisError
  | _ :: s => Ok (mk_ndarray s (mean_axis0 s (unseq (data a))))
  end.

(* ===================================================================== *)
(** * PIL images *)
(* ===================================================================== *)

Inductive mode : Type := L | LA | RGB | RGBA.

(** An image is the array it was decoded from, with its mode. *)
Record Image : Type := mk_Image {
  im_mode : mode;
  im_array : ndarray Z
}.

(** [Image.fromarray(a)] on a uint8 array: the mode is read off the
    trailing dimension ((h,w) is "L"; (h,w,2), (h,w,3), (h,w,4) are
    "LA", "RGB", "RGBA"; a 1-d array is a one-column "L" image); any
    other layout cannot be handled. *)
Definition fromarray (a : ndarray Z) : result Image :=
  match shape a with
  | [] => Raise IndexError
  | [_] => Ok (mk_Image L a)
  | [_; _] => Ok (mk_Image L a)
  | [_; _; 2%nat] => Ok (mk_Image LA a)
  | [_; _; 3%nat] => Ok (mk_Image RGB a)
  | [_; _; 4%nat] => Ok (mk_Image RGBA a)
  | _ => Raise TypeError
  end.

(** [Image.fromarray(a, mode=m)] for the two modes the module passes.
    The array is accepted when its buffer is exactly one image of that
    mode: (h,w) or a column for "L", (h,w,3) for "RGB"; more axes than
    the mode allows, or a buffer of another size, is a [ValueError]. *)
Definition fromarray_mode (m : mode) (a : ndarray Z) : result Image :=
  match m, shape a with
  | _, [] => Raise IndexError
  | L, [_] => Ok (mk_Image L a)
  | L, [_; _] => Ok (mk_Image L a)
  | RGB, [_; _; 3%nat] => Ok (mk_Image RGB a)
  | _, _ => Raise ValueError
  end.

(* ===================================================================== *)
(** * The object store *)
(* ===================================================================== *)

(** Metadata mappings are Python objects: the caller's record and the
    returned record may hold the same one.  A location is an index into
    the store; allocation appends. *)
Definition loc := nat.
Definition heap := list (dict json).

Definition heap_get (h : heap) (l : loc) : option (dict json) := nth_error h l.

Fixpoint heap_put (h : heap) (l : loc) (d : dict json) : heap :=
  match h, l with
  | [], _ => []
  | _ :: t, O => d :: t
  | x :: t, S l' => x :: heap_put t l' d
  end.

Definition alloc (h : heap) (d : dict json) : heap * loc :=
  ((h ++ [d])%list, List.length h).

(** Computations that read and update the store and may raise.  The
    store survives an exception: updates made before it stay. *)
Definition M (A : Type) : Type := heap -> heap * result A.

Definition ret {A} (a : A) : M A := fun h => (h, Ok a).
Definition raise {A} (e : exn) : M A := fun h => (h, Raise e).
Definition lift {A} (r : result A) : M A := fun h => (h, r).

Definition mbind {A B} (c : M A) (k : A -> M B) : M B :=
  fun h =>
    match c h with
    | (h', Ok a) => k a h'
    | (h', Raise e) => (h', Raise e)
    end.

Declare Scope m_scope.
Delimit Scope m_scope with m.
Notation "x <-- c ;; k" := (mbind c (fun x => k))
  (at level 61, c at next level, right associativity) : m_scope.
Notation "c ;;; k" := (mbind c (fun _ => k))
  (at level 61, right associativity) : m_scope.

(** A [for] loop whose body updates the store. *)
Fixpoint for_each {A} (body : A -> M unit) (l : list A) : M unit :=
  match l with
  | [] => ret tt
  | x :: xs => mbind (body x) (fun _ => for_each body xs)
  end.

(* ===================================================================== *)
(** * The subset table (lines 11-40) *)
(* ===================================================================== *)

Definition DATASET : string := "satellogic/EarthView".

(** One entry of [sets]: ["shards"] is always present, ["path"] and
    ["config"] are optional keys. *)
Record descriptor : Type := mk_descriptor {
  shards : Z;
  path : option string;
  config : option string
}.

Definition sets : dict descriptor :=
  [ ("satellogic", mk_descriptor 7863 None None);
    ("sentinel_1", mk_descriptor 1763 None None);
    ("neon", mk_descriptor 607 (Some "data") (Some "default"));
    ("sentinel_2", mk_descriptor 19997 None None) ].

Definition get_subsets : list string := map fst sets.

(** [sets[subset]] *)
Definition sets_getitem (subset : string) : result descriptor :=
  dict_getitem sets subset.

Definition get_nshards (subset : string) : result Z :=
  (d <- sets_getitem subset ;; Ok (shards d))%res.

Definition get_path (subset : string) : result string :=
  (d <- sets_getitem subset ;;
   Ok (match path d with Some p => p | None => subset end))%res.

Definition get_config (subset : string) : result string :=
  (d <- sets_getitem subset ;;
   Ok (match config d with Some c => c | None => subset end))%res.

(* ===================================================================== *)
(** * Shard paths ([load_dataset], lines 42-65) *)
(* ===================================================================== *)

Fixpoint zeros (k : nat) : string :=
  match k with
  | O => ""
  | S k' => String "0" (zeros k')
  end.

Definition digits (n : N) : string := NilZero.string_of_uint (N.to_uint n).

(** [f"{z}"] for an integer. *)
Definition format_d (z : Z) : string :=
  if z <? 0 then "-" ++ digits (Z.abs_N z) else digits (Z.abs_N z).

(** [f"{z:05d}"]: zero padding to width 5, the sign counted in the width. *)
Definition format_05d (z : Z) : string :=
  let ds := digits (Z.abs_N z) in
  if z <? 0
  then "-" ++ zeros (4 - String.length ds) ++ ds
  else zeros (5 - String.length ds) ++ ds.

(** What [load_dataset] hands to the dataset library, as far as it
    depends on the arguments ([save_infos] is always true and the
    token is read from the environment). *)
Record load_request : Type := mk_load_request {
  req_path : string;
  req_name : string;
  req_split : string;
  req_data_files : option (dict (list string));
  req_streaming : bool
}.

Definition load_dataset (subset dataset split : string)
    (shard_list : option (list Z)) (streaming : bool) : result load_request :=
  (config <- get_config subset ;;
   nshards <- get_nshards subset ;;
   path <- get_path subset ;;
   let data_files :=
     match shard_list with
     | None => None
     | Some shards =>
         let files :=
           if String.eqb subset "sentinel_2"
           then map (fun shard =>
                  path ++ "/sentinel_2-" ++ format_d (shard / 10) ++ "/"
                  ++ split ++ "-" ++ format_05d (shard mod 10)
                  ++ "-of-00010.parquet") shards
           else map (fun shard =>
                  path ++ "/" ++ split ++ "-" ++ format_05d shard
                  ++ "-of-" ++ format_05d nshards ++ ".parquet") shards in
         Some [(split, files)]
     end in
   Ok (mk_load_request dataset config split data_files streaming))%res.

(** The shard path as the interface description words it. *)
Definition flat_shard_path (path split : string) (shard nshards : Z) : string :=
  path ++ "/" ++ split ++ "-" ++ format_05d shard ++ "-of-"
  ++ format_05d nshards ++ ".parquet".

Definition two_level_shard_path (path subset split : string) (shard : Z)
  : string :=
  path ++ "/" ++ subset ++ "-" ++ format_d (shard / 10) ++ "/" ++ split
  ++ "-" ++ format_05d (shard mod 10) ++ "-of-00010.parquet".

(* ===================================================================== *)
(** * Records *)
(* ===================================================================== *)

(** The metadata block as the loader delivers it: JSON text, or a
    mapping object. *)
Inductive metadata_in : Type :=
| MetaStr (s : string)
| MetaDict (l : loc).

(** A raw record: the raster fields (every key other than "metadata",
    each nested lists of integers) and the metadata block, if the key
    is present. *)
Record record : Type := mk_record {
  rasters : dict (nested Z);
  metadata : option metadata_in
}.

(** The local [metadata] after lines 86-88: a mapping object, or
    whatever else the JSON text denoted. *)
Inductive pymeta : Type :=
| PDict (l : loc)
| POther (v : json).

(** The values of the record that [item_to_images] builds. *)
Inductive value : Type :=
| VArray (a : ndarray Z)
| VImages (l : list Image)
| VMeta (m : pymeta).

(** [item[k]] where an array is expected. *)
Definition item_array (item : dict value) (k : string) : result (ndarray Z) :=
  (v <- dict_getitem item k ;;
   match v with
   | VArray a => Ok a
   | _ => Raise TypeError
   end)%res.

(** ** Operations on metadata values *)

(** [m[k]] on the metadata value. *)
Definition meta_getitem (m : pymeta) (k : string) : M json :=
  fun h =>
    match m with
    | PDict l =>
        match heap_get h l with
        | Some d => (h, dict_getitem d k)
        | None => (h, Raise DanglingReference)
        end
    | POther _ => (h, Raise TypeError)
    end.

(** [m[k] = v] on the metadata value: the mapping object is updated. *)
Definition meta_setitem (m : pymeta) (k : string) (v : json) : M unit :=
  fun h =>
    match m with
    | PDict l =>
        match heap_get h l with
        | Some d => (heap_put h l (dict_set d k v), Ok tt)
        | None => (h, Raise DanglingReference)
        end
    | POther _ => (h, Raise TypeError)
    end.

Definition chars (s : string) : list json :=
  map (fun c => JStr (String c "")) (list_ascii_of_string s).

(** [for s in v]: the items of a list, the characters of a string, the
    keys of a mapping. *)
Definition py_iter (v : json) : result (list json) :=
  match v with
  | JList l => Ok l
  | JStr s => Ok (chars s)
  | JDict d => Ok (map (fun kv => JStr (fst kv)) d)
  | _ => Raise TypeError
  end.

(** [len(v)] *)
Definition py_len (v : json) : result nat :=
  match v with
  | JList l => Ok (length l)
  | JStr s => Ok (String.length s)
  | JDict d => Ok (length d)
  | _ => Raise TypeError
  end.

(** [v[j]] for a non-negative integer [j]. *)
Definition py_index (v : json) (j : nat) : result json :=
  match v with
  | JList l =>
      match nth_error l j with
      | Some x => Ok x
      | None => Raise IndexError
      end
  | JStr s =>
      match nth_error (chars s) j with
      | Some x => Ok x
      | None => Raise IndexError
      end
  | JDict _ => Raise (KeyError (JInt (Z.of_nat j)))
  | _ => Raise TypeError
  end.

(** [range(0, n, 2)] *)
Definition range_by_2 (n : nat) : list nat :=
  map (fun k => (2 * k)%nat) (seq 0 (Nat.div2 (n + 1))).

(** Line 169:
    [[bounds[i+1-l] for i in range(0, len(bounds), 2) for l in range(2)]] *)
Definition swap_pairs (bounds : json) : result (list json) :=
  (n <- py_len bounds ;;
   pairs <- traverse (fun i =>
              traverse (fun l => py_index bounds (i + 1 - l)) (seq 0 2))
            (range_by_2 n) ;;
   Ok (concat pairs))%res.

(** The pair swap as the interface description words it. *)
Fixpoint swap_adjacent {A} (l : list A) : list A :=
  match l with
  | a :: b :: rest => b :: a :: swap_adjacent rest
  | _ => l
  end.

(* ===================================================================== *)
(** * [item_to_images] (lines 77-175) *)
(* ===================================================================== *)

Section Normalizer.

(** [json.loads] on text: [None] when the text is not JSON. *)
Variable json_loads : string -> option json.

(** [json.loads(s)] on a Python value: only text can be decoded. *)
Definition loads_value (s : json) : result json :=
  match s with
  | JStr t =>
      match json_loads t with
      | Some v => Ok v
      | None => Raise JSONDecodeError
      end
  | _ => Raise TypeError
  end.

(** Lines 86-88: JSON text is decoded; a decoded mapping is a new
    object, a mapping that was passed in is used as it is. *)
Definition load_metadata (md : option metadata_in) : M pymeta :=
  fun h =>
    match md with
    | None => (h, Raise (KeyError (JStr "metadata")))
    | Some (MetaDict l) =>
        match heap_get h l with
        | Some _ => (h, Ok (PDict l))
        | None => (h, Raise DanglingReference)
        end
    | Some (MetaStr s) =>
        match json_loads s with
        | None => (h, Raise JSONDecodeError)
        | Some (JDict d) => let (h', l) := alloc h d in (h', Ok (PDict l))
        | Some v => (h, Ok (POther v))
        end
    end.

(** Lines 90-95: every field other than "metadata" becomes a uint8
    array, in the record's order; "metadata" is added last.  Keys of a
    Python dict are unique, so the comprehension is a map over the
    entries. *)
Definition coerce_fields (item : record) (meta : pymeta) : result (dict value) :=
  (arrays <- traverse (fun kv : string * nested Z =>
               a <- np_asarray (snd kv) ;;
               Ok (fst kv, VArray (astype_uint8 a)))
             (filter (fun kv => negb (String.eqb (fst kv) "metadata"))
                     (rasters item)) ;;
   Ok (dict_set arrays "metadata" (VMeta meta)))%res.

(** Lines 102-108 and 145-148: every revisit transposed to [H,W,C]
    and decoded. *)
Definition decode_hwc (a : ndarray Z) : result (list Image) :=
  (revisits <- np_iter a ;;
   traverse (fun image => t <- transpose_120 image ;; fromarray t) revisits)%res.

(** Lines 97-113. *)
Definition convert_satellogic (item : dict value) : result (dict value * nat) :=
  (rgb <- item_array item "rgb" ;;
   rgbs <- decode_hwc rgb ;;
   let item := dict_set item "rgb" (VImages rgbs) in
   i1m <- item_array item "1m" ;;
   revisits <- np_iter i1m ;;
   images <- traverse (fun image => x <- index_0cc image ;; fromarray x)
                      revisits ;;
   let item := dict_set item "1m" (VImages images) in
   Ok (item, length images))%res.

(** Lines 117-126: the "10m" array with the synthetic channel appended
    along axis 1. *)
Definition append_ratio_channel (i10m : ndarray Z) : result (ndarray Z) :=
  (c0 <- index_ckcc 0 i10m ;;
   c1 <- index_ckcc 1 i10m ;;
   extra <- expand_dims_1 (ratio_array c0 c1) ;;
   concatenate_1 i10m (float_astype_uint8 extra))%res.

(** Lines 114-131. *)
Definition convert_sentinel_1 (item : dict value) : result (dict value * nat) :=
  (i10m <- item_array item "10m" ;;
   i10m <- append_ratio_channel i10m ;;
   images <- decode_hwc i10m ;;
   let item := dict_set item "10m" (VImages images) in
   Ok (item, length images))%res.

(** Lines 134-141: one band of the optical subset.  [data[i]] for [i]
    in [range(count)] visits the sub-arrays along axis 0 in order. *)
Definition convert_band (item : dict value) (channel : string)
  : result (dict value * nat) :=
  (data <- item_array item channel ;;
   count <- np_len data ;;
   data <- transpose_0231 (astype_uint8 data) ;;
   data <- (if String.eqb channel "20m" then index_ccc_024 data else Ok data) ;;
   let mode := if String.eqb channel "10m" || String.eqb channel "scl"
               then L else RGB in
   revisits <- np_iter data ;;
   images <- traverse (fun x => fromarray_mode mode (squeeze x)) revisits ;;
   Ok (dict_set item channel (VImages images), count))%res.

(** Lines 133-141: the loop over the bands; [count] is whatever the
    last iteration assigned. *)
Fixpoint convert_bands (item : dict value) (count : option nat)
    (channels : list string) : result (dict value * option nat) :=
  match channels with
  | [] => Ok (item, count)
  | channel :: rest =>
      match convert_band item channel with
      | Raise e => Raise e
      | Ok (item', n) => convert_bands item' (Some n) rest
      end
  end.

(** Lines 142-143: one metadata field re-parsed element by element. *)
Definition reparse_field (meta : pymeta) (field : string) : M unit :=
  (v <-- meta_getitem meta field ;;
   parsed <-- lift (elems <- py_iter v ;; traverse loads_value elems)%res ;;
   meta_setitem meta field (JList parsed))%m.

(** Lines 132-143. *)
Definition convert_sentinel_2 (item : dict value) (meta : pymeta)
  : M (dict value * option nat) :=
  (r <-- lift (convert_bands item None ["10m"; "20m"; "rgb"; "scl"]) ;;
   for_each (reparse_field meta)
            ["solarAngles"; "tileGeometry"; "viewIncidenceAngles"] ;;;
   ret r)%m.

(** Lines 156-164: one revisit of the hyperspectral "1m" field. *)
Definition pseudo_rgb (image : ndarray Z) : result Image :=
  (g1 <- np_slice 0 (Some 124%nat) image ;;
   a1 <- np_average_0 g1 ;;
   e1 <- expand_dims_2 a1 ;;
   g2 <- np_slice 124 (Some 247%nat) image ;;
   a2 <- np_average_0 g2 ;;
   e2 <- expand_dims_2 a2 ;;
   g3 <- np_slice 247 None image ;;
   a3 <- np_average_0 g3 ;;
   e3 <- expand_dims_2 a3 ;;
   stacked <- concatenate_2 e1 e2 e3 ;;
   fromarray (float_astype_uint8 stacked))%res.

(** Lines 145-165. *)
Definition convert_neon_rasters (item : dict value)
  : result (dict value * nat) :=
  (rgb <- item_array item "rgb" ;;
   rgbs <- decode_hwc rgb ;;
   let item := dict_set item "rgb" (VImages rgbs) in
   chm <- item_array item "chm" ;;
   revisits <- np_iter chm ;;
   chms <- traverse (fun image => x <- index_first image ;; fromarray x)
                    revisits ;;
   let item := dict_set item "chm" (VImages chms) in
   i1m <- item_array item "1m" ;;
   revisits <- np_iter i1m ;;
   images <- traverse pseudo_rgb revisits ;;
   let item := dict_set item "1m" (VImages images) in
   Ok (item, length rgbs))%res.

(** Lines 166-172. *)
Definition fix_neon_metadata (meta : pymeta) : M unit :=
  (bounds <-- meta_getitem meta "bounds" ;;
   swapped <-- lift (swap_pairs bounds) ;;
   meta_setitem meta "bounds" (JList swapped) ;;;
   meta_setitem meta "epsg" (JStr "EPSG:4326"))%m.

(** Lines 144-172. *)
Definition convert_neon (item : dict value) (meta : pymeta)
  : M (dict value * option nat) :=
  (r <-- lift (convert_neon_rasters item) ;;
   fix_neon_metadata meta ;;;
   ret (fst r, Some (snd r)))%m.

(** The [if]/[elif] chain of lines 97-172; it has no [else], so for any
    other subset the record is untouched and [count] stays unassigned. *)
Definition convert_subset (subset : string) (item : dict value) (meta : pymeta)
  : M (dict value * option nat) :=
  if String.eqb subset "satellogic" then
    lift (r <- convert_satellogic item ;; Ok (fst r, Some (snd r)))%res
  else if String.eqb subset "sentinel_1" then
    lift (r <- convert_sentinel_1 item ;; Ok (fst r, Some (snd r)))%res
  else if String.eqb subset "sentinel_2" then
    convert_sentinel_2 item meta
  else if String.eqb subset "neon" then
    convert_neon item meta
  else ret (item, None).

(** Line 174: the right-hand side is evaluated first, so an unassigned
    [count] is reported before the metadata value is touched. *)
Definition store_count (meta : pymeta) (count : option nat) : M unit :=
  match count with
  | None => raise (UnboundLocalError "count")
  | Some n => meta_setitem meta "count" (JInt (Z.of_nat n))
  end.

Definition item_to_images (subset : string) (item : record) : M (dict value) :=
  (meta <-- load_metadata (metadata item) ;;
   fields <-- lift (coerce_fields item meta) ;;
   r <-- convert_subset subset fields meta ;;
   store_count meta (snd r) ;;;
   ret (fst r))%m.

End Normalizer.

(* ===================================================================== *)
(** * Valid records *)
(* ===================================================================== *)

(** The shape of a raster field of the raw record. *)
Definition field_shape (item : record) (k : string) : option (list nat) :=
  match dict_get (rasters item) k with
  | Some v => np_shape v
  | None => None
  end.

(** The number of revisits a raster field holds: the length of its
    outermost list. *)
Definition revisits (item : record) (k : string) : option nat :=
  match dict_get (rasters item) k with
  | Some v => Some (length (unseq v))
  | None => None
  end.

Definition is_regular (v : nested Z) : bool :=
  match np_shape v with
  | Some _ => true
  | None => false
  end.

(** Every raster field is a regular array. *)
Definition regular_fields (item : record) : bool :=
  forallb (fun kv => is_regular (snd kv)) (rasters item).

(** The mapping the metadata block denotes, if it denotes one. *)
Definition metadata_dict (loads : string -> option json) (item : record)
    (h : heap) : option (dict json) :=
  match metadata item with
  | Some (MetaStr s) =>
      match loads s with
      | Some (JDict d) => Some d
      | _ => None
      end
  | Some (MetaDict l) => heap_get h l
  | None => None
  end.

(** A metadata field that holds a list of JSON texts. *)
Definition json_texts (loads : string -> option json) (d : dict json)
    (field : string) : Prop :=
  exists texts, dict_get d field = Some (JList (map JStr texts))
                /\ Forall (fun t => loads t <> None) texts.

(** A metadata "bounds" entry that is a flat list of coordinate pairs. *)
Definition paired_bounds (d : dict json) : Prop :=
  exists bs, dict_get d "bounds" = Some (JList bs) /\ Nat.Even (length bs).

(** The records of section 4.1's preconditions: the raster fields each
    subset expects, with at least one revisit each, images of at least
    one pixel and the channel counts the decoders need, and a metadata
    block that denotes a mapping with the entries the subset's repairs
    read.  Revisit counts and image sizes may differ from field to
    field.  The optical bands are at least 2x2, so that [squeeze] drops
    the band axis only. *)
Inductive valid_record (loads : string -> option json)
  : string -> record -> heap -> Prop :=
| valid_satellogic item h d n1 h1 w1 n2 c2 h2 w2 :
    regular_fields item = true ->
    metadata_dict loads item h = Some d ->
    field_shape item "rgb" = Some [S n1; 3; S h1; S w1]%nat ->
    field_shape item "1m" = Some [S n2; S c2; S h2; S w2]%nat ->
    valid_record loads "satellogic" item h
| valid_sentinel_1 item h d n1 h1 w1 :
    regular_fields item = true ->
    metadata_dict loads item h = Some d ->
    field_shape item "10m" = Some [S n1; 2; S h1; S w1]%nat ->
    valid_record loads "sentinel_1" item h
| valid_sentinel_2 item h d n1 h1 w1 n2 c2 h2 w2 n3 h3 w3 n4 h4 w4 :
    regular_fields item = true ->
    metadata_dict loads item h = Some d ->
    field_shape item "10m" = Some [S n1; 1; S (S h1); S (S w1)]%nat ->
    field_shape item "20m" = Some [S n2; 5 + c2; S (S h2); S (S w2)]%nat ->
    field_shape item "rgb" = Some [S n3; 3; S (S h3); S (S w3)]%nat ->
    field_shape item "scl" = Some [S n4; 1; S (S h4); S (S w4)]%nat ->
    json_texts loads d "solarAngles" ->
    json_texts loads d "tileGeometry" ->
    json_texts loads d "viewIncidenceAngles" ->
    valid_record loads "sentinel_2" item h
| valid_neon item h d n1 h1 w1 n2 c2 h2 w2 n3 b3 h3 w3 :
    regular_fields item = true ->
    metadata_dict loads item h = Some d ->
    field_shape item "rgb" = Some [S n1; 3; S h1; S w1]%nat ->
    field_shape item "chm" = Some [S n2; S c2; S h2; S w2]%nat ->
    field_shape item "1m" = Some [S n3; b3; S h3; S w3]%nat ->
    paired_bounds d ->
    valid_record loads "neon" item h.

(** The field whose length the subset's branch assigns to [count]
    (lines 113, 131, 135 with the last band of line 133, and 165). *)
Definition primary_field (subset : string) : option string :=
  if String.eqb subset "satellogic" then Some "1m"
  else if String.eqb subset "sentinel_1" then Some "10m"
  else if String.eqb subset "sentinel_2" then Some "scl"
  else if String.eqb subset "neon" then Some "rgb"
  else None.

(** What a returned record says about its metadata: the mapping object
    it holds and that mapping's contents in the store. *)
Definition returned_metadata (out : dict value) (h : heap)
  : option (loc * dict json) :=
  match dict_get out "metadata" with
  | Some (VMeta (PDict l)) =>
      match heap_get h l with
      | Some d => Some (l, d)
      | None => None
      end
  | _ => None
  end.

(** [metadata.count] of a returned record. *)
Definition metadata_count (out : dict value) (h : heap) : option json :=
  match returned_metadata out h with
  | Some (_, d) => dict_get d "count"
  | None => None
  end.

(** [H,W,C] contents of [C,H,W] contents. *)
Definition hwc {A} (h w : nat) (x : nested A) : nested A :=
  Seq (map (swap01 w) (unseq (swap01 h x))).

(** A structural reading of "contents of shape [s]". *)
Fixpoint has_shape {A} (s : list nat) (a : nested A) : Prop :=
  match s with
  | [] => match a with Scalar _ => True | Seq _ => False end
  | n :: s' =>
      match a with
      | Seq l => length l = n /\ Forall (has_shape s') l
      | Scalar _ => False
      end
  end.

(* ===================================================================== *)
(** * Sample inputs *)
(* ===================================================================== *)

(** A stand-in for [json.loads] on the two texts the samples use. *)
Definition sample_loads (s : string) : option json :=
  if String.eqb s "{}" then Some (JDict [])
  else if String.eqb s "[]" then Some (JList [])
  else None.

Definition plane (rows : list (list Z)) : nested Z :=
  Seq (map (fun r => Seq (map Scalar r)) rows).

(** One 2x2 revisit with [c] channels; channel [k] holds [10*k + 1..4]. *)
Definition sample_revisit (c : nat) : nested Z :=
  Seq (map (fun k => plane [[10 * Z.of_nat k + 1; 10 * Z.of_nat k + 2];
                            [10 * Z.of_nat k + 3; 10 * Z.of_nat k + 4]])
           (seq 0 c)).

Definition sample_field (revisit_count c : nat) : nested Z :=
  Seq (repeat (sample_revisit c) revisit_count).

Unset Implicit Arguments.

(* ===================================================================== *)
(** * Derived notions: what the runs on valid records produce *)
(* ===================================================================== *)

(** The uint8 array of a raw raster field. *)
Definition uint8_array (v : nested Z) : ndarray Z :=
  mk_ndarray (match np_shape v with Some s => s | None => [] end)
             (nmap uint8 v).

(** The record of lines 90-95 on regular fields. *)
Definition coerced (item : record) (meta : pymeta) : dict value :=
  dict_set
    (map (fun kv : string * nested Z => (fst kv, VArray (uint8_array (snd kv))))
         (filter (fun kv => negb (String.eqb (fst kv) "metadata"))
                 (rasters item)))
    "metadata" (VMeta meta).

(** The converted fields of a valid aerial record. *)
Definition satellogic_fields (fields : dict value) (rgb i1m : nested Z)
    (h1 w1 h2 w2 : nat) : dict value :=
  dict_set
    (dict_set fields "rgb"
       (VImages (map (fun x => mk_Image RGB
                                 (mk_ndarray [h1; w1; 3]%nat (hwc h1 w1 x)))
                     (unseq (nmap uint8 rgb)))))
    "1m"
    (VImages (map (fun x => mk_Image L (mk_ndarray [h2; w2] (child 0 x)))
                  (unseq (nmap uint8 i1m)))).

(** One revisit's synthetic channel: [c0 / (c1 + 0.01) * 256] element by
    element, converted to uint8. *)
Definition ratio_channel (x : nested Z) : nested Z :=
  nmap float_to_uint8 (nzip ratio (child 0 x) (child 1 x)).

(** One revisit with the synthetic channel appended. *)
Definition with_ratio_channel (x : nested Z) : nested Z :=
  Seq (unseq x ++ [ratio_channel x]).

Definition sentinel_1_fields (fields : dict value) (i10m : nested Z)
    (h1 w1 : nat) : dict value :=
  dict_set fields "10m"
    (VImages (map (fun x => mk_Image RGB
                              (mk_ndarray [h1; w1; 3]%nat
                                 (hwc h1 w1 (with_ratio_channel x))))
                  (unseq (nmap uint8 i10m)))).

(** The channel selection of line 138 on [H,W,C] contents. *)
Definition select_024 (img : nested Z) : nested Z :=
  Seq (map (fun row => Seq (map (take_last [0; 2; 4]%nat) (unseq row)))
           (unseq img)).

(** One decoded revisit of a band: the [H,W,C] contents, after [pick],
    squeezed. *)
Definition band_image (m : mode) (s : list nat) (pick : nested Z -> nested Z)
    (h w : nat) (x : nested Z) : Image :=
  mk_Image m (squeeze (mk_ndarray s (pick (hwc h w x)))).

Definition sentinel_2_fields (fields : dict value) (i10m i20m rgb scl : nested Z)
    (h1 w1 h2 w2 h3 w3 h4 w4 : nat) : dict value :=
  dict_set
    (dict_set
       (dict_set
          (dict_set fields "10m"
             (VImages (map (band_image L [h1; w1; 1]%nat (fun y => y) h1 w1)
                           (unseq (nmap uint8 (nmap uint8 i10m))))))
          "20m"
          (VImages (map (band_image RGB [h2; w2; 3]%nat select_024 h2 w2)
                        (unseq (nmap uint8 (nmap uint8 i20m))))))
       "rgb"
       (VImages (map (band_image RGB [h3; w3; 3]%nat (fun y => y) h3 w3)
                     (unseq (nmap uint8 (nmap uint8 rgb))))))
    "scl"
    (VImages (map (band_image L [h4; w4; 1]%nat (fun y => y) h4 w4)
                  (unseq (nmap uint8 (nmap uint8 scl))))).

(** The value a JSON text decodes to. *)
Definition decoded (loads : string -> option json) (t : string) : json :=
  match loads t with
  | Some v => v
  | None => JNull
  end.

(** The metadata mapping after lines 142-143. *)
Definition reparsed (loads : string -> option json) (d : dict json)
    (t1 t2 t3 : list string) : dict json :=
  dict_set
    (dict_set
       (dict_set d "solarAngles" (JList (map (decoded loads) t1)))
       "tileGeometry" (JList (map (decoded loads) t2)))
    "viewIncidenceAngles" (JList (map (decoded loads) t3)).

(** The values one group of bands holds at pixel [(y, x)]. *)
Definition samples (group : list (nested Z)) (y x : nat) : list Z :=
  scalars (column x (column y group)).

(** The mean of each of three groups, as a pixel of three uint8 values. *)
Definition mean_pixel (g1 g2 g3 : list (nested Z)) (y x : nat) : nested Z :=
  Seq [Scalar (float_to_uint8 (mean (samples g1 y x)));
       Scalar (float_to_uint8 (mean (samples g2 y x)));
       Scalar (float_to_uint8 (mean (samples g3 y x)))].

(** The [H,W,3] contents built from the bands of one "1m" revisit. *)
Definition pseudo_rgb_pixels (h w : nat) (bands : list (nested Z)) : nested Z :=
  Seq (map (fun y =>
         Seq (map (mean_pixel (firstn 124 bands)
                              (firstn 123 (skipn 124 bands))
                              (skipn 247 bands) y)
                  (seq 0 w)))
       (seq 0 h)).

Definition neon_fields (fields : dict value) (rgb chm i1m : nested Z)
    (h1 w1 h2 w2 h3 w3 : nat) : dict value :=
  dict_set
    (dict_set
       (dict_set fields "rgb"
          (VImages (map (fun x => mk_Image RGB
                                    (mk_ndarray [h1; w1; 3]%nat (hwc h1 w1 x)))
                        (unseq (nmap uint8 rgb)))))
       "chm"
       (VImages (map (fun x => mk_Image L (mk_ndarray [h2; w2] (child 0 x)))
                     (unseq (nmap uint8 chm)))))
    "1m"
    (VImages (map (fun x => mk_Image RGB
                              (mk_ndarray [h3; w3; 3]%nat
                                 (pseudo_rgb_pixels h3 w3 (unseq x))))
                  (unseq (nmap uint8 i1m)))).

(** The comprehension of line 169 over the items of a list. *)
Definition swap_items (bs : list json) : result (list (list json)) :=
  traverse (fun i =>
     traverse (fun l => py_index (JList bs) (i + 1 - l)) (seq 0 2))
    (range_by_2 (length bs)).

(** The metadata mapping after lines 166-172. *)
Definition neon_metadata (d : dict json) (bs : list json) : dict json :=
  dict_set (dict_set d "bounds" (JList (swap_adjacent bs)))
           "epsg" (JStr "EPSG:4326").

(** The outcome of lines 86-88 on a record whose metadata denotes the
    mapping [d]: the local [metadata] is the object [l] of the store
    [h1], which is the caller's object in the caller's store, or a new
    object appended to it. *)
Definition loaded (loads : string -> option json) (item : record) (h : heap)
    (d : dict json) (h1 : heap) (l : loc) : Prop :=
  load_metadata loads (metadata item) h = (h1, Ok (PDict l))
  /\ heap_get h1 l = Some d
  /\ ((metadata item = Some (MetaDict l) /\ h1 = h)
      \/ (exists s, metadata item = Some (MetaStr s)
                    /\ h1 = (h ++ [d])%list /\ l = length h)).

Definition count_value (n : nat) : json := JInt (Z.of_nat n).

(** Aerial: one "rgb" revisit, two "1m" revisits, metadata as text. *)
Definition sample_satellogic : record :=
  mk_record [("rgb", sample_field 1 3); ("1m", sample_field 2 1)]
            (Some (MetaStr "{}")).

(** Radar: one 1x1 "10m" revisit with channel 0 = [100], channel 1 = [0]. *)
Definition sample_sentinel_1 : record :=
  mk_record [("10m", Seq [Seq [plane [[100]]; plane [[0]]]])]
            (Some (MetaStr "{}")).

(** Optical: one revisit of every band except "scl", which has two;
    metadata is the caller's mapping at location 0. *)
Definition sample_sentinel_2 : record :=
  mk_record [("10m", sample_field 1 1); ("20m", sample_field 1 5);
             ("rgb", sample_field 1 3); ("scl", sample_field 2 1)]
            (Some (MetaDict 0%nat)).

Definition sample_sentinel_2_heap : heap :=
  [[("solarAngles", JList [JStr "{}"]);
    ("tileGeometry", JList [JStr "[]"]);
    ("viewIncidenceAngles", JList [])]].

(** Hyperspectral: one revisit per field, two bands in "1m"; metadata
    is the caller's mapping at location 0. *)
Definition sample_neon : record :=
  mk_record [("rgb", sample_field 1 3); ("chm", sample_field 1 1);
             ("1m", sample_field 1 2)]
            (Some (MetaDict 0%nat)).

Definition sample_neon_heap : heap :=
  [[("bounds", JList [JInt 1; JInt 2; JInt 3; JInt 4]);
    ("epsg", JStr "EPSG:32611")]].

Definition known_subset (subset : string) : bool :=
  String.eqb subset "satellogic" || String.eqb subset "sentinel_1"
  || String.eqb subset "sentinel_2" || String.eqb subset "neon".

(** The values of a uint8 element, in order. *)
Definition byte_values : list Z := map Z.of_nat (seq 0 256).

(** The sizes of the three groups the literal slices cut a revisit of
    369 bands into. *)
Definition group_sizes : list nat := [124; 123; 122]%nat.

(** The values a group of band planes holds at row [y], column [x]. *)
Definition values_at (bands : list (nested Z)) (y x : nat) : list Z :=
  scalars (map (fun band => child x (child y band)) bands).

(** One revisit of 248 bands of one pixel each; band [k] holds [k]. *)
Definition sample_248_bands : nested Z :=
  Seq (map (fun k => plane [[Z.of_nat k]]) (seq 0 248)).

Definition sample_neon_248 : record :=
  mk_record [("rgb", sample_field 1 3); ("chm", sample_field 1 1);
             ("1m", Seq [sample_248_bands])]
            (Some (MetaDict 0%nat)).

(** The optical subset after a first call: every element of the three
    re-parsed fields is a decoded value, not text. *)
Definition normalized_sentinel_2_heap : heap :=
  [[("solarAngles", JList [JDict []]);
    ("tileGeometry", JList [JList []]);
    ("viewIncidenceAngles", JList []);
    ("count", JInt 2)]].

(** The hyperspectral sample after a first call. *)
Definition normalized_neon_heap : heap :=
  [[("bounds", JList [JInt 2; JInt 1; JInt 4; JInt 3]);
    ("epsg", JStr "EPSG:4326");
    ("count", JInt 1)]].

(** The radar sample with the caller's (empty) mapping as metadata. *)
Definition sample_sentinel_1_dict : record :=
  mk_record (rasters sample_sentinel_1) (Some (MetaDict 0%nat)).

(** [h'] differs from [h] at most at location [l]. *)
Definition frames (l : loc) (h h' : heap) : Prop :=
  length h' = length h
  /\ forall l', l' <> l -> heap_get h' l' = heap_get h l'.

(** A computation that updates at most the object at [l]. *)
Definition touches_only {A} (l : loc) (c : M A) : Prop :=
  forall h h' r, c h = (h', r) -> frames l h h'.

(** The object a metadata value stands for, if it is one. *)
Definition owned_by (meta : pymeta) (l : loc) : Prop :=
  match meta with
  | PDict l' => l' = l
  | POther _ => True
  end.

(** A run in a store that holds a second object of the caller. *)
Definition sample_frame_run : heap * result (dict value) :=
  item_to_images sample_loads "neon" sample_neon
                 (sample_neon_heap ++ sample_sentinel_2_heap)%list.

(* ===================================================================== *)
(** * Further code of the repository *)
(* ===================================================================== *)

(** The fields each branch of lines 97-172 replaces by images. *)
Definition converted_fields (subset : string) : list string :=
  if String.eqb subset "satellogic" then ["rgb"; "1m"]
  else if String.eqb subset "sentinel_1" then ["10m"]
  else if String.eqb subset "sentinel_2" then ["10m"; "20m"; "rgb"; "scl"]
  else if String.eqb subset "neon" then ["rgb"; "chm"; "1m"]
  else [].

(** [load_parquet] (lines 67-71): the file that is opened. *)
Definition parquet_filename (subset_or_filename : string) : string :=
  if existsb (String.eqb subset_or_filename) get_subsets
  then "dataset/" ++ subset_or_filename ++ "/sample.parquet"
  else subset_or_filename.

(** ** [download_images.py] *)

(** Lines 19 and 32: the URL of one shard of the aerial subset. *)
Definition total_shards : Z := 7863.

Definition shard_path (shard_idx : Z) : string :=
  "https://huggingface.co/datasets/satellogic/EarthView/resolve/main/satellogic/train-"
  ++ format_05d shard_idx ++ "-of-" ++ format_05d total_shards ++ ".parquet".

(** Line 55: the shard that is loaded when no random shard could be. *)
Definition fallback_shard_path : string :=
  "https://huggingface.co/datasets/satellogic/EarthView/resolve/main/satellogic/train-00000-of-07863.parquet".

(** [isinstance(x, list)] *)
Definition is_list {A} (x : nested A) : bool :=
  match x with
  | Seq _ => true
  | Scalar _ => false
  end.

(** Line 80, for one channel:
    [isinstance(ch, list) and len(ch) > 0
     and all(isinstance(row, list) for row in ch)]. *)
Definition is_2d_channel {A} (ch : nested A) : bool :=
  match ch with
  | Seq (row :: rows) => forallb is_list (row :: rows)
  | _ => false
  end.

Fixpoint zip_with3 {A B C D} (f : A -> B -> C -> D)
    (l1 : list A) (l2 : list B) (l3 : list C) : list D :=
  match l1, l2, l3 with
  | x :: xs, y :: ys, z :: zs => f x y z :: zip_with3 f xs ys zs
  | _, _, _ => []
  end.

(** [np.stack([r, g, b], axis=2)] on three arrays of one shape with at
    least two axes: position [(y, x)] holds the three items found
    there. *)
Definition np_stack_2 {A} (r g b : ndarray A) : result (ndarray A) :=
  match shape r with
  | h :: w :: s =>
      Ok (mk_ndarray (h :: w :: 3%nat :: s)
            (Seq (zip_with3
                    (fun rr gr br =>
                       Seq (zip_with3 (fun x y z => Seq [x; y; z])
                              (unseq rr) (unseq gr) (unseq br)))
                    (unseq (data r)) (unseq (data g)) (unseq (data b)))))
  | _ => Raise AxisError
  end.

Section ProcessExample.

(** [np.array(..., dtype=np.uint8)] on one Python integer.  Integers
    in 0..255 are stored as they are; for any other integer NumPy 2
    raises and NumPy 1 keeps the low 8 bits, so the conversion is a
    parameter. *)
Variable narrow_uint8 : Z -> result Z.

Fixpoint narrow_items (a : nested Z) : result (nested Z) :=
  match a with
  | Scalar z =>
      match narrow_uint8 z with
      | Ok z' => Ok (Scalar z')
      | Raise e => Raise e
      end
  | Seq l =>
      match (fix go (l : list (nested Z)) : result (list (nested Z)) :=
               match l with
               | [] => Ok []
               | x :: xs =>
                   match narrow_items x with
                   | Raise e => Raise e
                   | Ok y =>
                       match go xs with
                       | Raise e => Raise e
                       | Ok ys => Ok (y :: ys)
                       end
                   end
               end) l with
      | Ok l' => Ok (Seq l')
      | Raise e => Raise e
      end
  end.

(** [np.array(v, dtype=np.uint8)] on nested lists of integers. *)
Definition np_array_uint8 (v : nested Z) : result (ndarray Z) :=
  match np_shape v with
  | None => Raise ValueError
  | Some s =>
      match narrow_items v with
      | Ok d => Ok (mk_ndarray s d)
      | Raise e => Raise e
      end
  end.

(** [process_example] (lines 66-94): the first revisit of "rgb" as an
    image, [None] when the field does not look like
    [revisits][channels][height][width].  The arguments [idx] and
    [shard_id] are not used by the function. *)
Definition process_example (example : record) : result (option Image) :=
  match dict_get (rasters example) "rgb" with
  | None => Ok None
  | Some (Scalar _) => Raise TypeError
  | Some (Seq []) => Ok None
  | Some (Seq (Scalar _ :: _)) => Ok None
  | Some (Seq (Seq first :: _)) =>
      if (length first <? 3)%nat then Ok None
      else
        let channels := firstn 3 first in
        if negb (forallb is_2d_channel channels) then Ok None
        else
          (r <- np_array_uint8 (nth 0 channels (Seq [])) ;;
           g <- np_array_uint8 (nth 1 channels (Seq [])) ;;
           b <- np_array_uint8 (nth 2 channels (Seq [])) ;;
           if negb (shape_eqb (shape r) (shape g))
              || negb (shape_eqb (shape g) (shape b))
           then Ok None
           else
             (rgb_img <- np_stack_2 r g b ;;
              img <- fromarray rgb_img ;;
              Ok (Some img)))%res
  end.

End ProcessExample.

(** ** The sampling loop of [download_images.py] (lines 96-139) *)

(** Lines 10-11. *)
Definition output_dir : string := "sample_images".
Definition num_images_to_download : nat := 100.

(** Line 101: [max(1, num_images_to_download // len(all_examples))].
    The list of loaded shards is not empty when the loop is reached:
    the script loads the fallback shard or exits before. *)
Definition per_shard_samples (n_shards : nat) : nat :=
  Nat.max 1 (num_images_to_download / n_shards).

(** [f"{idx:04d}"] for an index. *)
Definition format_04d (idx : nat) : string :=
  let ds := digits (N.of_nat idx) in
  zeros (4 - String.length ds) ++ ds.

(** Line 126: the file an image is saved to. *)
Definition image_path (shard_id idx : nat) : string :=
  output_dir ++ "/rgb_shard" ++ format_d (Z.of_nat shard_id) ++ "_idx"
  ++ format_04d idx ++ ".png".

(** What the loop has done so far: the counter and the files saved, in
    order. *)
Record progress : Type := mk_progress {
  images_saved : nat;
  written : list string
}.

Section SamplingLoop.

Variable narrow_uint8 : Z -> result Z.

(** [random.sample(range(n), k)] as drawn for shard [shard_id]. *)
Variable random_sample : nat -> nat -> nat -> list nat.

(** [dataset[idx]] of the shard at position [shard_id]. *)
Variable example_at : nat -> nat -> result record.

(** [img.save(path)] *)
Variable save : Image -> string -> result unit.

(** Lines 118-126: fetching, decoding and saving one example; [true]
    when an image was saved. *)
Definition save_example (shard_id idx : nat) : result bool :=
  (example <- example_at shard_id idx ;;
   img <- process_example narrow_uint8 example ;;
   match img with
   | None => Ok false
   | Some img => _ <- save img (image_path shard_id idx) ;; Ok true
   end)%res.

(** Lines 117-139: one pass of the inner loop's body; the flag says
    whether the loop is left.  Any exception is caught and the loop
    goes on with the next index. *)
Definition try_example (per shard_id idx : nat) (p : progress)
  : progress * bool :=
  match save_example shard_id idx with
  | Ok true =>
      let p' := mk_progress (S (images_saved p))
                            (written p ++ [image_path shard_id idx]) in
      (p', (images_saved p' mod per =? 0)%nat
           && (images_saved p' <? num_images_to_download)%nat)
  | _ => (p, false)
  end.

(** Lines 113-139: the loop over the sampled indices of one shard. *)
Fixpoint sample_loop (per shard_id : nat) (indices : list nat) (p : progress)
  : progress :=
  match indices with
  | [] => p
  | idx :: rest =>
      if (num_images_to_download <=? images_saved p)%nat then p
      else
        let (p', leave) := try_example per shard_id idx p in
        if leave then p' else sample_loop per shard_id rest p'
  end.

(** Lines 103-111: one shard of size [shard_size]. *)
Definition shard_loop (per : nat) (p : progress) (shard : nat * nat)
  : progress :=
  let (shard_id, shard_size) := shard in
  let num_to_sample := Nat.min shard_size (per * 2) in
  if (num_to_sample <=? 0)%nat then p
  else sample_loop per shard_id
         (random_sample shard_id shard_size num_to_sample) p.

(** Lines 96-139, for loaded shards of the given sizes. *)
Definition save_images (shard_sizes : list nat) : progress :=
  fold_left (shard_loop (per_shard_samples (length shard_sizes)))
            (combine (seq 0 (length shard_sizes)) shard_sizes)
            (mk_progress 0 []).

End SamplingLoop.

(** What holds of the counter at the head of the inner loop while the
    shard's share ends at [m]. *)
Definition below (m : nat) (p : progress) : Prop :=
  (images_saved p <= num_images_to_download)%nat
  /\ (images_saved p <= m)%nat
  /\ (images_saved p = m -> (num_images_to_download <= images_saved p)%nat)
  /\ length (written p) = images_saved p.

(** NumPy 1's conversion of an integer to uint8. *)
Definition narrow_wrapping (z : Z) : result Z := Ok (uint8 z).

(** All integers of nested lists are in 0..255. *)
Fixpoint in_uint8 (a : nested Z) : bool :=
  match a with
  | Scalar z => (0 <=? z) && (z <? 256)
  | Seq l => forallb in_uint8 l
  end.

(** The scalars of nested sequences, in order. *)
Fixpoint leaves {A} (a : nested A) : list A :=
  match a with
  | Scalar x => [x]
  | Seq l => flat_map leaves l
  end.

(** Every value of a returned field is a uint8 value. *)
Definition uint8_values (a : nested Z) : Prop :=
  Forall (fun z => 0 <= z < 256) (leaves a).

Definition value_in_uint8 (v : value) : Prop :=
  match v with
  | VArray a => uint8_values (data a)
  | VImages imgs => Forall (fun img => uint8_values (data (im_array img))) imgs
  | VMeta _ => True
  end.

(** Every value a record holds is a uint8 value. *)
Definition bytes_dict (d : dict value) : Prop :=
  forall k v, dict_get d k = Some v -> value_in_uint8 v.

(** A reader of decimal digits, the inverse of the integer formats. *)
Definition digits_value (s : string) : option N :=
  match NilEmpty.uint_of_string s with
  | Some d => Some (N.of_uint d)
  | None => None
  end.

Definition int_value (s : string) : option Z :=
  match digits_value s with
  | Some n => Some (Z.of_N n)
  | None =>
      match s with
      | String "-" s' =>
          match digits_value s' with
          | Some n => Some (- Z.of_N n)
          | None => None
          end
      | _ => None
      end
  end.

(** No character of the string is a slash. *)
Fixpoint no_slash (s : string) : Prop :=
  match s with
  | EmptyString => True
  | String c s' => c <> "/"%char /\ no_slash s'
  end.

(** No character of the string is [c]. *)
Fixpoint lacks (c : ascii) (s : string) : Prop :=
  match s with
  | EmptyString => True
  | String c' s' => c' <> c /\ lacks c s'
  end.

(** A deterministic stand-in for the script's surroundings: the first
    indices are drawn, every example is the aerial sample, and saving
    succeeds. *)
Definition sample_draw (shard_id n k : nat) : list nat := seq 0 k.

(** ** Samples for the further properties *)

(** The radar sample with a field no branch reads; its values are
    outside 0..255. *)
Definition sample_with_mask : record :=
  mk_record [("10m", Seq [Seq [plane [[100]]; plane [[0]]]]);
             ("mask", Seq [Scalar 300; Scalar (-1)])]
            (Some (MetaStr "{}")).

(** A store whose "bounds" entry has an odd number of items. *)
Definition sample_odd_bounds_heap : heap :=
  [[("bounds", JList [JInt 1; JInt 2; JInt 3]);
    ("epsg", JStr "EPSG:32611")]].

(** A store whose second re-parsed field holds a text that is not
    JSON. *)
Definition sample_bad_geometry_heap : heap :=
  [[("solarAngles", JList [JStr "{}"]);
    ("tileGeometry", JList [JStr "[]"; JStr "oops"]);
    ("viewIncidenceAngles", JList [])]].

(** A record with a raster whose rows differ in length. *)
Definition sample_ragged : record :=
  mk_record [("rgb", Seq [Seq [Scalar 1]; Seq [Scalar 1; Scalar 2]])]
            (Some (MetaStr "{}")).

(** Records without a usable metadata block. *)
Definition sample_no_metadata : record :=
  mk_record [("rgb", sample_field 1 3)] None.

Definition sample_bad_metadata : record :=
  mk_record [("rgb", sample_field 1 3)] (Some (MetaStr "oops")).

(** A radar record with one 2x2 revisit of [c] channels. *)
Definition sample_radar (c : nat) : record :=
  mk_record [("10m", sample_field 1 c)] (Some (MetaStr "{}")).

(** An optical record whose "20m" field has three channels only. *)
Definition sample_short_20m : record :=
  mk_record [("10m", sample_field 1 1); ("20m", sample_field 1 3);
             ("rgb", sample_field 1 3); ("scl", sample_field 2 1)]
            (Some (MetaDict 0%nat)).

(* ===================================================================== *)
(** * Lemmas: dictionaries and the store *)
(* ===================================================================== *)

Section DictFacts.
Variable V : Type.
Implicit Types (d : dict V) (k : string) (v : V).

Lemma dict_get_set_same d k v : dict_get (dict_set d k v) k = Some v.
Proof.
  induction d as [|[k' v'] d IH]; simpl.
  - now rewrite String.eqb_refl.
  - destruct (String.eqb k k') eqn:E; simpl; rewrite E; auto.
Qed.

Lemma dict_get_set_other d k k' v :
  k <> k' -> dict_get (dict_set d k v) k' = dict_get d k'.
Proof.
  intros Hne. induction d as [|[k0 v0] d IH]; simpl.
  - destruct (String.eqb k' k) eqn:E; auto.
    apply String.eqb_eq in E. congruence.
  - destruct (String.eqb k k0) eqn:E; simpl.
    + apply String.eqb_eq in E. subst k0.
      destruct (String.eqb k' k) eqn:E'; auto.
      apply String.eqb_eq in E'. congruence.
    + now rewrite IH.
Qed.

Lemma dict_set_same d k v : dict_get d k = Some v -> dict_set d k v = d.
Proof.
  induction d as [|[k' v'] d IH]; simpl; [discriminate|].
  destruct (String.eqb k k') eqn:E; intros H.
  - now inversion H.
  - now rewrite IH.
Qed.

Lemma dict_set_set d k v v' : dict_set (dict_set d k v) k v' = dict_set d k v'.
Proof.
  induction d as [|[k0 v0] d IH]; simpl.
  - now rewrite String.eqb_refl.
  - destruct (String.eqb k k0) eqn:E; simpl; rewrite E; auto.
    now rewrite IH.
Qed.

End DictFacts.

Lemma heap_put_length h l d : length (heap_put h l d) = length h.
Proof.
  revert l. induction h as [|x h IH]; intros [|l]; simpl; auto.
Qed.

Lemma heap_get_put_same h l d d0 :
  heap_get h l = Some d0 -> heap_get (heap_put h l d) l = Some d.
Proof.
  unfold heap_get. revert l.
  induction h as [|x h IH]; intros [|l]; simpl; try discriminate; auto.
Qed.

Lemma heap_get_put_other h l l' d :
  l <> l' -> heap_get (heap_put h l d) l' = heap_get h l'.
Proof.
  unfold heap_get. revert l l'.
  induction h as [|x h IH]; intros [|l] [|l'] Hne; simpl; auto.
  congruence.
Qed.

Lemma heap_put_put h l d d' : heap_put (heap_put h l d) l d' = heap_put h l d'.
Proof.
  revert l. induction h as [|x h IH]; intros [|l]; simpl; auto.
  now rewrite IH.
Qed.

Lemma heap_get_alloc_new (h : heap) d :
  heap_get (h ++ [d])%list (length h) = Some d.
Proof.
  unfold heap_get. rewrite nth_error_app2 by lia.
  now rewrite Nat.sub_diag.
Qed.

Lemma heap_get_alloc_old (h : heap) d l :
  (l < length h)%nat -> heap_get (h ++ [d])%list l = heap_get h l.
Proof.
  intros H. unfold heap_get. now rewrite nth_error_app1.
Qed.

(* ===================================================================== *)
(** * Lemmas: comprehensions and list helpers *)
(* ===================================================================== *)

Lemma traverse_map_ok {A B} (f : A -> result B) (g : A -> B) (l : list A) :
  (forall x, In x l -> f x = Ok (g x)) -> traverse f l = Ok (map g l).
Proof.
  induction l as [|x l IH]; simpl; intros H; auto.
  rewrite (H x) by auto. rewrite IH by auto. reflexivity.
Qed.

Lemma traverse_map {A B C} (f : B -> result C) (g : A -> B) (l : list A) :
  traverse f (map g l) = traverse (fun x => f (g x)) l.
Proof.
  induction l as [|x l IH]; simpl; auto. now rewrite IH.
Qed.

Lemma zip_with_map {A B C D} (f : B -> C -> D) (g : A -> B) (g' : A -> C)
    (l : list A) :
  zip_with f (map g l) (map g' l) = map (fun x => f (g x) (g' x)) l.
Proof.
  induction l as [|x l IH]; simpl; auto. now rewrite IH.
Qed.

Lemma zip_with_map_r {A B C} (f : A -> B -> C) (g : A -> B) (l : list A) :
  zip_with f l (map g l) = map (fun x => f x (g x)) l.
Proof.
  induction l as [|x l IH]; simpl; auto. now rewrite IH.
Qed.

Lemma nzip_items_map {A B C D} (f : B -> C -> D) (g : A -> nested B)
    (g' : A -> nested C) (l : list A) :
  (fix go (l0 : list (nested B)) (l' : list (nested C)) : list (nested D) :=
     match l0, l' with
     | x :: xs, y :: ys => nzip f x y :: go xs ys
     | _, _ => []
     end) (map g l) (map g' l)
  = map (fun x => nzip f (g x) (g' x)) l.
Proof.
  induction l as [|x l IH]; simpl; auto. now rewrite IH.
Qed.

(* ===================================================================== *)
(** * Lemmas: shapes *)
(* ===================================================================== *)

Lemma shape_eqb_refl s : shape_eqb s s = true.
Proof.
  induction s as [|x s IH]; simpl; auto.
  now rewrite Nat.eqb_refl, IH.
Qed.

Lemma shape_eqb_eq s t : shape_eqb s t = true -> s = t.
Proof.
  revert t. induction s as [|x s IH]; intros [|y t]; simpl;
    try discriminate; auto.
  intros H. apply andb_prop in H as [H1 H2].
  apply Nat.eqb_eq in H1. apply IH in H2. congruence.
Qed.

(** The items of a regular array all have the remaining shape. *)
Lemma np_shape_children {A} (a : nested A) n s :
  np_shape a = Some (n :: s) ->
  exists l, a = Seq l /\ length l = n
            /\ Forall (fun x => np_shape x = Some s) l.
Proof.
  destruct a as [x|l]; simpl; [discriminate|].
  intros H. exists l. split; [reflexivity|].
  destruct l as [|x l]; simpl in H.
  - inversion H. auto.
  - destruct (np_shape x) as [s0|] eqn:Ex; [|discriminate].
    destruct (forallb (same_shape s0) (map np_shape l)) eqn:Ef; [|discriminate].
    inversion H; subst. split; [reflexivity|].
    constructor; [assumption|].
    rewrite forallb_forall in Ef. apply Forall_forall. intros y Hy.
    specialize (Ef (np_shape y) (in_map _ _ _ Hy)).
    unfold same_shape in Ef. destruct (np_shape y); [|discriminate].
    apply shape_eqb_eq in Ef. congruence.
Qed.

Lemma np_shape_has_shape {A} s : forall (a : nested A),
  np_shape a = Some s -> has_shape s a.
Proof.
  induction s as [|n s IH]; intros a H.
  - destruct a as [x|l]; simpl; auto.
    simpl in H. destruct (map np_shape l) as [|[t|] rest]; try discriminate.
    destruct (forallb (same_shape t) rest); discriminate.
  - apply np_shape_children in H as (l & -> & Hlen & Hall).
    simpl. split; [assumption|].
    eapply Forall_impl; [|exact Hall]. intros x Hx. now apply IH.
Qed.

Lemma has_shape_nmap {A B} (f : A -> B) s : forall (a : nested A),
  has_shape s a -> has_shape s (nmap f a).
Proof.
  induction s as [|n s IH]; intros [x|l]; simpl; auto.
  intros [Hlen Hall]. split.
  - now rewrite length_map.
  - apply Forall_map. eapply Forall_impl; [|exact Hall]. auto.
Qed.

Lemma np_shape_revisits {A} (a : nested A) n s :
  np_shape a = Some (n :: s) -> length (unseq a) = n.
Proof.
  intros H. apply np_shape_children in H as (l & -> & Hlen & _). exact Hlen.
Qed.

(* ===================================================================== *)
(** * Lemmas: the common part of [item_to_images] *)
(* ===================================================================== *)

Lemma coerce_fields_regular item meta :
  regular_fields item = true ->
  coerce_fields item meta = Ok (coerced item meta).
Proof.
  intros Hreg. unfold coerce_fields, coerced.
  erewrite traverse_map_ok; [reflexivity|].
  intros [k v] Hin. apply filter_In in Hin as [Hin _].
  unfold regular_fields in Hreg. rewrite forallb_forall in Hreg.
  specialize (Hreg _ Hin). unfold is_regular in Hreg. simpl in *.
  unfold np_asarray, uint8_array, astype_uint8.
  destruct (np_shape v); [reflexivity|discriminate].
Qed.

Lemma dict_get_coerced_rasters (l : dict (nested Z)) k :
  k <> "metadata" ->
  dict_get
    (map (fun kv : string * nested Z => (fst kv, VArray (uint8_array (snd kv))))
         (filter (fun kv => negb (String.eqb (fst kv) "metadata")) l)) k
  = match dict_get l k with
    | Some v => Some (VArray (uint8_array v))
    | None => None
    end.
Proof.
  intros Hne. induction l as [|[k' v] l IH]; simpl; auto.
  destruct (String.eqb k' "metadata") eqn:E; simpl.
  - apply String.eqb_eq in E. subst k'.
    destruct (String.eqb k "metadata") eqn:E'; auto.
    apply String.eqb_eq in E'. congruence.
  - destruct (String.eqb k k'); auto.
Qed.

Lemma item_array_coerced item meta k s :
  k <> "metadata" ->
  field_shape item k = Some s ->
  exists v, dict_get (rasters item) k = Some v
            /\ np_shape v = Some s
            /\ item_array (coerced item meta) k
               = Ok (mk_ndarray s (nmap uint8 v)).
Proof.
  intros Hne Hs. unfold field_shape in Hs.
  destruct (dict_get (rasters item) k) as [v|] eqn:Ev; [|discriminate].
  exists v. repeat split; auto.
  unfold item_array, dict_getitem, coerced.
  rewrite dict_get_set_other by congruence.
  rewrite dict_get_coerced_rasters by assumption.
  rewrite Ev. simpl. unfold uint8_array. now rewrite Hs.
Qed.

Lemma item_array_set_other (item : dict value) k k' x :
  k' <> k -> item_array (dict_set item k' x) k = item_array item k.
Proof.
  intros Hne. unfold item_array, dict_getitem.
  now rewrite dict_get_set_other.
Qed.

Lemma dict_get_coerced_metadata item meta :
  dict_get (coerced item meta) "metadata" = Some (VMeta meta).
Proof. unfold coerced. apply dict_get_set_same. Qed.

(** Lines 86-88 on a metadata block that denotes a mapping: the
    mapping is the caller's own object, or a new one at the end of the
    store. *)
Lemma load_metadata_dict loads item h d :
  metadata_dict loads item h = Some d ->
  exists h1 l,
    load_metadata loads (metadata item) h = (h1, Ok (PDict l))
    /\ heap_get h1 l = Some d
    /\ ((metadata item = Some (MetaDict l) /\ h1 = h)
        \/ (exists s, metadata item = Some (MetaStr s)
                      /\ h1 = (h ++ [d])%list /\ l = length h)).
Proof.
  unfold metadata_dict, load_metadata.
  destruct (metadata item) as [[s|l]|]; [| |discriminate].
  - destruct (loads s) as [[| | | | | |d']|] eqn:E; try discriminate.
    intros H. inversion H; subst d'. simpl.
    exists (h ++ [d])%list, (length h). repeat split.
    + apply heap_get_alloc_new.
    + right. exists s. auto.
  - intros H. rewrite H. exists h, l. auto.
Qed.

(** Line 174 followed by the return. *)
Lemma item_to_images_finish loads subset item h h1 l h2 d2 fields n :
  regular_fields item = true ->
  load_metadata loads (metadata item) h = (h1, Ok (PDict l)) ->
  convert_subset loads subset (coerced item (PDict l)) (PDict l) h1
    = (h2, Ok (fields, Some n)) ->
  heap_get h2 l = Some d2 ->
  item_to_images loads subset item h
  = (heap_put h2 l (dict_set d2 "count" (JInt (Z.of_nat n))), Ok fields).
Proof.
  intros Hreg Hload Hconv Hget.
  unfold item_to_images, mbind. rewrite Hload.
  unfold lift at 1. rewrite (coerce_fields_regular _ _ Hreg).
  rewrite Hconv. simpl. unfold meta_setitem. rewrite Hget. reflexivity.
Qed.

(** Every revisit of a [N,3,H,W] array decodes to an RGB image. *)
Lemma decode_hwc_rgb n h w d :
  decode_hwc (mk_ndarray [n; 3; h; w]%nat d)
  = Ok (map (fun x => mk_Image RGB (mk_ndarray [h; w; 3]%nat (hwc h w x)))
            (unseq d)).
Proof.
  unfold decode_hwc, np_iter. simpl.
  rewrite traverse_map. apply traverse_map_ok. intros x _. reflexivity.
Qed.

Ltac field_array H k :=
  let v := fresh "v" in
  let Hget := fresh "Hget" in
  let Hshape := fresh "Hshape" in
  let Harr := fresh "Harr" in
  match type of H with
  | field_shape ?item k = Some ?s =>
      match goal with
      | |- context [coerced item ?meta] =>
          destruct (@item_array_coerced item meta k s ltac:(discriminate) H)
            as (v & Hget & Hshape & Harr)
      end
  end.

Lemma revisits_have_shape (v : nested Z) n s :
  np_shape v = Some (n :: s) ->
  length (unseq (nmap uint8 v)) = n
  /\ Forall (has_shape s) (unseq (nmap uint8 v)).
Proof.
  intros H. apply np_shape_has_shape in H.
  apply (has_shape_nmap uint8) in H.
  destruct (nmap uint8 v) as [x|l]; simpl in *; [contradiction|exact H].
Qed.

Lemma has_shape_first {A} (x : nested A) c s :
  has_shape (S c :: s) x -> exists y ys, unseq x = y :: ys.
Proof.
  destruct x as [a|l]; simpl; [contradiction|].
  intros [Hlen _]. destruct l as [|y ys]; [discriminate|]. eauto.
Qed.

(* ===================================================================== *)
(** * Lemmas: the aerial subset *)
(* ===================================================================== *)

Lemma convert_satellogic_valid item meta n1 h1 w1 n2 c2 h2 w2 :
  field_shape item "rgb" = Some [S n1; 3; h1; w1]%nat ->
  field_shape item "1m" = Some [S n2; S c2; h2; w2]%nat ->
  exists rgb i1m,
    dict_get (rasters item) "rgb" = Some rgb
    /\ dict_get (rasters item) "1m" = Some i1m
    /\ convert_satellogic (coerced item meta)
       = Ok (satellogic_fields (coerced item meta) rgb i1m h1 w1 h2 w2,
             S n2).
Proof.
  intros Hrgb H1m.
  field_array Hrgb "rgb". field_array H1m "1m".
  exists v, v0. repeat split; auto.
  unfold convert_satellogic. rewrite Harr. simpl.
  rewrite decode_hwc_rgb. simpl.
  rewrite item_array_set_other by discriminate. rewrite Harr0. simpl.
  destruct (revisits_have_shape _ _ _ Hshape0) as [Hlen Hall].
  rewrite traverse_map.
  erewrite traverse_map_ok with
    (g := fun x => mk_Image L (mk_ndarray [h2; w2] (child 0 x))).
  - simpl. unfold satellogic_fields. rewrite length_map, Hlen. reflexivity.
  - intros x Hx. rewrite Forall_forall in Hall.
    destruct (has_shape_first _ _ _ (Hall x Hx)) as (y & ys & Hy).
    unfold index_0cc, child. simpl. rewrite Hy. reflexivity.
Qed.

(* ===================================================================== *)
(** * Lemmas: the radar subset *)
(* ===================================================================== *)

Lemma append_ratio_channel_valid n c h w (l : list (nested Z)) :
  append_ratio_channel (mk_ndarray [n; S (S c); h; w] (Seq l))
  = Ok (mk_ndarray [n; S (S c) + 1; h; w]%nat (Seq (map with_ratio_channel l))).
Proof.
  unfold append_ratio_channel, index_ckcc. simpl.
  unfold ratio_array, concatenate_1. simpl.
  rewrite !Nat.eqb_refl. simpl.
  rewrite nzip_items_map. rewrite !map_map. simpl.
  rewrite zip_with_map_r. reflexivity.
Qed.

Lemma convert_sentinel_1_valid item meta n1 h1 w1 :
  field_shape item "10m" = Some [S n1; 2; h1; w1]%nat ->
  exists i10m,
    dict_get (rasters item) "10m" = Some i10m
    /\ convert_sentinel_1 (coerced item meta)
       = Ok (sentinel_1_fields (coerced item meta) i10m h1 w1, S n1).
Proof.
  intros H10m. field_array H10m "10m".
  exists v. split; auto.
  unfold convert_sentinel_1. rewrite Harr. simpl.
  destruct (revisits_have_shape _ _ _ Hshape) as [Hlen _].
  destruct (nmap uint8 v) as [x|l] eqn:Ev; [discriminate|].
  rewrite append_ratio_channel_valid. simpl.
  rewrite decode_hwc_rgb. simpl. rewrite map_map.
  unfold sentinel_1_fields. rewrite Ev. simpl. rewrite !length_map.
  simpl in Hlen. rewrite Hlen. reflexivity.
Qed.

(* ===================================================================== *)
(** * Lemmas: the optical subset *)
(* ===================================================================== *)

Lemma convert_band_gray (item : dict value) k n h w d :
  item_array item k = Ok (mk_ndarray [n; 1; S (S h); S (S w)]%nat d) ->
  String.eqb k "20m" = false ->
  String.eqb k "10m" || String.eqb k "scl" = true ->
  convert_band item k
  = Ok (dict_set item k
          (VImages (map (band_image L [S (S h); S (S w); 1]%nat (fun y => y)
                           (S (S h)) (S (S w)))
                        (unseq (nmap uint8 d)))), n).
Proof.
  intros Harr H20 HL. unfold convert_band. rewrite Harr, H20, HL. simpl.
  rewrite !traverse_map.
  erewrite traverse_map_ok; [reflexivity|]. intros x _. reflexivity.
Qed.

Lemma convert_band_rgb (item : dict value) n h w d :
  item_array item "rgb" = Ok (mk_ndarray [n; 3; S (S h); S (S w)]%nat d) ->
  convert_band item "rgb"
  = Ok (dict_set item "rgb"
          (VImages (map (band_image RGB [S (S h); S (S w); 3]%nat (fun y => y)
                           (S (S h)) (S (S w)))
                        (unseq (nmap uint8 d)))), n).
Proof.
  intros Harr. unfold convert_band. rewrite Harr. simpl.
  rewrite !traverse_map.
  erewrite traverse_map_ok; [reflexivity|]. intros x _. reflexivity.
Qed.

Lemma convert_band_20m (item : dict value) n c h w d :
  item_array item "20m" = Ok (mk_ndarray [n; 5 + c; S (S h); S (S w)]%nat d) ->
  convert_band item "20m"
  = Ok (dict_set item "20m"
          (VImages (map (band_image RGB [S (S h); S (S w); 3]%nat select_024
                           (S (S h)) (S (S w)))
                        (unseq (nmap uint8 d)))), n).
Proof.
  intros Harr. unfold convert_band. rewrite Harr. simpl.
  rewrite !map_map. rewrite !traverse_map.
  erewrite traverse_map_ok; [reflexivity|]. intros x _. reflexivity.
Qed.

Lemma convert_bands_valid item meta n1 h1 w1 n2 c2 h2 w2 n3 h3 w3 n4 h4 w4 :
  field_shape item "10m" = Some [S n1; 1; S (S h1); S (S w1)]%nat ->
  field_shape item "20m" = Some [S n2; 5 + c2; S (S h2); S (S w2)]%nat ->
  field_shape item "rgb" = Some [S n3; 3; S (S h3); S (S w3)]%nat ->
  field_shape item "scl" = Some [S n4; 1; S (S h4); S (S w4)]%nat ->
  exists i10m i20m rgb scl,
    dict_get (rasters item) "10m" = Some i10m
    /\ dict_get (rasters item) "20m" = Some i20m
    /\ dict_get (rasters item) "rgb" = Some rgb
    /\ dict_get (rasters item) "scl" = Some scl
    /\ convert_bands (coerced item meta) None ["10m"; "20m"; "rgb"; "scl"]
       = Ok (sentinel_2_fields (coerced item meta) i10m i20m rgb scl
               (S (S h1)) (S (S w1)) (S (S h2)) (S (S w2))
               (S (S h3)) (S (S w3)) (S (S h4)) (S (S w4)),
             Some (S n4)).
Proof.
  intros H10 H20 Hrgb Hscl.
  field_array H10 "10m". field_array H20 "20m".
  field_array Hrgb "rgb". field_array Hscl "scl".
  exists v, v0, v1, v2. repeat (split; [assumption|]).
  unfold convert_bands.
  erewrite convert_band_gray by (first [exact Harr | reflexivity]).
  erewrite convert_band_20m
    by (rewrite item_array_set_other by discriminate; exact Harr0).
  erewrite convert_band_rgb
    by (rewrite !item_array_set_other by discriminate; exact Harr1).
  erewrite convert_band_gray
    by (first [ rewrite !item_array_set_other by discriminate; exact Harr2
              | reflexivity ]).
  reflexivity.
Qed.

Lemma reparse_field_texts loads l h d field texts :
  heap_get h l = Some d ->
  dict_get d field = Some (JList (map JStr texts)) ->
  Forall (fun t => loads t <> None) texts ->
  reparse_field loads (PDict l) field h
  = (heap_put h l (dict_set d field (JList (map (decoded loads) texts))),
     Ok tt).
Proof.
  intros Hget Hfield Hall.
  unfold reparse_field, mbind, meta_getitem, meta_setitem, lift, dict_getitem.
  rewrite Hget, Hfield. simpl.
  rewrite traverse_map.
  erewrite traverse_map_ok with (g := decoded loads).
  - simpl. rewrite Hget. reflexivity.
  - intros t Ht. rewrite Forall_forall in Hall. specialize (Hall t Ht).
    unfold loads_value, decoded. destruct (loads t); congruence.
Qed.

Lemma reparse_fields_valid loads l h d :
  heap_get h l = Some d ->
  json_texts loads d "solarAngles" ->
  json_texts loads d "tileGeometry" ->
  json_texts loads d "viewIncidenceAngles" ->
  exists t1 t2 t3,
    for_each (reparse_field loads (PDict l))
             ["solarAngles"; "tileGeometry"; "viewIncidenceAngles"] h
    = (heap_put h l (reparsed loads d t1 t2 t3), Ok tt).
Proof.
  intros Hget (t1 & Hf1 & Ha1) (t2 & Hf2 & Ha2) (t3 & Hf3 & Ha3).
  exists t1, t2, t3. unfold for_each, mbind.
  rewrite (reparse_field_texts loads l h d _ t1 Hget Hf1 Ha1).
  erewrite reparse_field_texts with (texts := t2);
    [ | eapply heap_get_put_same; exact Hget
      | rewrite dict_get_set_other by discriminate; exact Hf2
      | exact Ha2 ].
  erewrite reparse_field_texts with (texts := t3);
    [ | eapply heap_get_put_same; eapply heap_get_put_same; exact Hget
      | rewrite !dict_get_set_other by discriminate; exact Hf3
      | exact Ha3 ].
  rewrite !heap_put_put. reflexivity.
Qed.

(* ===================================================================== *)
(** * Lemmas: the hyperspectral subset *)
(* ===================================================================== *)

Lemma pseudo_rgb_valid b h w (x : nested Z) :
  pseudo_rgb (mk_ndarray [b; h; w] x)
  = Ok (mk_Image RGB (mk_ndarray [h; w; 3]%nat
                        (pseudo_rgb_pixels h w (unseq x)))).
Proof.
  unfold pseudo_rgb, np_slice, np_average_0, expand_dims_2, concatenate_2.
  cbn [shape data rbind unseq mean_axis0].
  rewrite !shape_eqb_refl.
  cbn [andb shape data unseq rbind]. unfold float_astype_uint8, fromarray.
  cbn [shape data Nat.add]. do 3 f_equal.
  rewrite !map_map. rewrite zip_with_map. rewrite zip_with_map.
  unfold pseudo_rgb_pixels. cbn [nmap]. rewrite map_map.
  f_equal. apply map_ext. intros y.
  cbn [unseq nmap]. rewrite !map_map. rewrite zip_with_map, zip_with_map.
  rewrite map_map. f_equal.
Qed.

Lemma convert_neon_rasters_valid item meta n1 h1 w1 n2 c2 h2 w2 n3 b3 h3 w3 :
  field_shape item "rgb" = Some [S n1; 3; h1; w1]%nat ->
  field_shape item "chm" = Some [S n2; S c2; h2; w2]%nat ->
  field_shape item "1m" = Some [S n3; b3; h3; w3]%nat ->
  exists rgb chm i1m,
    dict_get (rasters item) "rgb" = Some rgb
    /\ dict_get (rasters item) "chm" = Some chm
    /\ dict_get (rasters item) "1m" = Some i1m
    /\ convert_neon_rasters (coerced item meta)
       = Ok (neon_fields (coerced item meta) rgb chm i1m h1 w1 h2 w2 h3 w3,
             S n1).
Proof.
  intros Hrgb Hchm H1m.
  field_array Hrgb "rgb". field_array Hchm "chm". field_array H1m "1m".
  exists v, v0, v1. repeat (split; [assumption|]).
  unfold convert_neon_rasters. rewrite Harr. cbn [rbind].
  rewrite decode_hwc_rgb. cbn [rbind data].
  rewrite item_array_set_other by discriminate. rewrite Harr0. cbn [rbind].
  destruct (revisits_have_shape _ _ _ Hshape) as [Hlen _].
  destruct (revisits_have_shape _ _ _ Hshape0) as [_ Hall].
  unfold np_iter. cbn [shape data rbind]. rewrite traverse_map.
  erewrite traverse_map_ok with
    (g := fun x => mk_Image L (mk_ndarray [h2; w2] (child 0 x))).
  - cbn [rbind]. rewrite !item_array_set_other by discriminate.
    rewrite Harr1. cbn [rbind shape data]. rewrite traverse_map.
    erewrite traverse_map_ok; [|intros x _; apply pseudo_rgb_valid].
    cbn [rbind]. unfold neon_fields. rewrite length_map, Hlen. reflexivity.
  - intros x Hx. rewrite Forall_forall in Hall.
    destruct (has_shape_first _ _ _ (Hall x Hx)) as (y & ys & Hy).
    unfold index_first, child. simpl. rewrite Hy. reflexivity.
Qed.

(** ** The pair swap *)

Lemma traverse_ext_in {A B} (f g : A -> result B) (l : list A) :
  (forall x, In x l -> f x = g x) -> traverse f l = traverse g l.
Proof.
  induction l as [|x l IH]; simpl; intros H; auto.
  rewrite (H x) by auto. rewrite IH by auto. reflexivity.
Qed.

Lemma range_by_2_SS n :
  range_by_2 (S (S n)) = 0%nat :: map (fun i => S (S i)) (range_by_2 n).
Proof.
  unfold range_by_2.
  replace (S (S n) + 1)%nat with (S (S (n + 1))) by lia.
  cbn [Nat.div2]. cbn [seq map]. f_equal.
  rewrite <- seq_shift, !map_map. apply map_ext. intros k. lia.
Qed.

Lemma swap_items_even (bs : list json) :
  Nat.Even (length bs) ->
  exists pairs, swap_items bs = Ok pairs /\ concat pairs = swap_adjacent bs.
Proof.
  intros [k Hk]. revert bs Hk.
  induction k as [|k IH]; intros bs Hk.
  - destruct bs; [|simpl in Hk; lia]. exists []. auto.
  - destruct bs as [|a [|b rest]]; try (simpl in Hk; lia).
    destruct (IH rest) as (pairs & Hp & Hc); [simpl in Hk; lia|].
    exists ([b; a] :: pairs). split.
    + unfold swap_items. cbn [length]. rewrite range_by_2_SS.
      cbn [traverse seq]. cbn [py_index Nat.add Nat.sub nth_error].
      rewrite traverse_map.
      erewrite traverse_ext_in; [unfold swap_items in Hp; rewrite Hp|];
        [reflexivity|].
      intros i _. cbn [traverse seq py_index].
      replace (S (S i) + 1 - 0)%nat with (S (S (i + 1 - 0))) by lia.
      replace (S (S i) + 1 - 1)%nat with (S (S (i + 1 - 1))) by lia.
      reflexivity.
    + simpl. now rewrite Hc.
Qed.

Lemma swap_pairs_even (bs : list json) :
  Nat.Even (length bs) -> swap_pairs (JList bs) = Ok (swap_adjacent bs).
Proof.
  intros He. destruct (swap_items_even bs He) as (pairs & Hp & Hc).
  unfold swap_pairs. cbn [py_len rbind].
  unfold swap_items in Hp. rewrite Hp. cbn [rbind]. now rewrite Hc.
Qed.

Lemma fix_neon_metadata_valid l h d bs :
  heap_get h l = Some d ->
  dict_get d "bounds" = Some (JList bs) ->
  Nat.Even (length bs) ->
  fix_neon_metadata (PDict l) h = (heap_put h l (neon_metadata d bs), Ok tt).
Proof.
  intros Hget Hb He.
  unfold fix_neon_metadata, mbind, meta_getitem, meta_setitem, lift,
    dict_getitem.
  rewrite Hget, Hb. rewrite (swap_pairs_even bs He). rewrite Hget.
  erewrite heap_get_put_same by exact Hget.
  rewrite heap_put_put. reflexivity.
Qed.

(* ===================================================================== *)
(** * Lemmas: whole runs on valid records *)
(* ===================================================================== *)

Lemma loaded_of_metadata_dict loads item h d :
  metadata_dict loads item h = Some d ->
  exists h1 l, loaded loads item h d h1 l.
Proof.
  intros H. destruct (load_metadata_dict loads item h d H) as (h1 & l & Hl).
  exists h1, l. exact Hl.
Qed.

Lemma run_satellogic loads item h d n1 h1 w1 n2 c2 h2 w2 :
  regular_fields item = true ->
  metadata_dict loads item h = Some d ->
  field_shape item "rgb" = Some [S n1; 3; h1; w1]%nat ->
  field_shape item "1m" = Some [S n2; S c2; h2; w2]%nat ->
  exists hp l rgb i1m,
    loaded loads item h d hp l
    /\ dict_get (rasters item) "rgb" = Some rgb
    /\ dict_get (rasters item) "1m" = Some i1m
    /\ item_to_images loads "satellogic" item h
       = (heap_put hp l (dict_set d "count" (count_value (S n2))),
          Ok (satellogic_fields (coerced item (PDict l)) rgb i1m h1 w1 h2 w2)).
Proof.
  intros Hreg Hmeta Hrgb H1m.
  destruct (loaded_of_metadata_dict _ _ _ _ Hmeta) as (hp & l & Hl).
  destruct (convert_satellogic_valid item (PDict l) _ _ _ _ _ _ _ Hrgb H1m)
    as (rgb & i1m & Hg1 & Hg2 & Hconv).
  exists hp, l, rgb, i1m. repeat (split; [assumption|]).
  destruct Hl as (Hload & Hget & _).
  eapply item_to_images_finish; eauto.
  unfold convert_subset. cbn [String.eqb Ascii.eqb Bool.eqb].
  unfold lift. rewrite Hconv. reflexivity.
Qed.

Lemma run_sentinel_1 loads item h d n1 h1 w1 :
  regular_fields item = true ->
  metadata_dict loads item h = Some d ->
  field_shape item "10m" = Some [S n1; 2; h1; w1]%nat ->
  exists hp l i10m,
    loaded loads item h d hp l
    /\ dict_get (rasters item) "10m" = Some i10m
    /\ item_to_images loads "sentinel_1" item h
       = (heap_put hp l (dict_set d "count" (count_value (S n1))),
          Ok (sentinel_1_fields (coerced item (PDict l)) i10m h1 w1)).
Proof.
  intros Hreg Hmeta H10m.
  destruct (loaded_of_metadata_dict _ _ _ _ Hmeta) as (hp & l & Hl).
  destruct (convert_sentinel_1_valid item (PDict l) _ _ _ H10m)
    as (i10m & Hg & Hconv).
  exists hp, l, i10m. repeat (split; [assumption|]).
  destruct Hl as (Hload & Hget & _).
  eapply item_to_images_finish; eauto.
  unfold convert_subset. cbn [String.eqb Ascii.eqb Bool.eqb].
  unfold lift. rewrite Hconv. reflexivity.
Qed.

Lemma run_sentinel_2 loads item h d n1 h1 w1 n2 c2 h2 w2 n3 h3 w3 n4 h4 w4 :
  regular_fields item = true ->
  metadata_dict loads item h = Some d ->
  field_shape item "10m" = Some [S n1; 1; S (S h1); S (S w1)]%nat ->
  field_shape item "20m" = Some [S n2; 5 + c2; S (S h2); S (S w2)]%nat ->
  field_shape item "rgb" = Some [S n3; 3; S (S h3); S (S w3)]%nat ->
  field_shape item "scl" = Some [S n4; 1; S (S h4); S (S w4)]%nat ->
  json_texts loads d "solarAngles" ->
  json_texts loads d "tileGeometry" ->
  json_texts loads d "viewIncidenceAngles" ->
  exists hp l i10m i20m rgb scl t1 t2 t3,
    loaded loads item h d hp l
    /\ dict_get (rasters item) "10m" = Some i10m
    /\ dict_get (rasters item) "20m" = Some i20m
    /\ dict_get (rasters item) "rgb" = Some rgb
    /\ dict_get (rasters item) "scl" = Some scl
    /\ item_to_images loads "sentinel_2" item h
       = (heap_put hp l
            (dict_set (reparsed loads d t1 t2 t3) "count" (count_value (S n4))),
          Ok (sentinel_2_fields (coerced item (PDict l)) i10m i20m rgb scl
                (S (S h1)) (S (S w1)) (S (S h2)) (S (S w2))
                (S (S h3)) (S (S w3)) (S (S h4)) (S (S w4)))).
Proof.
  intros Hreg Hmeta H10 H20 Hrgb Hscl Ht1 Ht2 Ht3.
  destruct (loaded_of_metadata_dict _ _ _ _ Hmeta) as (hp & l & Hl).
  destruct (convert_bands_valid item (PDict l) _ _ _ _ _ _ _ _ _ _ _ _ _
              H10 H20 Hrgb Hscl)
    as (i10m & i20m & rgb & scl & Hg1 & Hg2 & Hg3 & Hg4 & Hconv).
  pose proof Hl as (Hload & Hget & _).
  destruct (reparse_fields_valid loads l hp d Hget Ht1 Ht2 Ht3)
    as (t1 & t2 & t3 & Hre).
  exists hp, l, i10m, i20m, rgb, scl, t1, t2, t3.
  repeat (split; [assumption|]).
  rewrite <- (heap_put_put hp l (reparsed loads d t1 t2 t3)).
  eapply item_to_images_finish; eauto.
  - unfold convert_subset. cbn [String.eqb Ascii.eqb Bool.eqb].
    unfold convert_sentinel_2, mbind, lift, ret. rewrite Hconv, Hre.
    reflexivity.
  - eapply heap_get_put_same; exact Hget.
Qed.

Lemma run_neon loads item h d n1 h1 w1 n2 c2 h2 w2 n3 b3 h3 w3 bs :
  regular_fields item = true ->
  metadata_dict loads item h = Some d ->
  field_shape item "rgb" = Some [S n1; 3; h1; w1]%nat ->
  field_shape item "chm" = Some [S n2; S c2; h2; w2]%nat ->
  field_shape item "1m" = Some [S n3; b3; h3; w3]%nat ->
  dict_get d "bounds" = Some (JList bs) ->
  Nat.Even (length bs) ->
  exists hp l rgb chm i1m,
    loaded loads item h d hp l
    /\ dict_get (rasters item) "rgb" = Some rgb
    /\ dict_get (rasters item) "chm" = Some chm
    /\ dict_get (rasters item) "1m" = Some i1m
    /\ item_to_images loads "neon" item h
       = (heap_put hp l
            (dict_set (neon_metadata d bs) "count" (count_value (S n1))),
          Ok (neon_fields (coerced item (PDict l)) rgb chm i1m
                h1 w1 h2 w2 h3 w3)).
Proof.
  intros Hreg Hmeta Hrgb Hchm H1m Hb He.
  destruct (loaded_of_metadata_dict _ _ _ _ Hmeta) as (hp & l & Hl).
  destruct (convert_neon_rasters_valid item (PDict l) _ _ _ _ _ _ _ _ _ _ _
              Hrgb Hchm H1m)
    as (rgb & chm & i1m & Hg1 & Hg2 & Hg3 & Hconv).
  pose proof Hl as (Hload & Hget & _).
  exists hp, l, rgb, chm, i1m. repeat (split; [assumption|]).
  rewrite <- (heap_put_put hp l (neon_metadata d bs)).
  eapply item_to_images_finish; eauto.
  - unfold convert_subset. cbn [String.eqb Ascii.eqb Bool.eqb].
    unfold convert_neon, mbind, lift, ret. rewrite Hconv.
    rewrite (fix_neon_metadata_valid l hp d bs Hget Hb He). reflexivity.
  - eapply heap_get_put_same; exact Hget.
Qed.

Lemma field_shape_revisits item k v n s :
  field_shape item k = Some (n :: s) ->
  dict_get (rasters item) k = Some v ->
  length (unseq v) = n.
Proof.
  unfold field_shape. intros Hs Hg. rewrite Hg in Hs.
  eapply np_shape_revisits; exact Hs.
Qed.

(** What every run on a valid record has in common: the call returns,
    the returned record holds the mapping object of lines 86-88, and
    that object ends with [count] set to the length of the subset's
    primary field. *)
Lemma run_valid loads subset item h :
  valid_record loads subset item h ->
  exists d hp l d2 out field v,
    loaded loads item h d hp l
    /\ item_to_images loads subset item h
       = (heap_put hp l (dict_set d2 "count" (count_value (length (unseq v)))),
          Ok out)
    /\ dict_get out "metadata" = Some (VMeta (PDict l))
    /\ primary_field subset = Some field
    /\ dict_get (rasters item) field = Some v.
Proof.
  intros Hv.
  destruct Hv as
    [ item h d n1 h1 w1 n2 c2 h2 w2 Hreg Hmeta Hrgb H1m
    | item h d n1 h1 w1 Hreg Hmeta H10
    | item h d n1 h1 w1 n2 c2 h2 w2 n3 h3 w3 n4 h4 w4
        Hreg Hmeta H10 H20 Hrgb Hscl Ht1 Ht2 Ht3
    | item h d n1 h1 w1 n2 c2 h2 w2 n3 b3 h3 w3
        Hreg Hmeta Hrgb Hchm H1m Hbounds ].
  - destruct (run_satellogic loads item h d _ _ _ _ _ _ _ Hreg Hmeta Hrgb H1m)
      as (hp & l & rgb & i1m & Hl & Hg1 & Hg2 & Hrun).
    exists d, hp, l, d. eexists. exists "1m", i1m.
    split; [exact Hl|]. split.
    { rewrite (field_shape_revisits _ _ _ _ _ H1m Hg2). exact Hrun. }
    split; [|split; [reflexivity|assumption]].
    unfold satellogic_fields.
    rewrite !dict_get_set_other by discriminate.
    apply dict_get_coerced_metadata.
  - destruct (run_sentinel_1 loads item h d _ _ _ Hreg Hmeta H10)
      as (hp & l & i10m & Hl & Hg & Hrun).
    exists d, hp, l, d. eexists. exists "10m", i10m.
    split; [exact Hl|]. split.
    { rewrite (field_shape_revisits _ _ _ _ _ H10 Hg). exact Hrun. }
    split; [|split; [reflexivity|assumption]].
    unfold sentinel_1_fields.
    rewrite !dict_get_set_other by discriminate.
    apply dict_get_coerced_metadata.
  - destruct (run_sentinel_2 loads item h d _ _ _ _ _ _ _ _ _ _ _ _ _
                Hreg Hmeta H10 H20 Hrgb Hscl Ht1 Ht2 Ht3)
      as (hp & l & i10m & i20m & rgb & scl & t1 & t2 & t3
          & Hl & Hg1 & Hg2 & Hg3 & Hg4 & Hrun).
    exists d, hp, l, (reparsed loads d t1 t2 t3). eexists.
    exists "scl", scl.
    split; [exact Hl|]. split.
    { rewrite (field_shape_revisits _ _ _ _ _ Hscl Hg4). exact Hrun. }
    split; [|split; [reflexivity|assumption]].
    unfold sentinel_2_fields.
    rewrite !dict_get_set_other by discriminate.
    apply dict_get_coerced_metadata.
  - destruct Hbounds as (bs & Hb & He).
    destruct (run_neon loads item h d _ _ _ _ _ _ _ _ _ _ _ bs
                Hreg Hmeta Hrgb Hchm H1m Hb He)
      as (hp & l & rgb & chm & i1m & Hl & Hg1 & Hg2 & Hg3 & Hrun).
    exists d, hp, l, (neon_metadata d bs). eexists.
    exists "rgb", rgb.
    split; [exact Hl|]. split.
    { rewrite (field_shape_revisits _ _ _ _ _ Hrgb Hg1). exact Hrun. }
    split; [|split; [reflexivity|assumption]].
    unfold neon_fields.
    rewrite !dict_get_set_other by discriminate.
    apply dict_get_coerced_metadata.
Qed.

Lemma metadata_count_after_put (out : dict value) hp l d0 d2 n :
  heap_get hp l = Some d0 ->
  dict_get out "metadata" = Some (VMeta (PDict l)) ->
  metadata_count out (heap_put hp l (dict_set d2 "count" (count_value n)))
  = Some (count_value n).
Proof.
  intros Hget Hout. unfold metadata_count, returned_metadata.
  rewrite Hout. erewrite heap_get_put_same by exact Hget.
  apply dict_get_set_same.
Qed.

(* ===================================================================== *)
(** * The sample records are valid *)
(* ===================================================================== *)

Lemma sample_satellogic_valid :
  valid_record sample_loads "satellogic" sample_satellogic [].
Proof. eapply valid_satellogic; reflexivity. Qed.

Lemma sample_sentinel_1_valid :
  valid_record sample_loads "sentinel_1" sample_sentinel_1 [].
Proof. eapply valid_sentinel_1; reflexivity. Qed.

Lemma sample_sentinel_2_valid :
  valid_record sample_loads "sentinel_2" sample_sentinel_2
               sample_sentinel_2_heap.
Proof.
  eapply valid_sentinel_2 with (c2 := 0%nat); try reflexivity.
  - exists ["{}"]. split; [reflexivity|].
    repeat constructor. discriminate.
  - exists ["[]"]. split; [reflexivity|].
    repeat constructor. discriminate.
  - exists []. split; [reflexivity|constructor].
Qed.

Lemma sample_neon_valid :
  valid_record sample_loads "neon" sample_neon sample_neon_heap.
Proof.
  eapply valid_neon; try reflexivity.
  exists [JInt 1; JInt 2; JInt 3; JInt 4]. split; [reflexivity|].
  exists 2%nat. reflexivity.
Qed.

(* ===================================================================== *)
(** * The revisit count *)
(* ===================================================================== *)

(** C1: for every valid record of any of the four subsets,
    [item_to_images] returns a record whose [metadata.count] is the
    number of revisits of the subset's primary raster field. *)
Theorem count_is_primary_revisits loads subset item h :
  valid_record loads subset item h ->
  exists h' out field n,
    item_to_images loads subset item h = (h', Ok out)
    /\ primary_field subset = Some field
    /\ revisits item field = Some n
    /\ metadata_count out h' = Some (JInt (Z.of_nat n)).
Proof.
  intros Hv.
  destruct (run_valid loads subset item h Hv)
    as (d & hp & l & d2 & out & field & v & Hl & Hrun & Hout & Hf & Hg).
  destruct Hl as (_ & Hget & _).
  exists (heap_put hp l (dict_set d2 "count" (count_value (length (unseq v))))),
    out, field, (length (unseq v)).
  split; [exact Hrun|]. split; [exact Hf|]. split.
  - unfold revisits. now rewrite Hg.
  - eapply metadata_count_after_put; eauto.
Qed.

Lemma count_is_primary_revisits_witness :
  valid_record sample_loads "satellogic" sample_satellogic []
  /\ exists h' out field n,
       item_to_images sample_loads "satellogic" sample_satellogic []
       = (h', Ok out)
       /\ primary_field "satellogic" = Some field
       /\ revisits sample_satellogic field = Some n
       /\ metadata_count out h' = Some (JInt (Z.of_nat n)).
Proof.
  split.
  - exact sample_satellogic_valid.
  - exact (count_is_primary_revisits sample_loads "satellogic"
             sample_satellogic [] sample_satellogic_valid).
Defined.

(** C10: the field whose revisit count becomes [metadata.count] is
    "1m" for satellogic, "10m" for sentinel_1, "scl" (the last band of
    the loop) for sentinel_2 and "rgb" for neon, whatever the revisit
    counts of the record's other fields are. *)
Theorem count_field_per_subset loads subset item h :
  valid_record loads subset item h ->
  exists h' out n,
    item_to_images loads subset item h = (h', Ok out)
    /\ metadata_count out h' = Some (JInt (Z.of_nat n))
    /\ ((subset = "satellogic" /\ revisits item "1m" = Some n)
        \/ (subset = "sentinel_1" /\ revisits item "10m" = Some n)
        \/ (subset = "sentinel_2" /\ revisits item "scl" = Some n)
        \/ (subset = "neon" /\ revisits item "rgb" = Some n)).
Proof.
  intros Hv.
  destruct (run_valid loads subset item h Hv)
    as (d & hp & l & d2 & out & field & v & Hl & Hrun & Hout & Hf & Hg).
  destruct Hl as (_ & Hget & _).
  exists (heap_put hp l (dict_set d2 "count" (count_value (length (unseq v))))),
    out, (length (unseq v)).
  split; [exact Hrun|]. split.
  - eapply metadata_count_after_put; eauto.
  - destruct Hv; simpl in Hf; inversion Hf; subst field;
      unfold revisits; rewrite Hg; auto 6.
Qed.

Lemma count_field_per_subset_witness :
  valid_record sample_loads "sentinel_2" sample_sentinel_2
               sample_sentinel_2_heap
  /\ revisits sample_sentinel_2 "10m" = Some 1%nat
  /\ revisits sample_sentinel_2 "scl" = Some 2%nat
  /\ exists h' out n,
       item_to_images sample_loads "sentinel_2" sample_sentinel_2
                      sample_sentinel_2_heap = (h', Ok out)
       /\ metadata_count out h' = Some (JInt (Z.of_nat n))
       /\ (("sentinel_2" = "satellogic"
            /\ revisits sample_sentinel_2 "1m" = Some n)
           \/ ("sentinel_2" = "sentinel_1"
               /\ revisits sample_sentinel_2 "10m" = Some n)
           \/ ("sentinel_2" = "sentinel_2"
               /\ revisits sample_sentinel_2 "scl" = Some n)
           \/ ("sentinel_2" = "neon"
               /\ revisits sample_sentinel_2 "rgb" = Some n)).
Proof.
  split; [exact sample_sentinel_2_valid|].
  split; [reflexivity|]. split; [reflexivity|].
  exact (count_field_per_subset sample_loads "sentinel_2" sample_sentinel_2
           sample_sentinel_2_heap sample_sentinel_2_valid).
Defined.

(* ===================================================================== *)
(** * Shard paths *)
(* ===================================================================== *)

(** The four subsets of the table, with their path segment and number
    of shards. *)
Lemma table_entries :
  get_subsets = ["satellogic"; "sentinel_1"; "neon"; "sentinel_2"]
  /\ (get_path "satellogic" = Ok "satellogic"
      /\ get_nshards "satellogic" = Ok 7863)
  /\ (get_path "sentinel_1" = Ok "sentinel_1"
      /\ get_nshards "sentinel_1" = Ok 1763)
  /\ (get_path "neon" = Ok "data" /\ get_nshards "neon" = Ok 607)
  /\ (get_path "sentinel_2" = Ok "sentinel_2"
      /\ get_nshards "sentinel_2" = Ok 19997).
Proof. repeat split; reflexivity. Qed.

Lemma get_path_descriptor subset p :
  get_path subset = Ok p ->
  exists d, sets_getitem subset = Ok d
            /\ p = match path d with Some q => q | None => subset end.
Proof.
  unfold get_path. destruct (sets_getitem subset) as [d|e]; simpl;
    [|discriminate].
  intros H. inversion H. eauto.
Qed.

(** C9: for every subset of the table and every list of shard indices,
    [load_dataset] asks for the files
    [{path}/{split}-{shard:05d}-of-{nshards:05d}.parquet], except for
    sentinel_2, where they are
    [{path}/{subset}-{shard//10}/{split}-{shard%10:05d}-of-00010.parquet]. *)
Theorem load_dataset_shard_paths subset dataset split shard_list streaming p n :
  get_path subset = Ok p ->
  get_nshards subset = Ok n ->
  exists req,
    load_dataset subset dataset split (Some shard_list) streaming = Ok req
    /\ req_data_files req
       = Some [(split,
                map (fun shard =>
                       if String.eqb subset "sentinel_2"
                       then two_level_shard_path p subset split shard
                       else flat_shard_path p split shard n)
                    shard_list)].
Proof.
  intros Hp Hn.
  destruct (get_path_descriptor subset p Hp) as (d & Hd & Hpd).
  unfold load_dataset. rewrite Hp, Hn. unfold get_config. rewrite Hd.
  cbn [rbind]. eexists. split; [reflexivity|].
  cbn [req_data_files]. do 3 f_equal.
  destruct (String.eqb subset "sentinel_2") eqn:E.
  - apply String.eqb_eq in E. subst subset.
    apply map_ext. intros shard. reflexivity.
  - reflexivity.
Qed.

Lemma load_dataset_shard_paths_witness :
  (get_path "sentinel_2" = Ok "sentinel_2"
   /\ get_nshards "sentinel_2" = Ok 19997
   /\ exists req,
        load_dataset "sentinel_2" DATASET "train" (Some [0; 17; 19996]) true
        = Ok req
        /\ req_data_files req
           = Some [("train",
                    ["sentinel_2/sentinel_2-0/train-00000-of-00010.parquet";
                     "sentinel_2/sentinel_2-1/train-00007-of-00010.parquet";
                     "sentinel_2/sentinel_2-1999/train-00006-of-00010.parquet"])])
  /\ (get_path "neon" = Ok "data"
      /\ get_nshards "neon" = Ok 607
      /\ exists req,
           load_dataset "neon" DATASET "train" (Some [0; 17]) true = Ok req
           /\ req_data_files req
              = Some [("train",
                       ["data/train-00000-of-00607.parquet";
                        "data/train-00017-of-00607.parquet"])]).
Proof.
  split.
  - split; [reflexivity|]. split; [reflexivity|].
    exact (load_dataset_shard_paths "sentinel_2" DATASET "train"
             [0; 17; 19996] true "sentinel_2" 19997 eq_refl eq_refl).
  - split; [reflexivity|]. split; [reflexivity|].
    exact (load_dataset_shard_paths "neon" DATASET "train"
             [0; 17] true "data" 607 eq_refl eq_refl).
Defined.

(* ===================================================================== *)
(** * The pair swap of the hyperspectral bounds *)
(* ===================================================================== *)

Lemma swap_adjacent_length {A} (l : list A) :
  length (swap_adjacent l) = length l.
Proof.
  enough (H : forall n (l : list A),
             (length l <= n)%nat -> length (swap_adjacent l) = length l)
    by (apply (H (length l)); lia).
  clear l. induction n as [|n IH]; intros l Hl.
  - destruct l; simpl in *; auto; lia.
  - destruct l as [|a [|b rest]]; auto.
    cbn [swap_adjacent length]. rewrite IH; auto. simpl in Hl. lia.
Qed.

Lemma swap_adjacent_nth {A} (l : list A) k :
  (2 * k + 1 < length l)%nat ->
  nth_error (swap_adjacent l) (2 * k) = nth_error l (2 * k + 1)
  /\ nth_error (swap_adjacent l) (2 * k + 1) = nth_error l (2 * k).
Proof.
  revert l. induction k as [|k IH]; intros l Hk.
  - destruct l as [|a [|b rest]]; simpl in Hk; try lia. auto.
  - destruct l as [|a [|b rest]]; simpl in Hk; try lia.
    replace (2 * S k)%nat with (S (S (2 * k))) by lia.
    cbn [swap_adjacent Nat.add nth_error].
    apply IH. lia.
Qed.

(** C7: for the neon subset and every even-length "bounds" list,
    [item_to_images] leaves in the metadata mapping the list with each
    consecutive pair swapped: items [2k] and [2k+1] change places, so
    [a,b,c,d] becomes [b,a,d,c]. *)
Theorem neon_bounds_pairs_swapped loads item h d bs :
  valid_record loads "neon" item h ->
  metadata_dict loads item h = Some d ->
  dict_get d "bounds" = Some (JList bs) ->
  Nat.Even (length bs) ->
  exists h' out l d',
    item_to_images loads "neon" item h = (h', Ok out)
    /\ returned_metadata out h' = Some (l, d')
    /\ dict_get d' "bounds" = Some (JList (swap_adjacent bs))
    /\ length (swap_adjacent bs) = length bs
    /\ (forall k, (2 * k + 1 < length bs)%nat ->
          nth_error (swap_adjacent bs) (2 * k) = nth_error bs (2 * k + 1)
          /\ nth_error (swap_adjacent bs) (2 * k + 1) = nth_error bs (2 * k))
    /\ (forall a b c e : json,
          bs = [a; b; c; e] -> swap_adjacent bs = [b; a; e; c]).
Proof.
  intros Hv Hmeta Hb He.
  inversion Hv as
    [ | | | item0 h0 d0 n1 h1 w1 n2 c2 h2 w2 n3 b3 h3 w3
            Hreg Hmeta0 Hrgb Hchm H1m _ ]; subst.
  destruct (run_neon loads item h d _ _ _ _ _ _ _ _ _ _ _ bs
              Hreg Hmeta Hrgb Hchm H1m Hb He)
    as (hp & l & rgb & chm & i1m & Hl & _ & _ & _ & Hrun).
  destruct Hl as (_ & Hget & _).
  eexists. eexists. exists l. eexists.
  split; [exact Hrun|]. split.
  - unfold returned_metadata, neon_fields.
    rewrite !dict_get_set_other by discriminate.
    rewrite dict_get_coerced_metadata.
    erewrite heap_get_put_same by exact Hget. reflexivity.
  - split.
    + unfold neon_metadata. rewrite !dict_get_set_other by discriminate.
      apply dict_get_set_same.
    + split; [apply swap_adjacent_length|].
      split; [intros k Hk; now apply swap_adjacent_nth|].
      intros a b c e ->. reflexivity.
Qed.

Lemma neon_bounds_pairs_swapped_witness :
  valid_record sample_loads "neon" sample_neon sample_neon_heap
  /\ exists h' out l d',
       item_to_images sample_loads "neon" sample_neon sample_neon_heap
       = (h', Ok out)
       /\ returned_metadata out h' = Some (l, d')
       /\ dict_get d' "bounds"
          = Some (JList (swap_adjacent [JInt 1; JInt 2; JInt 3; JInt 4]))
       /\ length (swap_adjacent [JInt 1; JInt 2; JInt 3; JInt 4]) = 4%nat
       /\ (forall k, (2 * k + 1 < 4)%nat ->
             nth_error (swap_adjacent [JInt 1; JInt 2; JInt 3; JInt 4]) (2 * k)
             = nth_error [JInt 1; JInt 2; JInt 3; JInt 4] (2 * k + 1)
             /\ nth_error (swap_adjacent [JInt 1; JInt 2; JInt 3; JInt 4])
                          (2 * k + 1)
                = nth_error [JInt 1; JInt 2; JInt 3; JInt 4] (2 * k))
       /\ (forall a b c e : json,
             [JInt 1; JInt 2; JInt 3; JInt 4] = [a; b; c; e] ->
             swap_adjacent [JInt 1; JInt 2; JInt 3; JInt 4] = [b; a; e; c]).
Proof.
  split; [exact sample_neon_valid|].
  apply (neon_bounds_pairs_swapped sample_loads sample_neon sample_neon_heap
           [("bounds", JList [JInt 1; JInt 2; JInt 3; JInt 4]);
            ("epsg", JStr "EPSG:32611")]
           [JInt 1; JInt 2; JInt 3; JInt 4]).
  - exact sample_neon_valid.
  - reflexivity.
  - reflexivity.
  - exists 2%nat. reflexivity.
Defined.

(* ===================================================================== *)
(** * Unknown subsets *)
(* ===================================================================== *)

(** The table accessors report an unknown subset as a [KeyError] that
    carries its name. *)
Lemma get_nshards_unknown subset :
  known_subset subset = false ->
  get_nshards subset = Raise (KeyError (JStr subset))
  /\ get_path subset = Raise (KeyError (JStr subset))
  /\ get_config subset = Raise (KeyError (JStr subset)).
Proof.
  unfold known_subset. intros H.
  repeat (apply orb_false_elim in H as [H ?]).
  unfold get_nshards, get_path, get_config, sets_getitem, dict_getitem, sets.
  cbn [dict_get].
  repeat match goal with E : String.eqb _ _ = false |- _ =>
           rewrite E; clear E end.
  auto.
Qed.

(** [item_to_images] does not consult the table: on an unknown subset
    with sound metadata and regular fields it falls through the
    [if]/[elif] chain and stops at the unassigned [count]. *)
Lemma item_to_images_unknown loads subset item h d :
  known_subset subset = false ->
  regular_fields item = true ->
  metadata_dict loads item h = Some d ->
  exists h1, item_to_images loads subset item h
             = (h1, Raise (UnboundLocalError "count")).
Proof.
  unfold known_subset. intros H Hreg Hmeta.
  repeat (apply orb_false_elim in H as [H ?]).
  destruct (load_metadata_dict loads item h d Hmeta)
    as (h1 & l & Hload & _ & _).
  exists h1. unfold item_to_images, mbind. rewrite Hload.
  unfold lift at 1. rewrite (coerce_fields_regular _ _ Hreg).
  unfold convert_subset.
  repeat match goal with E : String.eqb _ _ = false |- _ =>
           rewrite E; clear E end.
  reflexivity.
Qed.

(** C4 (the code departs from the claim): with the subset name of the
    docstring, "sentinel-1", which is not a key of the table,
    [get_nshards] raises the [KeyError] naming the subset, but
    [item_to_images] raises [UnboundLocalError] for [count]. *)
Theorem unknown_subset_item_to_images :
  known_subset "sentinel-1" = false
  /\ get_nshards "sentinel-1" = Raise (KeyError (JStr "sentinel-1"))
  /\ item_to_images sample_loads "sentinel-1" sample_sentinel_1 []
     = ([[]], Raise (UnboundLocalError "count")).
Proof. repeat split; reflexivity. Qed.

(* ===================================================================== *)
(** * The synthetic radar channel *)
(* ===================================================================== *)

Lemma has_shape_two {A} (x : nested A) s :
  has_shape (2%nat :: s) x -> unseq x = [child 0 x; child 1 x].
Proof.
  destruct x as [a|l]; simpl; [contradiction|].
  intros [Hlen _]. destruct l as [|a [|b [|c l]]]; try discriminate.
  reflexivity.
Qed.

(** C2 (amended): for the sentinel_1 subset, every revisit of "10m" is
    decoded from its two channels followed by a third one, computed
    element by element as [c0 / (c1 + 0.01) * 256] in float64 and
    converted to uint8 by truncation to the low 8 bits; for [c0 = 100],
    [c1 = 0] the product is 2560000 and the stored value is
    [2560000 mod 256 = 0]: the conversion wraps, it does not saturate. *)
Theorem radar_ratio_channel loads item h i10m :
  valid_record loads "sentinel_1" item h ->
  dict_get (rasters item) "10m" = Some i10m ->
  exists h' out hh ww,
    item_to_images loads "sentinel_1" item h = (h', Ok out)
    /\ dict_get out "10m"
       = Some (VImages
                 (map (fun x =>
                         mk_Image RGB
                           (mk_ndarray [hh; ww; 3]%nat
                              (hwc hh ww
                                 (Seq [child 0 x; child 1 x;
                                       nmap float_to_uint8
                                         (nzip ratio (child 0 x) (child 1 x))]))))
                      (unseq (nmap uint8 i10m))))
    /\ (forall f, float_to_uint8 f = trunc_float f mod 256)
    /\ trunc_float (ratio 100 0) = 2560000
    /\ float_to_uint8 (ratio 100 0) = 0.
Proof.
  intros Hv Hg.
  inversion Hv as [ | item0 h0 d n1 h1 w1 Hreg Hmeta H10 | | ]; subst.
  destruct (run_sentinel_1 loads item h d _ _ _ Hreg Hmeta H10)
    as (hp & l & v & _ & Hg' & Hrun).
  rewrite Hg in Hg'. inversion Hg'; subst v.
  eexists. eexists. exists (S h1), (S w1).
  split; [exact Hrun|]. split.
  - unfold sentinel_1_fields. rewrite dict_get_set_same. do 2 f_equal.
    apply map_ext_in. intros x Hx.
    unfold field_shape in H10. rewrite Hg in H10.
    destruct (revisits_have_shape _ _ _ H10) as [_ Hall].
    rewrite Forall_forall in Hall.
    unfold with_ratio_channel, ratio_channel.
    rewrite (has_shape_two x _ (Hall x Hx)). reflexivity.
  - split; [reflexivity|]. split; reflexivity.
Qed.

Lemma radar_ratio_channel_witness :
  valid_record sample_loads "sentinel_1" sample_sentinel_1 []
  /\ exists h' out hh ww,
       item_to_images sample_loads "sentinel_1" sample_sentinel_1 []
       = (h', Ok out)
       /\ dict_get out "10m"
          = Some (VImages
                    (map (fun x =>
                            mk_Image RGB
                              (mk_ndarray [hh; ww; 3]%nat
                                 (hwc hh ww
                                    (Seq [child 0 x; child 1 x;
                                          nmap float_to_uint8
                                            (nzip ratio (child 0 x)
                                                  (child 1 x))]))))
                         (unseq (nmap uint8
                                   (Seq [Seq [plane [[100]]; plane [[0]]]])))))
       /\ (forall f, float_to_uint8 f = trunc_float f mod 256)
       /\ trunc_float (ratio 100 0) = 2560000
       /\ float_to_uint8 (ratio 100 0) = 0.
Proof.
  split; [exact sample_sentinel_1_valid|].
  exact (radar_ratio_channel sample_loads sample_sentinel_1 []
           (Seq [Seq [plane [[100]]; plane [[0]]]])
           sample_sentinel_1_valid eq_refl).
Defined.

(** C2 as stated fails: on the record with channel 0 = [100] and
    channel 1 = [0] the third channel of the decoded image is 0, not
    [min(255, 2560000) = 255]. *)
Lemma radar_third_channel_not_saturated :
  item_to_images sample_loads "sentinel_1" sample_sentinel_1 []
  = ([[("count", JInt 1)]],
     Ok [("10m",
          VImages [mk_Image RGB
                     (mk_ndarray [1; 1; 3]%nat
                        (Seq [Seq [Seq [Scalar 100; Scalar 0; Scalar 0]]]))]);
         ("metadata", VMeta (PDict 0%nat))])
  /\ trunc_float (ratio 100 0) = 2560000
  /\ 0 <> Z.min 255 2560000.
Proof.
  split; [vm_compute; reflexivity|].
  split; [vm_compute; reflexivity|].
  vm_compute. discriminate.
Qed.

(* ===================================================================== *)
(** * Lemmas: the [H,W,C] layout *)
(* ===================================================================== *)

Lemma nmap_uint8_idem : forall a : nested Z,
  nmap uint8 (nmap uint8 a) = nmap uint8 a.
Proof.
  fix IH 1. intros [x|l]; simpl.
  - f_equal. unfold uint8. apply Z.mod_mod. lia.
  - f_equal. induction l as [|a l IHl]; simpl; [reflexivity|].
    f_equal; [apply IH|apply IHl].
Qed.

Lemma child_map {A B} (f : B -> nested A) (l : list B) k d :
  (k < length l)%nat -> child k (Seq (map f l)) = f (nth k l d).
Proof.
  intros Hk. unfold child. cbn [unseq].
  rewrite (nth_indep _ _ (f d)) by (now rewrite length_map).
  apply map_nth.
Qed.

Lemma child_seq_map {A} (f : nat -> nested A) n k :
  (k < n)%nat -> child k (Seq (map f (seq 0 n))) = f k.
Proof.
  intros Hk. rewrite (child_map f (seq 0 n) k 0%nat) by (now rewrite length_seq).
  now rewrite seq_nth.
Qed.

Lemma column_full {A} (rows : list (nested A)) j :
  Forall (fun r => (j < length (unseq r))%nat) rows ->
  column j rows = map (child j) rows.
Proof.
  unfold column. induction 1 as [|r rows Hr _ IH]; simpl; [reflexivity|].
  rewrite IH. unfold child at 1.
  rewrite (nth_error_nth' _ (Seq []) Hr). reflexivity.
Qed.

Lemma has_shape_rows {A} (x : nested A) n s :
  has_shape (n :: s) x ->
  length (unseq x) = n /\ Forall (has_shape s) (unseq x).
Proof. destruct x as [a|l]; simpl; [contradiction|auto]. Qed.

(** The values the channel planes hold at row [y], column [x]. *)
Lemma column_column {A} (chans : list (nested A)) h w y x :
  Forall (has_shape [h; w]) chans ->
  (y < h)%nat -> (x < w)%nat ->
  column x (column y chans) = map (fun ch => child x (child y ch)) chans.
Proof.
  intros Hall Hy Hx.
  rewrite (column_full chans y).
  - rewrite column_full; [now rewrite map_map|].
    apply Forall_map. eapply Forall_impl; [|exact Hall].
    intros ch Hch. apply has_shape_rows in Hch as [Hlen Hrows].
    unfold child.
    assert (Hin : In (nth y (unseq ch) (Seq [])) (unseq ch))
      by (apply nth_In; lia).
    rewrite Forall_forall in Hrows. specialize (Hrows _ Hin).
    apply has_shape_rows in Hrows as [Hlen' _]. lia.
  - eapply Forall_impl; [|exact Hall].
    intros ch Hch. apply has_shape_rows in Hch as [Hlen _]. lia.
Qed.

Lemma hwc_expand {A} h w (x : nested A) :
  hwc h w x
  = Seq (map (fun j =>
           Seq (map (fun i => Seq (column i (column j (unseq x)))) (seq 0 w)))
         (seq 0 h)).
Proof.
  unfold hwc, swap01. cbn [unseq]. rewrite map_map. reflexivity.
Qed.

(** Pixel [(y, x)] of the [H,W,C] contents lists the values of the
    channels at [(y, x)], in channel order. *)
Lemma hwc_pixel {A} (chans : list (nested A)) h w y x :
  Forall (has_shape [h; w]) chans ->
  (y < h)%nat -> (x < w)%nat ->
  child x (child y (hwc h w (Seq chans)))
  = Seq (map (fun ch => child x (child y ch)) chans).
Proof.
  intros Hall Hy Hx. rewrite hwc_expand. cbn [unseq].
  rewrite child_seq_map by assumption.
  rewrite child_seq_map by assumption.
  now rewrite (column_column chans h w y x Hall Hy Hx).
Qed.

(** Squeezing [H,W,3] contents with [H, W >= 2] changes nothing. *)
Lemma squeeze_hwc_3 {A} h w (x : nested A) :
  squeeze (mk_ndarray [S (S h); S (S w); 3]%nat (hwc (S (S h)) (S (S w)) x))
  = mk_ndarray [S (S h); S (S w); 3]%nat (hwc (S (S h)) (S (S w)) x).
Proof.
  unfold squeeze. cbn [shape data squeeze_shape]. f_equal.
  rewrite hwc_expand. cbn [squeeze_data unseq]. rewrite map_map. f_equal.
  apply map_ext. intros j. cbn [unseq]. rewrite map_map. f_equal.
  apply map_ext. intros i. cbn [unseq]. now rewrite map_id.
Qed.

(** Selecting channels 0, 2, 4 of [H,W,C] contents is the [H,W,3]
    layout of channels 0, 2, 4. *)
Lemma select_024_hwc (chans : list (nested Z)) h w :
  Forall (has_shape [h; w]) chans ->
  (4 < length chans)%nat ->
  select_024 (hwc h w (Seq chans))
  = hwc h w (Seq [child 0 (Seq chans); child 2 (Seq chans);
                  child 4 (Seq chans)]).
Proof.
  intros Hall Hlen.
  assert (Hsel : Forall (has_shape [h; w])
                   [child 0 (Seq chans); child 2 (Seq chans);
                    child 4 (Seq chans)]).
  { rewrite Forall_forall in Hall.
    repeat constructor; apply Hall; unfold child; cbn [unseq];
      apply nth_In; lia. }
  rewrite !hwc_expand. unfold select_024. cbn [unseq].
  rewrite map_map. f_equal. apply map_ext_in. intros j Hj.
  apply in_seq in Hj. cbn [unseq]. rewrite map_map. f_equal.
  apply map_ext_in. intros i Hi. apply in_seq in Hi.
  rewrite (column_column chans h w j i Hall) by lia.
  rewrite (column_column _ h w j i Hsel) by lia.
  unfold take_last. cbn [map]. 
  rewrite !(child_map (fun ch => child i (child j ch)) chans _ (Seq []))
    by lia.
  reflexivity.
Qed.

(* ===================================================================== *)
(** * The optical 20m band *)
(* ===================================================================== *)

(** C6: for the sentinel_2 subset, every revisit of the "20m" band is
    decoded from channels 0, 2, 4 of the revisit, in that order: the
    image is the [H,W,3] layout of those three channels, so pixel
    [(y, x)] holds the values of channels 0, 2 and 4 at [(y, x)]. *)
Theorem optical_20m_channels loads item h i20m :
  valid_record loads "sentinel_2" item h ->
  dict_get (rasters item) "20m" = Some i20m ->
  exists h' out hh ww,
    item_to_images loads "sentinel_2" item h = (h', Ok out)
    /\ dict_get out "20m"
       = Some (VImages
                 (map (fun x =>
                         mk_Image RGB
                           (mk_ndarray [hh; ww; 3]%nat
                              (hwc hh ww
                                 (Seq [child 0 x; child 2 x; child 4 x]))))
                      (unseq (nmap uint8 i20m))))
    /\ (forall x y xx,
          In x (unseq (nmap uint8 i20m)) ->
          (y < hh)%nat -> (xx < ww)%nat ->
          child xx (child y (hwc hh ww (Seq [child 0 x; child 2 x; child 4 x])))
          = Seq [child xx (child y (child 0 x));
                 child xx (child y (child 2 x));
                 child xx (child y (child 4 x))]).
Proof.
  intros Hv Hg.
  inversion Hv as
    [ | | item0 h0 d n1 h1 w1 n2 c2 h2 w2 n3 h3 w3 n4 h4 w4
          Hreg Hmeta H10 H20 Hrgb Hscl Ht1 Ht2 Ht3 | ]; subst.
  destruct (run_sentinel_2 loads item h d _ _ _ _ _ _ _ _ _ _ _ _ _
              Hreg Hmeta H10 H20 Hrgb Hscl Ht1 Ht2 Ht3)
    as (hp & l & i10m & v & rgb & scl & t1 & t2 & t3
        & _ & _ & Hg' & _ & _ & Hrun).
  rewrite Hg in Hg'. inversion Hg'; subst v.
  unfold field_shape in H20. rewrite Hg in H20.
  destruct (revisits_have_shape _ _ _ H20) as [_ Hall].
  rewrite Forall_forall in Hall.
  assert (Hchans : forall x, In x (unseq (nmap uint8 i20m)) ->
            exists chans, x = Seq chans /\ (4 < length chans)%nat
                          /\ Forall (has_shape [S (S h2); S (S w2)]) chans).
  { intros x Hx. specialize (Hall x Hx).
    destruct x as [a|chans]; simpl in Hall; [contradiction|].
    destruct Hall as [Hlen Hc]. exists chans. repeat split; auto. lia. }
  eexists. eexists. exists (S (S h2)), (S (S w2)).
  split; [exact Hrun|]. split.
  - unfold sentinel_2_fields.
    rewrite !dict_get_set_other by discriminate.
    rewrite dict_get_set_same. rewrite nmap_uint8_idem. do 2 f_equal.
    apply map_ext_in. intros x Hx.
    destruct (Hchans x Hx) as (chans & -> & Hlen & Hc).
    unfold band_image. rewrite (select_024_hwc chans _ _ Hc Hlen).
    now rewrite squeeze_hwc_3.
  - intros x y xx Hx Hy Hxx.
    destruct (Hchans x Hx) as (chans & -> & Hlen & Hc).
    rewrite hwc_pixel; [reflexivity| |assumption|assumption].
    rewrite Forall_forall in Hc.
    repeat constructor; apply Hc; unfold child; cbn [unseq];
      apply nth_In; lia.
Qed.

Lemma optical_20m_channels_witness :
  valid_record sample_loads "sentinel_2" sample_sentinel_2
               sample_sentinel_2_heap
  /\ exists h' out hh ww,
       item_to_images sample_loads "sentinel_2" sample_sentinel_2
                      sample_sentinel_2_heap = (h', Ok out)
       /\ dict_get out "20m"
          = Some (VImages
                    (map (fun x =>
                            mk_Image RGB
                              (mk_ndarray [hh; ww; 3]%nat
                                 (hwc hh ww
                                    (Seq [child 0 x; child 2 x; child 4 x]))))
                         (unseq (nmap uint8 (sample_field 1 5)))))
       /\ (forall x y xx,
             In x (unseq (nmap uint8 (sample_field 1 5))) ->
             (y < hh)%nat -> (xx < ww)%nat ->
             child xx (child y (hwc hh ww
                                  (Seq [child 0 x; child 2 x; child 4 x])))
             = Seq [child xx (child y (child 0 x));
                    child xx (child y (child 2 x));
                    child xx (child y (child 4 x))]).
Proof.
  split; [exact sample_sentinel_2_valid|].
  exact (optical_20m_channels sample_loads sample_sentinel_2
           sample_sentinel_2_heap (sample_field 1 5)
           sample_sentinel_2_valid eq_refl).
Defined.

(** The sample's "20m" image, computed: pixel [(y, x)] holds the
    values of channels 0, 2, 4 (1.., 21.., 41..). *)
Example optical_20m_sample :
  exists h' out,
    item_to_images sample_loads "sentinel_2" sample_sentinel_2
                   sample_sentinel_2_heap = (h', Ok out)
    /\ dict_get out "20m"
       = Some (VImages
                 [mk_Image RGB
                    (mk_ndarray [2; 2; 3]%nat
                       (Seq [Seq [Seq [Scalar 1; Scalar 21; Scalar 41];
                                  Seq [Scalar 2; Scalar 22; Scalar 42]];
                             Seq [Seq [Scalar 3; Scalar 23; Scalar 43];
                                  Seq [Scalar 4; Scalar 24; Scalar 44]]]))]).
Proof. eexists. eexists. split; vm_compute; reflexivity. Qed.

(* ===================================================================== *)
(** * The hyperspectral pseudo-RGB image *)
(* ===================================================================== *)

Lemma Forall_firstn {A} (P : A -> Prop) n (l : list A) :
  Forall P l -> Forall P (firstn n l).
Proof.
  intros H. revert n. induction H as [|x l Hx _ IH]; intros [|n];
    cbn [firstn]; auto.
Qed.

Lemma Forall_skipn {A} (P : A -> Prop) n (l : list A) :
  Forall P l -> Forall P (skipn n l).
Proof.
  intros H. revert n. induction H as [|x l Hx Hl IH]; intros [|n];
    cbn [skipn]; auto.
Qed.

Lemma samples_values_at (g : list (nested Z)) h w y x :
  Forall (has_shape [h; w]) g ->
  (y < h)%nat -> (x < w)%nat ->
  samples g y x = values_at g y x.
Proof.
  intros Hg Hy Hx. unfold samples, values_at.
  now rewrite (column_column g h w y x Hg Hy Hx).
Qed.

Lemma three_groups {A} (bands : list A) :
  (247 <= length bands)%nat ->
  length (firstn 124 bands) = 124%nat
  /\ length (firstn 123 (skipn 124 bands)) = 123%nat
  /\ length (skipn 247 bands) = (length bands - 247)%nat
  /\ bands = (firstn 124 bands ++ firstn 123 (skipn 124 bands)
              ++ skipn 247 bands)%list.
Proof.
  intros Hlen. split; [|split; [|split]].
  - rewrite length_firstn. lia.
  - rewrite length_firstn, length_skipn. lia.
  - apply length_skipn.
  - replace (skipn 247 bands) with (skipn 123 (skipn 124 bands))
      by (rewrite skipn_skipn; reflexivity).
    rewrite firstn_skipn, firstn_skipn. reflexivity.
Qed.

(** ** The mean of byte samples

    [mean] is float64 arithmetic; on byte samples its uint8 conversion
    is the integer part of the exact mean.  This is checked on every
    pair of bytes and on every constant group of 124, 123 or 122
    samples. *)

Lemma in_byte_values z : 0 <= z < 256 -> In z byte_values.
Proof.
  intros Hz. unfold byte_values. apply in_map_iff.
  exists (Z.to_nat z). split; [lia|]. apply in_seq. lia.
Qed.

Lemma mean_pairs_check :
  forallb (fun a =>
     forallb (fun b => float_to_uint8 (mean [a; b]) =? (a + b) / 2)
             byte_values)
    byte_values = true.
Proof. vm_compute. reflexivity. Qed.

Lemma mean_of_pair a b :
  0 <= a < 256 -> 0 <= b < 256 ->
  float_to_uint8 (mean [a; b]) = (a + b) / 2.
Proof.
  intros Ha Hb. pose proof mean_pairs_check as H.
  rewrite forallb_forall in H. specialize (H a (in_byte_values a Ha)).
  rewrite forallb_forall in H. specialize (H b (in_byte_values b Hb)).
  now apply Z.eqb_eq in H.
Qed.

Lemma mean_constant_check :
  forallb (fun z =>
     forallb (fun k => float_to_uint8 (mean (repeat z k)) =? z)
             group_sizes)
    byte_values = true.
Proof. vm_compute. reflexivity. Qed.

Lemma mean_of_constant z k :
  0 <= z < 256 -> In k group_sizes ->
  float_to_uint8 (mean (repeat z k)) = z.
Proof.
  intros Hz Hk. pose proof mean_constant_check as H.
  rewrite forallb_forall in H. specialize (H z (in_byte_values z Hz)).
  rewrite forallb_forall in H.
  specialize (H k Hk). now apply Z.eqb_eq in H.
Qed.

(** C8: for the neon subset, every revisit of "1m" is decoded from an
    [H,W,3] array whose pixel [(y, x)] holds the means, converted to
    uint8, of three contiguous groups of bands at [(y, x)]: bands
    [0..123], bands [124..246] and bands [247..]; the boundaries are
    the literals 124 and 247, so with at least 247 bands the groups
    have 124, 123 and the remaining number of bands.  The value a
    channel holds is the integer part of the arithmetic mean of the
    group's bytes: this is stated for every pair of bytes, for every
    constant group of 124, 123 or 122 bands, and for the groups
    0..123, 124..246 and 10, 20, 60, whose means are 61.5, 185 and
    30. *)
Theorem hyperspectral_pseudo_rgb loads item h i1m n b hh ww :
  valid_record loads "neon" item h ->
  dict_get (rasters item) "1m" = Some i1m ->
  np_shape i1m = Some [n; b; hh; ww] ->
  (247 <= b)%nat ->
  exists h' out,
    item_to_images loads "neon" item h = (h', Ok out)
    /\ dict_get out "1m"
       = Some (VImages
                 (map (fun x =>
                         mk_Image RGB
                           (mk_ndarray [hh; ww; 3]%nat
                              (pseudo_rgb_pixels hh ww (unseq x))))
                      (unseq (nmap uint8 i1m))))
    /\ (forall x, In x (unseq (nmap uint8 i1m)) ->
          length (unseq x) = b
          /\ length (firstn 124 (unseq x)) = 124%nat
          /\ length (firstn 123 (skipn 124 (unseq x))) = 123%nat
          /\ length (skipn 247 (unseq x)) = (b - 247)%nat
          /\ unseq x = (firstn 124 (unseq x)
                        ++ firstn 123 (skipn 124 (unseq x))
                        ++ skipn 247 (unseq x))%list
          /\ (forall y xx, (y < hh)%nat -> (xx < ww)%nat ->
                child xx (child y (pseudo_rgb_pixels hh ww (unseq x)))
                = Seq [Scalar (float_to_uint8
                         (mean (values_at (firstn 124 (unseq x)) y xx)));
                       Scalar (float_to_uint8
                         (mean (values_at (firstn 123 (skipn 124 (unseq x)))
                                          y xx)));
                       Scalar (float_to_uint8
                         (mean (values_at (skipn 247 (unseq x)) y xx)))]))
    /\ (forall a c, 0 <= a < 256 -> 0 <= c < 256 ->
          float_to_uint8 (mean [a; c]) = (a + c) / 2)
    /\ (forall z k, 0 <= z < 256 -> In k [124; 123; 122]%nat ->
          float_to_uint8 (mean (repeat z k)) = z)
    /\ float_to_uint8 (mean (map Z.of_nat (seq 0 124))) = 61
    /\ float_to_uint8 (mean (map Z.of_nat (seq 124 123))) = 185
    /\ float_to_uint8 (mean [10; 20; 60]) = 30.
Proof.
  intros Hv Hg Hshape Hb.
  inversion Hv as
    [ | | | item0 h0 d n1 h1 w1 n2 c2 h2 w2 n3 b3 h3 w3
            Hreg Hmeta Hrgb Hchm H1m Hbounds ]; subst.
  destruct Hbounds as (bs & Hbs & He).
  destruct (run_neon loads item h d _ _ _ _ _ _ _ _ _ _ _ bs
              Hreg Hmeta Hrgb Hchm H1m Hbs He)
    as (hp & l & rgb & chm & v & _ & _ & _ & Hg' & Hrun).
  rewrite Hg in Hg'. inversion Hg'; subst v.
  unfold field_shape in H1m. rewrite Hg, Hshape in H1m.
  inversion H1m; subst.
  destruct (revisits_have_shape _ _ _ Hshape) as [_ Hall].
  rewrite Forall_forall in Hall.
  eexists. eexists. split; [exact Hrun|]. split; [|split].
  - unfold neon_fields. now rewrite dict_get_set_same.
  - intros x Hx.
    destruct (has_shape_rows x _ _ (Hall x Hx)) as [Hlen Hbands].
    rewrite <- Hlen in Hb.
    destruct (three_groups (unseq x) Hb) as (H1 & H2 & H3 & H4).
    rewrite Hlen in H3.
    repeat (split; [assumption|]).
    intros y xx Hy Hxx. unfold pseudo_rgb_pixels.
    rewrite child_seq_map by assumption.
    cbn [unseq]. rewrite child_seq_map by assumption.
    unfold mean_pixel.
    rewrite !(samples_values_at _ (S h3) (S w3) y xx)
      by auto using Forall_firstn, Forall_skipn.
    reflexivity.
  - split; [exact mean_of_pair|]. split; [exact mean_of_constant|].
    split; [vm_compute; reflexivity|].
    split; vm_compute; reflexivity.
Qed.

Lemma sample_neon_248_valid :
  valid_record sample_loads "neon" sample_neon_248 sample_neon_heap.
Proof.
  eapply valid_neon; try reflexivity.
  exists [JInt 1; JInt 2; JInt 3; JInt 4]. split; [reflexivity|].
  exists 2%nat. reflexivity.
Qed.

Lemma hyperspectral_pseudo_rgb_witness :
  valid_record sample_loads "neon" sample_neon_248 sample_neon_heap
  /\ (247 <= 248)%nat
  /\ exists h' out,
       item_to_images sample_loads "neon" sample_neon_248 sample_neon_heap
       = (h', Ok out)
       /\ dict_get out "1m"
          = Some (VImages
                    (map (fun x =>
                            mk_Image RGB
                              (mk_ndarray [1; 1; 3]%nat
                                 (pseudo_rgb_pixels 1 1 (unseq x))))
                         (unseq (nmap uint8 (Seq [sample_248_bands])))))
       /\ dict_get out "1m"
          = Some (VImages
                    [mk_Image RGB
                       (mk_ndarray [1; 1; 3]%nat
                          (Seq [Seq [Seq [Scalar 61; Scalar 185;
                                          Scalar 247]]]))])
       /\ (forall x, In x (unseq (nmap uint8 (Seq [sample_248_bands]))) ->
             length (unseq x) = 248%nat
             /\ length (firstn 124 (unseq x)) = 124%nat
             /\ length (firstn 123 (skipn 124 (unseq x))) = 123%nat
             /\ length (skipn 247 (unseq x)) = (248 - 247)%nat
             /\ unseq x = (firstn 124 (unseq x)
                           ++ firstn 123 (skipn 124 (unseq x))
                           ++ skipn 247 (unseq x))%list
             /\ (forall y xx, (y < 1)%nat -> (xx < 1)%nat ->
                   child xx (child y (pseudo_rgb_pixels 1 1 (unseq x)))
                   = Seq [Scalar (float_to_uint8
                            (mean (values_at (firstn 124 (unseq x)) y xx)));
                          Scalar (float_to_uint8
                            (mean (values_at
                                     (firstn 123 (skipn 124 (unseq x))) y xx)));
                          Scalar (float_to_uint8
                            (mean (values_at (skipn 247 (unseq x)) y xx)))]))
       /\ float_to_uint8 (mean (values_at (firstn 124 (unseq sample_248_bands))
                                          0 0)) = 61
       /\ float_to_uint8
            (mean (values_at (firstn 123 (skipn 124 (unseq sample_248_bands)))
                             0 0)) = 185
       /\ float_to_uint8 (mean (values_at (skipn 247 (unseq sample_248_bands))
                                          0 0)) = 247.
Proof.
  split; [exact sample_neon_248_valid|].
  split; [lia|].
  assert (Hshape : np_shape (Seq [sample_248_bands])
                   = Some [1; 248; 1; 1]%nat) by (vm_compute; reflexivity).
  assert (Hb : (247 <= 248)%nat) by lia.
  destruct (hyperspectral_pseudo_rgb sample_loads sample_neon_248
              sample_neon_heap (Seq [sample_248_bands]) 1 248 1 1
              sample_neon_248_valid eq_refl Hshape Hb)
    as (h' & out & Hrun & Hout & Hgroups & _).
  exists h', out.
  split; [exact Hrun|]. split; [exact Hout|].
  split; [rewrite Hout; vm_compute; reflexivity|].
  split; [exact Hgroups|].
  split; [vm_compute; reflexivity|].
  split; vm_compute; reflexivity.
Defined.

(** The sample's pseudo-RGB pixel, computed: the means of bands
    0..123, 124..246 and 247 are 61.5, 185 and 247. *)
Example hyperspectral_sample_pixel :
  exists h' out,
    item_to_images sample_loads "neon" sample_neon_248 sample_neon_heap
    = (h', Ok out)
    /\ dict_get out "1m"
       = Some (VImages
                 [mk_Image RGB
                    (mk_ndarray [1; 1; 3]%nat
                       (Seq [Seq [Seq [Scalar 61; Scalar 185; Scalar 247]]]))]).
Proof. eexists. eexists. split; vm_compute; reflexivity. Qed.

(* ===================================================================== *)
(** * Normalizing twice *)
(* ===================================================================== *)

Lemma swap_adjacent_involutive {A} (l : list A) :
  swap_adjacent (swap_adjacent l) = l.
Proof.
  enough (H : forall n (l : list A),
             (length l <= n)%nat -> swap_adjacent (swap_adjacent l) = l)
    by (apply (H (length l)); lia).
  clear l. induction n as [|n IH]; intros l Hl.
  - destruct l; simpl in *; auto; lia.
  - destruct l as [|a [|b rest]]; auto.
    cbn [swap_adjacent]. rewrite IH; auto. simpl in Hl. lia.
Qed.

(** The caller's mapping is used as it is (line 87 only parses text). *)
Lemma loaded_caller_dict loads item h d hp l l0 :
  loaded loads item h d hp l ->
  metadata item = Some (MetaDict l0) ->
  hp = h /\ l = l0.
Proof.
  intros (_ & _ & [[Hm ->]|(s & Hm & _)]) Hmeta; rewrite Hmeta in Hm.
  - inversion Hm. auto.
  - discriminate.
Qed.

Lemma metadata_dict_caller loads item h l :
  metadata item = Some (MetaDict l) ->
  metadata_dict loads item h = heap_get h l.
Proof. intros H. unfold metadata_dict. now rewrite H. Qed.

(** C3 as stated fails: the metadata left by a first call on the neon
    sample is changed by a second call (the pairs of "bounds" are
    swapped back), and on the sentinel_2 sample the second call raises
    [TypeError] when it decodes the already decoded fields. *)
Lemma renormalizing_is_not_identity :
  fst (item_to_images sample_loads "neon" sample_neon sample_neon_heap)
  = normalized_neon_heap
  /\ fst (item_to_images sample_loads "neon" sample_neon normalized_neon_heap)
     = [[("bounds", JList [JInt 1; JInt 2; JInt 3; JInt 4]);
         ("epsg", JStr "EPSG:4326");
         ("count", JInt 1)]]
  /\ fst (item_to_images sample_loads "neon" sample_neon normalized_neon_heap)
     <> normalized_neon_heap
  /\ fst (item_to_images sample_loads "sentinel_2" sample_sentinel_2
            sample_sentinel_2_heap)
     = normalized_sentinel_2_heap
  /\ snd (item_to_images sample_loads "sentinel_2" sample_sentinel_2
            normalized_sentinel_2_heap)
     = Raise TypeError.
Proof.
  split; [vm_compute; reflexivity|].
  split; [vm_compute; reflexivity|].
  split; [vm_compute; discriminate|].
  split; vm_compute; reflexivity.
Qed.

(** C3 (amended): for satellogic and sentinel_1, a second call on a
    record whose metadata mapping was normalized by a first call
    succeeds, returns the same record and leaves the mapping exactly as
    it is (a mapping is not parsed again, and [count] is assigned the
    value it has).  For neon the second call succeeds and returns the
    same record too, but it swaps the pairs of "bounds" once more, so
    "bounds" is back in its original order while the rest of the
    mapping stays.  (Nothing is said about sentinel_2.) *)
Theorem renormalize_metadata loads subset item h l :
  valid_record loads subset item h ->
  metadata item = Some (MetaDict l) ->
  subset <> "sentinel_2" ->
  exists h1 h2 out d0 d1,
    heap_get h l = Some d0
    /\ item_to_images loads subset item h = (h1, Ok out)
    /\ heap_get h1 l = Some d1
    /\ item_to_images loads subset item h1 = (h2, Ok out)
    /\ ((subset <> "neon" /\ h2 = h1)
        \/ (subset = "neon"
            /\ exists bs,
                 dict_get d0 "bounds" = Some (JList bs)
                 /\ dict_get d1 "bounds" = Some (JList (swap_adjacent bs))
                 /\ h2 = heap_put h1 l (dict_set d1 "bounds" (JList bs)))).
Proof.
  intros Hv Hmeta Hne.
  destruct Hv as
    [ item h d n1 h1 w1 n2 c2 h2 w2 Hreg Hd Hrgb H1m
    | item h d n1 h1 w1 Hreg Hd H10
    | item h d n1 h1 w1 n2 c2 h2 w2 n3 h3 w3 n4 h4 w4
        Hreg Hd H10 H20 Hrgb Hscl Ht1 Ht2 Ht3
    | item h d n1 h1 w1 n2 c2 h2 w2 n3 b3 h3 w3
        Hreg Hd Hrgb Hchm H1m Hbounds ].
  - (* satellogic *)
    pose proof Hd as Hd0. rewrite (metadata_dict_caller _ _ _ _ Hmeta) in Hd0.
    destruct (run_satellogic loads item h d _ _ _ _ _ _ _ Hreg Hd Hrgb H1m)
      as (hp & l' & rgb & i1m & Hl & Hg1 & Hg2 & Hrun).
    destruct (loaded_caller_dict _ _ _ _ _ _ _ Hl Hmeta) as [-> ->].
    set (d1 := dict_set d "count" (count_value (S n2))) in *.
    assert (Hd1 : metadata_dict loads item (heap_put h l d1) = Some d1).
    { rewrite (metadata_dict_caller _ _ _ _ Hmeta).
      eapply heap_get_put_same; exact Hd0. }
    destruct (run_satellogic loads item _ d1 _ _ _ _ _ _ _ Hreg Hd1 Hrgb H1m)
      as (hp & l' & rgb' & i1m' & Hl' & Hg1' & Hg2' & Hrun').
    destruct (loaded_caller_dict _ _ _ _ _ _ _ Hl' Hmeta) as [-> ->].
    rewrite Hg1 in Hg1'. rewrite Hg2 in Hg2'.
    inversion Hg1'; inversion Hg2'; subst rgb' i1m'.
    exists (heap_put h l d1), (heap_put h l d1). eexists. exists d, d1.
    split; [exact Hd0|]. split; [exact Hrun|].
    split; [eapply heap_get_put_same; exact Hd0|].
    split.
    + rewrite Hrun'. f_equal. rewrite heap_put_put. f_equal.
      unfold d1. apply dict_set_set.
    + left. split; [discriminate|reflexivity].
  - (* sentinel_1 *)
    pose proof Hd as Hd0. rewrite (metadata_dict_caller _ _ _ _ Hmeta) in Hd0.
    destruct (run_sentinel_1 loads item h d _ _ _ Hreg Hd H10)
      as (hp & l' & i10m & Hl & Hg & Hrun).
    destruct (loaded_caller_dict _ _ _ _ _ _ _ Hl Hmeta) as [-> ->].
    set (d1 := dict_set d "count" (count_value (S n1))) in *.
    assert (Hd1 : metadata_dict loads item (heap_put h l d1) = Some d1).
    { rewrite (metadata_dict_caller _ _ _ _ Hmeta).
      eapply heap_get_put_same; exact Hd0. }
    destruct (run_sentinel_1 loads item _ d1 _ _ _ Hreg Hd1 H10)
      as (hp & l' & i10m' & Hl' & Hg' & Hrun').
    destruct (loaded_caller_dict _ _ _ _ _ _ _ Hl' Hmeta) as [-> ->].
    rewrite Hg in Hg'. inversion Hg'; subst i10m'.
    exists (heap_put h l d1), (heap_put h l d1). eexists. exists d, d1.
    split; [exact Hd0|]. split; [exact Hrun|].
    split; [eapply heap_get_put_same; exact Hd0|].
    split.
    + rewrite Hrun'. f_equal. rewrite heap_put_put. f_equal.
      unfold d1. apply dict_set_set.
    + left. split; [discriminate|reflexivity].
  - (* sentinel_2 *)
    contradiction Hne. reflexivity.
  - (* neon *)
    destruct Hbounds as (bs & Hb & He).
    pose proof Hd as Hd0. rewrite (metadata_dict_caller _ _ _ _ Hmeta) in Hd0.
    destruct (run_neon loads item h d _ _ _ _ _ _ _ _ _ _ _ bs
                Hreg Hd Hrgb Hchm H1m Hb He)
      as (hp & l' & rgb & chm & i1m & Hl & Hg1 & Hg2 & Hg3 & Hrun).
    destruct (loaded_caller_dict _ _ _ _ _ _ _ Hl Hmeta) as [-> ->].
    set (d1 := dict_set (neon_metadata d bs) "count" (count_value (S n1))) in *.
    assert (Hb1 : dict_get d1 "bounds" = Some (JList (swap_adjacent bs))).
    { unfold d1, neon_metadata.
      rewrite !dict_get_set_other by discriminate. apply dict_get_set_same. }
    assert (Hd1 : metadata_dict loads item (heap_put h l d1) = Some d1).
    { rewrite (metadata_dict_caller _ _ _ _ Hmeta).
      eapply heap_get_put_same; exact Hd0. }
    assert (He1 : Nat.Even (length (swap_adjacent bs)))
      by (now rewrite swap_adjacent_length).
    destruct (run_neon loads item _ d1 _ _ _ _ _ _ _ _ _ _ _ _
                Hreg Hd1 Hrgb Hchm H1m Hb1 He1)
      as (hp & l' & rgb' & chm' & i1m' & Hl' & Hg1' & Hg2' & Hg3' & Hrun').
    destruct (loaded_caller_dict _ _ _ _ _ _ _ Hl' Hmeta) as [-> ->].
    rewrite Hg1 in Hg1'. rewrite Hg2 in Hg2'. rewrite Hg3 in Hg3'.
    inversion Hg1'; inversion Hg2'; inversion Hg3'; subst rgb' chm' i1m'.
    exists (heap_put h l d1). eexists. eexists. exists d, d1.
    split; [exact Hd0|]. split; [exact Hrun|].
    split; [eapply heap_get_put_same; exact Hd0|].
    split; [exact Hrun'|].
    right. split; [reflexivity|]. exists bs.
    split; [exact Hb|]. split; [exact Hb1|].
    f_equal. unfold neon_metadata. rewrite swap_adjacent_involutive.
    rewrite (dict_set_same _ (dict_set d1 "bounds" (JList bs)) "epsg").
    + apply dict_set_same.
      rewrite dict_get_set_other by discriminate.
      unfold d1. apply dict_get_set_same.
    + rewrite dict_get_set_other by discriminate.
      unfold d1, neon_metadata.
      rewrite dict_get_set_other by discriminate. apply dict_get_set_same.
Qed.

Lemma sample_sentinel_1_dict_valid :
  valid_record sample_loads "sentinel_1" sample_sentinel_1_dict [[]].
Proof. eapply valid_sentinel_1; reflexivity. Qed.

Lemma renormalize_metadata_witness :
  (valid_record sample_loads "sentinel_1" sample_sentinel_1_dict [[]]
   /\ "sentinel_1" <> "sentinel_2"
   /\ exists h1 h2 out d0 d1,
        heap_get [[]] 0%nat = Some d0
        /\ item_to_images sample_loads "sentinel_1" sample_sentinel_1_dict [[]]
           = (h1, Ok out)
        /\ heap_get h1 0%nat = Some d1
        /\ item_to_images sample_loads "sentinel_1" sample_sentinel_1_dict h1
           = (h2, Ok out)
        /\ (("sentinel_1" <> "neon" /\ h2 = h1)
            \/ ("sentinel_1" = "neon"
                /\ exists bs,
                     dict_get d0 "bounds" = Some (JList bs)
                     /\ dict_get d1 "bounds" = Some (JList (swap_adjacent bs))
                     /\ h2 = heap_put h1 0%nat (dict_set d1 "bounds" (JList bs)))))
  /\ (valid_record sample_loads "neon" sample_neon sample_neon_heap
      /\ "neon" <> "sentinel_2"
      /\ exists h1 h2 out d0 d1,
           heap_get sample_neon_heap 0%nat = Some d0
           /\ item_to_images sample_loads "neon" sample_neon sample_neon_heap
              = (h1, Ok out)
           /\ heap_get h1 0%nat = Some d1
           /\ item_to_images sample_loads "neon" sample_neon h1 = (h2, Ok out)
           /\ (("neon" <> "neon" /\ h2 = h1)
               \/ ("neon" = "neon"
                   /\ exists bs,
                        dict_get d0 "bounds" = Some (JList bs)
                        /\ dict_get d1 "bounds"
                           = Some (JList (swap_adjacent bs))
                        /\ h2 = heap_put h1 0%nat
                                  (dict_set d1 "bounds" (JList bs))))).
Proof.
  split.
  - split; [exact sample_sentinel_1_dict_valid|].
    split; [discriminate|].
    apply (renormalize_metadata sample_loads "sentinel_1"
             sample_sentinel_1_dict [[]] 0%nat).
    + exact sample_sentinel_1_dict_valid.
    + reflexivity.
    + discriminate.
  - split; [exact sample_neon_valid|].
    split; [discriminate|].
    apply (renormalize_metadata sample_loads "neon" sample_neon
             sample_neon_heap 0%nat).
    + exact sample_neon_valid.
    + reflexivity.
    + discriminate.
Defined.

(* ===================================================================== *)
(** * What a call changes in the store *)
(* ===================================================================== *)

Lemma frames_refl l h : frames l h h.
Proof. split; auto. Qed.

Lemma frames_trans l h1 h2 h3 :
  frames l h1 h2 -> frames l h2 h3 -> frames l h1 h3.
Proof.
  intros [L1 F1] [L2 F2]. split; [congruence|].
  intros l' Hl. rewrite F2, F1; auto.
Qed.

Lemma frames_put l h d : frames l h (heap_put h l d).
Proof.
  split; [apply heap_put_length|].
  intros l' Hl. apply heap_get_put_other. congruence.
Qed.

Lemma touches_ret {A} l (a : A) : touches_only l (ret a).
Proof. intros h h' r H. inversion H. apply frames_refl. Qed.

Lemma touches_raise {A} l e : touches_only l (@raise A e).
Proof. intros h h' r H. inversion H. apply frames_refl. Qed.

Lemma touches_lift {A} l (x : result A) : touches_only l (lift x).
Proof. intros h h' r H. inversion H. apply frames_refl. Qed.

Lemma touches_bind {A B} l (c : M A) (k : A -> M B) :
  touches_only l c -> (forall a, touches_only l (k a)) ->
  touches_only l (mbind c k).
Proof.
  intros Hc Hk h h' r H. unfold mbind in H.
  destruct (c h) as [h1 [a|e]] eqn:E.
  - eapply frames_trans; [eapply Hc; exact E|eapply Hk; exact H].
  - inversion H; subst. eapply Hc; exact E.
Qed.

Lemma touches_for_each {A} l (body : A -> M unit) (xs : list A) :
  (forall x, touches_only l (body x)) -> touches_only l (for_each body xs).
Proof.
  intros Hb. induction xs as [|x xs IH]; cbn [for_each].
  - apply touches_ret.
  - apply touches_bind; auto.
Qed.

Lemma touches_meta_getitem l meta k : touches_only l (meta_getitem meta k).
Proof.
  intros h h' r H. unfold meta_getitem in H.
  destruct meta as [l'|v]; [destruct (heap_get h l')|];
    inversion H; apply frames_refl.
Qed.

Lemma touches_meta_setitem l meta k v :
  owned_by meta l -> touches_only l (meta_setitem meta k v).
Proof.
  intros Ho h h' r H. unfold meta_setitem in H.
  destruct meta as [l'|v']; simpl in Ho.
  - subst l'. destruct (heap_get h l); inversion H.
    + apply frames_put.
    + apply frames_refl.
  - inversion H. apply frames_refl.
Qed.

Create HintDb touches.

#[local] Hint Resolve touches_ret touches_raise touches_lift touches_bind
  touches_for_each touches_meta_getitem touches_meta_setitem : touches.

Lemma touches_convert_subset loads subset fields meta l :
  owned_by meta l ->
  touches_only l (convert_subset loads subset fields meta).
Proof.
  intros Ho. unfold convert_subset.
  repeat match goal with |- context [if ?b then _ else _] => destruct b end;
    unfold convert_sentinel_2, convert_neon, fix_neon_metadata, reparse_field;
    auto 10 with touches.
Qed.

Lemma touches_store_count meta cnt l :
  owned_by meta l -> touches_only l (store_count meta cnt).
Proof.
  intros Ho. unfold store_count. destruct cnt; auto with touches.
Qed.

(** Lines 90-175 update at most the object the local [metadata] is. *)
Lemma touches_after_load loads subset item meta l :
  owned_by meta l ->
  touches_only l
    (mbind (lift (coerce_fields item meta)) (fun fields =>
     mbind (convert_subset loads subset fields meta) (fun r =>
     mbind (store_count meta (snd r)) (fun _ => ret (fst r))))).
Proof.
  intros Ho.
  repeat (apply touches_bind; [|intros]);
    auto using touches_convert_subset, touches_store_count with touches.
Qed.

(** Lines 86-88: the caller's store is extended by at most one object,
    and the local [metadata] is the caller's mapping or the new one. *)
Lemma load_metadata_effect loads md h h1 r :
  load_metadata loads md h = (h1, r) ->
  (h1 = h
   /\ (forall meta, r = Ok meta ->
         match md with
         | Some (MetaDict l) => meta = PDict l
         | _ => exists v, meta = POther v
         end))
  \/ (exists s d, md = Some (MetaStr s) /\ h1 = (h ++ [d])%list
                  /\ r = Ok (PDict (length h))).
Proof.
  unfold load_metadata, alloc. intros H.
  destruct md as [[s|l]|];
    [ destruct (loads s) as [[| | | | | |d]|]
    | destruct (heap_get h l)
    | ];
    inversion H; subst; clear H;
    first [ right; do 2 eexists; repeat split; reflexivity
          | left; split; [reflexivity|]; intros meta Hm;
            first [discriminate | inversion Hm; eauto] ].
Qed.

(** ** The returned record holds the local [metadata] *)

Ltac unbind H :=
  repeat match type of H with
         | rbind ?c _ = Ok _ =>
             let E := fresh "E" in
             destruct c eqn:E; cbn [rbind] in H; [|discriminate H]
         end.

Lemma convert_satellogic_keeps item item' n k :
  convert_satellogic item = Ok (item', n) ->
  k <> "rgb" -> k <> "1m" -> dict_get item' k = dict_get item k.
Proof.
  intros H K1 K2. unfold convert_satellogic in H. unbind H.
  inversion H; subst. now rewrite !dict_get_set_other by congruence.
Qed.

Lemma convert_sentinel_1_keeps item item' n k :
  convert_sentinel_1 item = Ok (item', n) ->
  k <> "10m" -> dict_get item' k = dict_get item k.
Proof.
  intros H K1. unfold convert_sentinel_1 in H. unbind H.
  inversion H; subst. now rewrite !dict_get_set_other by congruence.
Qed.

Lemma convert_band_keeps item channel item' n k :
  convert_band item channel = Ok (item', n) ->
  k <> channel -> dict_get item' k = dict_get item k.
Proof.
  intros H K1. unfold convert_band in H. unbind H.
  inversion H; subst. now rewrite !dict_get_set_other by congruence.
Qed.

Lemma convert_bands_keeps channels : forall item cnt item' cnt' k,
  convert_bands item cnt channels = Ok (item', cnt') ->
  ~ In k channels -> dict_get item' k = dict_get item k.
Proof.
  induction channels as [|c channels IH]; cbn [convert_bands];
    intros item cnt item' cnt' k H Hk.
  - now inversion H.
  - destruct (convert_band item c) as [[item1 n]|e] eqn:E; [|discriminate].
    rewrite (IH _ _ _ _ k H) by (intros Hin; apply Hk; now right).
    eapply convert_band_keeps; [exact E|].
    intros ->. apply Hk. now left.
Qed.

Lemma convert_neon_rasters_keeps item item' n k :
  convert_neon_rasters item = Ok (item', n) ->
  k <> "rgb" -> k <> "chm" -> k <> "1m" -> dict_get item' k = dict_get item k.
Proof.
  intros H K1 K2 K3. unfold convert_neon_rasters in H. unbind H.
  inversion H; subst. now rewrite !dict_get_set_other by congruence.
Qed.

Lemma convert_subset_keeps_metadata loads subset fields meta h1 h2 fields' cnt :
  convert_subset loads subset fields meta h1 = (h2, Ok (fields', cnt)) ->
  dict_get fields' "metadata" = dict_get fields "metadata".
Proof.
  unfold convert_subset. intros H.
  destruct (String.eqb subset "satellogic").
  { unfold lift in H. inversion H as [[Hh Hr]]. unbind Hr.
    destruct a as [item' n]. inversion Hr; subst.
    eapply convert_satellogic_keeps; [exact E|discriminate|discriminate]. }
  destruct (String.eqb subset "sentinel_1").
  { unfold lift in H. inversion H as [[Hh Hr]]. unbind Hr.
    destruct a as [item' n]. inversion Hr; subst.
    eapply convert_sentinel_1_keeps; [exact E|discriminate]. }
  destruct (String.eqb subset "sentinel_2").
  { unfold convert_sentinel_2, mbind, lift, ret in H.
    destruct (convert_bands fields None ["10m"; "20m"; "rgb"; "scl"])
      as [[item' c]|e] eqn:E; [|discriminate].
    destruct (for_each _ _ h1) as [h3 [u|e]]; inversion H; subst.
    eapply convert_bands_keeps; [exact E|].
    cbn [In]. intros [K|[K|[K|[K|[]]]]]; discriminate. }
  destruct (String.eqb subset "neon").
  { unfold convert_neon, mbind, lift, ret in H.
    destruct (convert_neon_rasters fields) as [[item' n]|e] eqn:E;
      [|discriminate].
    destruct (fix_neon_metadata meta h1) as [h3 [u|e]]; inversion H; subst.
    eapply convert_neon_rasters_keeps; [exact E|discriminate..]. }
  unfold ret in H. inversion H; subst. reflexivity.
Qed.

Lemma coerce_fields_metadata item meta fields :
  coerce_fields item meta = Ok fields ->
  dict_get fields "metadata" = Some (VMeta meta).
Proof.
  unfold coerce_fields. intros H. unbind H. inversion H; subst.
  apply dict_get_set_same.
Qed.

(** A call that returns has stored [count] in a mapping object, and the
    returned record holds that object. *)
Lemma item_to_images_returns loads subset item h h' out :
  item_to_images loads subset item h = (h', Ok out) ->
  exists h1 meta l d' c,
    load_metadata loads (metadata item) h = (h1, Ok meta)
    /\ meta = PDict l
    /\ dict_get out "metadata" = Some (VMeta (PDict l))
    /\ heap_get h' l = Some d'
    /\ dict_get d' "count" = Some (JInt c).
Proof.
  unfold item_to_images, mbind. intros H.
  destruct (load_metadata loads (metadata item) h) as [h1 [meta|e]] eqn:El;
    [|discriminate].
  unfold lift at 1 in H.
  destruct (coerce_fields item meta) as [fields|e] eqn:Ec; [|discriminate].
  destruct (convert_subset loads subset fields meta h1)
    as [h2 [[fields' cnt]|e]] eqn:Es; [|discriminate].
  cbn [fst snd] in H. unfold store_count in H.
  destruct cnt as [n|]; [|discriminate].
  unfold meta_setitem in H.
  destruct meta as [l|v]; [|discriminate].
  destruct (heap_get h2 l) as [d2|] eqn:Eg; [|discriminate].
  unfold ret in H. inversion H; subst.
  exists h1, (PDict l), l, (dict_set d2 "count" (JInt (Z.of_nat n))),
    (Z.of_nat n).
  split; [reflexivity|]. split; [reflexivity|]. split.
  - rewrite (convert_subset_keeps_metadata _ _ _ _ _ _ _ _ Es).
    eapply coerce_fields_metadata; exact Ec.
  - split; [eapply heap_get_put_same; exact Eg|apply dict_get_set_same].
Qed.

(** C5 as stated fails: the neon sample's metadata is the caller's
    mapping at location 0; after the call that very object is in the
    returned record and its contents have changed. *)
Lemma caller_metadata_is_mutated :
  metadata sample_neon = Some (MetaDict 0%nat)
  /\ heap_get sample_neon_heap 0%nat
     = Some [("bounds", JList [JInt 1; JInt 2; JInt 3; JInt 4]);
             ("epsg", JStr "EPSG:32611")]
  /\ exists h' out,
       item_to_images sample_loads "neon" sample_neon sample_neon_heap
       = (h', Ok out)
       /\ dict_get out "metadata" = Some (VMeta (PDict 0%nat))
       /\ heap_get h' 0%nat
          = Some [("bounds", JList [JInt 2; JInt 1; JInt 4; JInt 3]);
                  ("epsg", JStr "EPSG:4326");
                  ("count", JInt 1)]
       /\ heap_get h' 0%nat <> heap_get sample_neon_heap 0%nat.
Proof.
  split; [reflexivity|]. split; [reflexivity|].
  eexists. eexists. split; [vm_compute; reflexivity|].
  split; [reflexivity|]. split; [reflexivity|].
  vm_compute. discriminate.
Qed.

(** C5 (amended): [item_to_images] returns a new record and changes no
    object of the caller other than a metadata mapping passed in: when
    the metadata is JSON text every object of the caller's store is as
    before and the returned record holds a new mapping; when the
    metadata is a mapping, the returned record holds that same object,
    which has been updated in place ([count] is stored in it), and
    every other object is as before.  This holds whether the call
    returns or raises. *)
Theorem item_to_images_frame loads subset item h h' r :
  item_to_images loads subset item h = (h', r) ->
  (forall l', (l' < length h)%nat ->
      metadata item <> Some (MetaDict l') ->
      heap_get h' l' = heap_get h l')
  /\ (forall out, r = Ok out ->
        exists l d' c,
          dict_get out "metadata" = Some (VMeta (PDict l))
          /\ heap_get h' l = Some d'
          /\ dict_get d' "count" = Some (JInt c)
          /\ (forall l0, metadata item = Some (MetaDict l0) -> l = l0)
          /\ (forall s, metadata item = Some (MetaStr s) -> l = length h)).
Proof.
  intros H. split.
  - intros l' Hl' Hmd. pose proof H as H0.
    unfold item_to_images in H0. unfold mbind at 1 in H0.
    destruct (load_metadata loads (metadata item) h) as [h1 rm] eqn:El.
    destruct (load_metadata_effect _ _ _ _ _ El)
      as [[-> Hm]|(s & d & Hs & -> & ->)].
    + destruct rm as [meta|e]; [|inversion H0; reflexivity].
      specialize (Hm meta eq_refl).
      assert (Ho : exists l, owned_by meta l /\ l' <> l).
      { destruct (metadata item) as [[s|l]|].
        - destruct Hm as [v ->]. exists (S l'). simpl. split; auto.
        - subst meta. exists l. simpl. split; [reflexivity|].
          intros <-. now apply Hmd.
        - destruct Hm as [v ->]. exists (S l'). simpl. split; auto. }
      destruct Ho as (l & Ho & Hne).
      destruct (touches_after_load loads subset item meta l Ho _ _ _ H0)
        as [_ Hf].
      now apply Hf.
    + destruct (touches_after_load loads subset item (PDict (length h))
                  (length h) eq_refl _ _ _ H0) as [_ Hf].
      rewrite Hf by lia. now apply heap_get_alloc_old.
  - intros out ->.
    destruct (item_to_images_returns _ _ _ _ _ _ H)
      as (h1 & meta & l & d' & c & El & -> & Hout & Hget & Hc).
    exists l, d', c. repeat (split; [assumption|]).
    unfold load_metadata, alloc in El. split.
    + intros l0 Hmd. rewrite Hmd in El.
      destruct (heap_get h l0); inversion El. reflexivity.
    + intros s Hmd. rewrite Hmd in El.
      destruct (loads s) as [[| | | | | |d]|]; inversion El. reflexivity.
Qed.

Lemma item_to_images_frame_witness :
  item_to_images sample_loads "neon" sample_neon
                 (sample_neon_heap ++ sample_sentinel_2_heap)%list
  = (fst sample_frame_run, snd sample_frame_run)
  /\ (forall l', (l' < length (sample_neon_heap ++ sample_sentinel_2_heap)%list)%nat ->
        metadata sample_neon <> Some (MetaDict l') ->
        heap_get (fst sample_frame_run) l'
        = heap_get (sample_neon_heap ++ sample_sentinel_2_heap)%list l')
  /\ (forall out,
        snd sample_frame_run = Ok out ->
        exists l d' c,
          dict_get out "metadata" = Some (VMeta (PDict l))
          /\ heap_get (fst sample_frame_run) l = Some d'
          /\ dict_get d' "count" = Some (JInt c)
          /\ (forall l0, metadata sample_neon = Some (MetaDict l0) -> l = l0)
          /\ (forall s, metadata sample_neon = Some (MetaStr s) ->
                l = length (sample_neon_heap ++ sample_sentinel_2_heap)%list)).
Proof.
  split; [reflexivity|].
  exact (item_to_images_frame sample_loads "neon" sample_neon
           (sample_neon_heap ++ sample_sentinel_2_heap)%list
           (fst sample_frame_run) (snd sample_frame_run) eq_refl).
Defined.

(** The run above, computed: the caller's second object is untouched. *)
Example sample_frame_run_store :
  fst sample_frame_run
  = [[("bounds", JList [JInt 2; JInt 1; JInt 4; JInt 3]);
      ("epsg", JStr "EPSG:4326"); ("count", JInt 1)];
     [("solarAngles", JList [JStr "{}"]);
      ("tileGeometry", JList [JStr "[]"]);
      ("viewIncidenceAngles", JList [])]].
Proof. vm_compute. reflexivity. Qed.

(* ===================================================================== *)
(** * Further properties of [item_to_images] *)
(* ===================================================================== *)

(** ** What a call that returns went through *)

Lemma coerce_traverse_inv (l : list (string * nested Z)) (r : dict value) :
  traverse (fun kv : string * nested Z =>
              (a <- np_asarray (snd kv) ;;
               Ok (fst kv, VArray (astype_uint8 a)))%res) l = Ok r ->
  r = map (fun kv : string * nested Z =>
             (fst kv, VArray (uint8_array (snd kv)))) l
  /\ Forall (fun kv : string * nested Z => np_shape (snd kv) <> None) l.
Proof.
  revert r. induction l as [|[k v] l IH]; simpl; intros r H.
  - inversion H. split; constructor.
  - unfold np_asarray in H.
    destruct (np_shape v) as [s|] eqn:Es; [|discriminate].
    cbn [rbind] in H.
    destruct (traverse _ l) as [ys|e] eqn:Et; [|discriminate].
    inversion H; subst. destruct (IH ys eq_refl) as [-> Hall]. split.
    + unfold uint8_array, astype_uint8. simpl. now rewrite Es.
    + constructor; [simpl; congruence|assumption].
Qed.

Lemma coerce_fields_inv item meta fields :
  coerce_fields item meta = Ok fields ->
  fields = coerced item meta
  /\ Forall (fun kv : string * nested Z => np_shape (snd kv) <> None)
            (filter (fun kv => negb (String.eqb (fst kv) "metadata"))
                    (rasters item)).
Proof.
  unfold coerce_fields, coerced. intros H. unbind H. inversion H; subst.
  destruct (coerce_traverse_inv _ _ E) as [-> Hall]. auto.
Qed.

(** The steps of a call that returns: lines 86-88 gave a mapping
    object, every field was coerced, the subset's branch assigned
    [count], and line 174 stored it. *)
Lemma item_to_images_steps loads subset item h h' out :
  item_to_images loads subset item h = (h', Ok out) ->
  exists h1 l h2 n d2,
    load_metadata loads (metadata item) h = (h1, Ok (PDict l))
    /\ coerce_fields item (PDict l) = Ok (coerced item (PDict l))
    /\ convert_subset loads subset (coerced item (PDict l)) (PDict l) h1
       = (h2, Ok (out, Some n))
    /\ heap_get h2 l = Some d2
    /\ h' = heap_put h2 l (dict_set d2 "count" (JInt (Z.of_nat n))).
Proof.
  unfold item_to_images, mbind. intros H.
  destruct (load_metadata loads (metadata item) h) as [h1 [meta|e]] eqn:El;
    [|discriminate].
  unfold lift at 1 in H.
  destruct (coerce_fields item meta) as [fields|e] eqn:Ec; [|discriminate].
  destruct (convert_subset loads subset fields meta h1)
    as [h2 [[fields' cnt]|e]] eqn:Es; [|discriminate].
  cbn [fst snd] in H. unfold store_count in H.
  destruct cnt as [n|]; [|discriminate].
  unfold meta_setitem in H.
  destruct meta as [l|v]; [|discriminate].
  destruct (heap_get h2 l) as [d2|] eqn:Eg; [|discriminate].
  unfold ret in H. inversion H; subst.
  destruct (coerce_fields_inv _ _ _ Ec) as [-> _].
  exists h1, l, h2, n, d2. repeat split; auto.
Qed.

Lemma item_array_inv (item : dict value) k a :
  item_array item k = Ok a -> dict_get item k = Some (VArray a).
Proof.
  unfold item_array, dict_getitem.
  destruct (dict_get item k) as [[b|imgs|m]|]; simpl; intros H;
    inversion H; reflexivity.
Qed.

Lemma dict_get_coerced item meta k :
  k <> "metadata" ->
  dict_get (coerced item meta) k
  = match dict_get (rasters item) k with
    | Some v => Some (VArray (uint8_array v))
    | None => None
    end.
Proof.
  intros Hk. unfold coerced.
  rewrite dict_get_set_other by congruence.
  now apply dict_get_coerced_rasters.
Qed.

(** ** Fields the subset does not convert *)

Lemma convert_subset_keeps loads subset fields meta h1 h2 fields' cnt k :
  convert_subset loads subset fields meta h1 = (h2, Ok (fields', cnt)) ->
  ~ In k (converted_fields subset) ->
  dict_get fields' k = dict_get fields k.
Proof.
  unfold convert_subset, converted_fields. intros H Hk.
  destruct (String.eqb subset "satellogic").
  { unfold lift in H. inversion H as [[Hh Hr]]. unbind Hr.
    destruct a as [item' n]. inversion Hr; subst.
    eapply convert_satellogic_keeps; [exact E| |];
      intros ->; apply Hk; simpl; auto. }
  destruct (String.eqb subset "sentinel_1").
  { unfold lift in H. inversion H as [[Hh Hr]]. unbind Hr.
    destruct a as [item' n]. inversion Hr; subst.
    eapply convert_sentinel_1_keeps; [exact E|].
    intros ->; apply Hk; simpl; auto. }
  destruct (String.eqb subset "sentinel_2").
  { unfold convert_sentinel_2, mbind, lift, ret in H.
    destruct (convert_bands fields None ["10m"; "20m"; "rgb"; "scl"])
      as [[item' c]|e] eqn:E; [|discriminate].
    destruct (for_each _ _ h1) as [h3 [u|e]]; inversion H; subst.
    eapply convert_bands_keeps; [exact E|exact Hk]. }
  destruct (String.eqb subset "neon").
  { unfold convert_neon, mbind, lift, ret in H.
    destruct (convert_neon_rasters fields) as [[item' n]|e] eqn:E;
      [|discriminate].
    destruct (fix_neon_metadata meta h1) as [h3 [u|e]]; inversion H; subst.
    eapply convert_neon_rasters_keeps; [exact E| | |];
      intros ->; apply Hk; simpl; auto. }
  unfold ret in H. inversion H; subst. reflexivity.
Qed.

(** X1: whenever [item_to_images] returns, every raster field that the
    subset's branch does not convert is in the returned record as a
    uint8 array of the field's shape, each value reduced modulo 256. *)
Theorem unconverted_fields_are_uint8_arrays loads subset item h h' out k v :
  item_to_images loads subset item h = (h', Ok out) ->
  dict_get (rasters item) k = Some v ->
  k <> "metadata" ->
  ~ In k (converted_fields subset) ->
  exists s,
    np_shape v = Some s
    /\ dict_get out k = Some (VArray (mk_ndarray s (nmap uint8 v))).
Proof.
  intros H Hg Hk Hc.
  destruct (item_to_images_steps _ _ _ _ _ _ H)
    as (h1 & l & h2 & n & d2 & _ & Hco & Hconv & _ & _).
  rewrite (convert_subset_keeps _ _ _ _ _ _ _ _ k Hconv Hc).
  rewrite (dict_get_coerced _ _ _ Hk), Hg.
  destruct (coerce_fields_inv _ _ _ Hco) as [_ Hall].
  assert (Hin : In (k, v) (filter (fun kv : string * nested Z =>
                                     negb (String.eqb (fst kv) "metadata"))
                                  (rasters item))).
  { apply filter_In. split.
    - clear -Hg. induction (rasters item) as [|[k' v'] d IH]; simpl in *;
        [discriminate|].
      destruct (String.eqb k k') eqn:E.
      + apply String.eqb_eq in E. inversion Hg. subst. now left.
      + right. auto.
    - simpl. apply negb_true_iff. apply String.eqb_neq. exact Hk. }
  rewrite Forall_forall in Hall. specialize (Hall _ Hin). simpl in Hall.
  destruct (np_shape v) as [s|] eqn:Es; [|congruence].
  exists s. split; [reflexivity|].
  unfold uint8_array. now rewrite Es.
Qed.

(** The run on the sample with an unread field, computed. *)
Lemma sample_with_mask_run :
  item_to_images sample_loads "sentinel_1" sample_with_mask []
  = ([[("count", JInt 1)]],
     Ok [("10m",
          VImages [mk_Image RGB
                     (mk_ndarray [1; 1; 3]%nat
                        (Seq [Seq [Seq [Scalar 100; Scalar 0; Scalar 0]]]))]);
         ("mask", VArray (mk_ndarray [2%nat] (Seq [Scalar 44; Scalar 255])));
         ("metadata", VMeta (PDict 0%nat))]).
Proof. vm_compute. reflexivity. Qed.

Lemma unconverted_fields_are_uint8_arrays_witness :
  exists h' out,
    item_to_images sample_loads "sentinel_1" sample_with_mask [] = (h', Ok out)
    /\ dict_get (rasters sample_with_mask) "mask"
       = Some (Seq [Scalar 300; Scalar (-1)])
    /\ "mask" <> "metadata"
    /\ ~ In "mask" (converted_fields "sentinel_1")
    /\ exists s,
         np_shape (Seq [Scalar 300; Scalar (-1)]) = Some s
         /\ dict_get out "mask"
            = Some (VArray (mk_ndarray s
                              (nmap uint8 (Seq [Scalar 300; Scalar (-1)])))).
Proof.
  eexists. eexists.
  pose proof sample_with_mask_run as Hrun.
  split; [exact Hrun|].
  split; [reflexivity|]. split; [discriminate|].
  assert (Hc : ~ In "mask" (converted_fields "sentinel_1"))
    by (simpl; intros [K|[]]; discriminate).
  split; [exact Hc|].
  exact (unconverted_fields_are_uint8_arrays sample_loads "sentinel_1"
           sample_with_mask [] _ _ "mask" (Seq [Scalar 300; Scalar (-1)])
           Hrun eq_refl ltac:(discriminate) Hc).
Defined.

(** ** The keys of the returned record *)

Lemma dict_set_keys_present {V} (d : dict V) k v :
  dict_get d k <> None -> map fst (dict_set d k v) = map fst d.
Proof.
  induction d as [|[k' v'] d IH]; simpl; [congruence|].
  destruct (String.eqb k k') eqn:E; intros H; simpl; [reflexivity|].
  now rewrite IH.
Qed.

Lemma dict_set_absent {V} (d : dict V) k v :
  dict_get d k = None -> dict_set d k v = (d ++ [(k, v)])%list.
Proof.
  induction d as [|[k' v'] d IH]; simpl; [reflexivity|].
  destruct (String.eqb k k'); intros H; [discriminate|].
  now rewrite IH.
Qed.

Lemma set_array_keys (item : dict value) k a v :
  item_array item k = Ok a -> map fst (dict_set item k v) = map fst item.
Proof.
  intros H. apply dict_set_keys_present.
  rewrite (item_array_inv _ _ _ H). discriminate.
Qed.

Lemma convert_satellogic_keys item item' n :
  convert_satellogic item = Ok (item', n) -> map fst item' = map fst item.
Proof.
  intros H. unfold convert_satellogic in H. unbind H. inversion H; subst.
  rewrite (set_array_keys _ _ _ _ E1). eapply set_array_keys; exact E.
Qed.

Lemma convert_sentinel_1_keys item item' n :
  convert_sentinel_1 item = Ok (item', n) -> map fst item' = map fst item.
Proof.
  intros H. unfold convert_sentinel_1 in H. unbind H. inversion H; subst.
  eapply set_array_keys; exact E.
Qed.

Lemma convert_band_keys item channel item' n :
  convert_band item channel = Ok (item', n) -> map fst item' = map fst item.
Proof.
  intros H. unfold convert_band in H. unbind H. inversion H; subst.
  eapply set_array_keys; exact E.
Qed.

Lemma convert_bands_keys channels : forall item cnt item' cnt',
  convert_bands item cnt channels = Ok (item', cnt') ->
  map fst item' = map fst item.
Proof.
  induction channels as [|c channels IH]; cbn [convert_bands];
    intros item cnt item' cnt' H.
  - now inversion H.
  - destruct (convert_band item c) as [[item1 n]|e] eqn:E; [|discriminate].
    rewrite (IH _ _ _ _ H). eapply convert_band_keys; exact E.
Qed.

Lemma convert_neon_rasters_keys item item' n :
  convert_neon_rasters item = Ok (item', n) -> map fst item' = map fst item.
Proof.
  intros H. unfold convert_neon_rasters in H. unbind H. inversion H; subst.
  rewrite (set_array_keys _ _ _ _ E4), (set_array_keys _ _ _ _ E1).
  eapply set_array_keys; exact E.
Qed.

Lemma convert_subset_keys loads subset fields meta h1 h2 fields' cnt :
  convert_subset loads subset fields meta h1 = (h2, Ok (fields', cnt)) ->
  map fst fields' = map fst fields.
Proof.
  unfold convert_subset. intros H.
  destruct (String.eqb subset "satellogic").
  { unfold lift in H. inversion H as [[Hh Hr]]. unbind Hr.
    destruct a as [item' n]. inversion Hr; subst.
    eapply convert_satellogic_keys; exact E. }
  destruct (String.eqb subset "sentinel_1").
  { unfold lift in H. inversion H as [[Hh Hr]]. unbind Hr.
    destruct a as [item' n]. inversion Hr; subst.
    eapply convert_sentinel_1_keys; exact E. }
  destruct (String.eqb subset "sentinel_2").
  { unfold convert_sentinel_2, mbind, lift, ret in H.
    destruct (convert_bands fields None ["10m"; "20m"; "rgb"; "scl"])
      as [[item' c]|e] eqn:E; [|discriminate].
    destruct (for_each _ _ h1) as [h3 [u|e]]; inversion H; subst.
    eapply convert_bands_keys; exact E. }
  destruct (String.eqb subset "neon").
  { unfold convert_neon, mbind, lift, ret in H.
    destruct (convert_neon_rasters fields) as [[item' n]|e] eqn:E;
      [|discriminate].
    destruct (fix_neon_metadata meta h1) as [h3 [u|e]]; inversion H; subst.
    eapply convert_neon_rasters_keys; exact E. }
  unfold ret in H. inversion H; subst. reflexivity.
Qed.

Lemma dict_get_absent {V} (d : dict V) k :
  Forall (fun kv => fst kv <> k) d -> dict_get d k = None.
Proof.
  induction 1 as [|[k' v] d Hk _ IH]; [reflexivity|].
  cbn [dict_get]. destruct (String.eqb_spec k k') as [->|_]; [|exact IH].
  now contradiction Hk.
Qed.

Lemma coerced_keys item meta :
  map fst (coerced item meta)
  = (map fst (filter (fun kv : string * nested Z =>
                        negb (String.eqb (fst kv) "metadata"))
                     (rasters item)) ++ ["metadata"])%list.
Proof.
  unfold coerced. rewrite dict_set_absent.
  - rewrite map_app, map_map. reflexivity.
  - apply dict_get_absent. apply Forall_forall. intros kv Hin.
    apply in_map_iff in Hin as ([k v] & <- & Hin).
    apply filter_In in Hin as [_ Hk]. cbn [fst snd] in *.
    apply negb_true_iff in Hk. now apply String.eqb_neq in Hk.
Qed.

(** X2: whenever [item_to_images] returns, the returned record has the
    keys of the input's raster fields, in the input's order, followed
    by "metadata": no field is added, dropped or moved. *)
Theorem returned_record_keys loads subset item h h' out :
  item_to_images loads subset item h = (h', Ok out) ->
  map fst out
  = (map fst (filter (fun kv : string * nested Z =>
                        negb (String.eqb (fst kv) "metadata"))
                     (rasters item)) ++ ["metadata"])%list.
Proof.
  intros H.
  destruct (item_to_images_steps _ _ _ _ _ _ H)
    as (h1 & l & h2 & n & d2 & _ & _ & Hconv & _ & _).
  rewrite (convert_subset_keys _ _ _ _ _ _ _ _ Hconv).
  apply coerced_keys.
Qed.

Lemma returned_record_keys_witness :
  exists h' out,
    item_to_images sample_loads "sentinel_1" sample_with_mask [] = (h', Ok out)
    /\ map fst out
       = (map fst (filter (fun kv : string * nested Z =>
                             negb (String.eqb (fst kv) "metadata"))
                          (rasters sample_with_mask)) ++ ["metadata"])%list
    /\ map fst out = ["10m"; "mask"; "metadata"].
Proof.
  eexists. eexists.
  pose proof sample_with_mask_run as Hrun.
  split; [exact Hrun|]. split; [|reflexivity].
  exact (returned_record_keys sample_loads "sentinel_1" sample_with_mask []
           _ _ Hrun).
Defined.

(** ** What a record must have for the call to return *)

Lemma dict_get_set_not_none {V} (d : dict V) k k' v :
  dict_get (dict_set d k' v) k <> None -> k <> k' -> dict_get d k <> None.
Proof.
  intros H Hk. rewrite dict_get_set_other in H by congruence. exact H.
Qed.

Lemma item_array_present (item : dict value) k a :
  item_array item k = Ok a -> dict_get item k <> None.
Proof. intros H. rewrite (item_array_inv _ _ _ H). discriminate. Qed.

Lemma convert_band_reads item channel item' n :
  convert_band item channel = Ok (item', n) -> dict_get item channel <> None.
Proof.
  intros H. unfold convert_band in H. unbind H.
  eapply item_array_present; exact E.
Qed.

Lemma convert_bands_reads channels : forall item cnt item' cnt' k,
  convert_bands item cnt channels = Ok (item', cnt') ->
  In k channels -> dict_get item k <> None.
Proof.
  induction channels as [|c channels IH]; cbn [convert_bands];
    intros item cnt item' cnt' k H Hk; [destruct Hk|].
  destruct (convert_band item c) as [[item1 n]|e] eqn:E; [|discriminate].
  pose proof (convert_band_reads _ _ _ _ E) as Hc.
  destruct (String.eqb_spec k c) as [->|Hne]; [exact Hc|].
  destruct Hk as [->|Hk]; [congruence|].
  rewrite <- (convert_band_keeps _ _ _ _ k E Hne).
  eapply IH; eauto.
Qed.

Lemma convert_subset_reads loads subset fields meta h1 h2 fields' cnt k :
  convert_subset loads subset fields meta h1 = (h2, Ok (fields', cnt)) ->
  In k (converted_fields subset) ->
  dict_get fields k <> None.
Proof.
  unfold convert_subset, converted_fields. intros H Hk.
  destruct (String.eqb subset "satellogic").
  { unfold lift in H. inversion H as [[Hh Hr]]. unbind Hr.
    unfold convert_satellogic in E. unbind E.
    rewrite item_array_set_other in E2 by discriminate.
    destruct Hk as [<-|[<-|[]]]; eapply item_array_present; eauto. }
  destruct (String.eqb subset "sentinel_1").
  { unfold lift in H. inversion H as [[Hh Hr]]. unbind Hr.
    unfold convert_sentinel_1 in E. unbind E.
    destruct Hk as [<-|[]]; eapply item_array_present; eauto. }
  destruct (String.eqb subset "sentinel_2").
  { unfold convert_sentinel_2, mbind, lift, ret in H.
    destruct (convert_bands fields None ["10m"; "20m"; "rgb"; "scl"])
      as [[item' c]|e] eqn:E; [|discriminate].
    eapply convert_bands_reads; eauto. }
  destruct (String.eqb subset "neon").
  { unfold convert_neon, mbind, lift, ret in H.
    destruct (convert_neon_rasters fields) as [[item' n]|e] eqn:E;
      [|discriminate].
    unfold convert_neon_rasters in E. unbind E.
    rewrite item_array_set_other in E2 by discriminate.
    rewrite !item_array_set_other in E5 by discriminate.
    destruct Hk as [<-|[<-|[<-|[]]]]; eapply item_array_present; eauto. }
  destruct Hk.
Qed.

Lemma convert_subset_counts loads subset fields meta h1 h2 fields' n :
  convert_subset loads subset fields meta h1 = (h2, Ok (fields', Some n)) ->
  known_subset subset = true.
Proof.
  unfold convert_subset, known_subset. intros H.
  destruct (String.eqb subset "satellogic"); [reflexivity|].
  destruct (String.eqb subset "sentinel_1"); [reflexivity|].
  destruct (String.eqb subset "sentinel_2"); [reflexivity|].
  destruct (String.eqb subset "neon"); [reflexivity|].
  unfold ret in H. discriminate.
Qed.

Lemma load_metadata_mapping loads item h h1 l :
  load_metadata loads (metadata item) h = (h1, Ok (PDict l)) ->
  exists d, metadata_dict loads item h = Some d.
Proof.
  unfold load_metadata, metadata_dict, alloc.
  destruct (metadata item) as [[s|l0]|]; [| |discriminate].
  - destruct (loads s) as [[| | | | | |d]|]; try discriminate. eauto.
  - destruct (heap_get h l0) as [d|]; [eauto|discriminate].
Qed.

(** X3: [item_to_images] returns only for one of the four subsets, on a
    record whose metadata is a mapping (or JSON text of one), whose
    raster fields are all regular arrays (the ones the subset does not
    read included), and which has every field the subset's branch
    converts. *)
Theorem returns_only_on_complete_records loads subset item h h' out :
  item_to_images loads subset item h = (h', Ok out) ->
  known_subset subset = true
  /\ (exists d, metadata_dict loads item h = Some d)
  /\ (forall k v, In (k, v) (rasters item) -> k <> "metadata" ->
        np_shape v <> None)
  /\ (forall k, In k (converted_fields subset) ->
        dict_get (rasters item) k <> None).
Proof.
  intros H.
  destruct (item_to_images_steps _ _ _ _ _ _ H)
    as (h1 & l & h2 & n & d2 & Hload & Hco & Hconv & _ & _).
  split; [eapply convert_subset_counts; exact Hconv|].
  split; [eapply load_metadata_mapping; exact Hload|].
  split.
  - intros k v Hin Hk.
    destruct (coerce_fields_inv _ _ _ Hco) as [_ Hall].
    rewrite Forall_forall in Hall.
    apply (Hall (k, v)). apply filter_In. split; [exact Hin|].
    simpl. apply negb_true_iff. now apply String.eqb_neq.
  - intros k Hk.
    pose proof (convert_subset_reads _ _ _ _ _ _ _ _ k Hconv Hk) as Hg.
    assert (Hne : k <> "metadata").
    { intros ->. revert Hk. unfold converted_fields.
      repeat match goal with |- context [if ?b then _ else _] =>
               destruct b end;
        simpl; intuition discriminate. }
    rewrite (dict_get_coerced _ _ _ Hne) in Hg.
    destruct (dict_get (rasters item) k); congruence.
Qed.

Lemma returns_only_on_complete_records_witness :
  exists h' out,
    item_to_images sample_loads "sentinel_1" sample_with_mask [] = (h', Ok out)
    /\ known_subset "sentinel_1" = true
    /\ (exists d, metadata_dict sample_loads sample_with_mask [] = Some d)
    /\ (forall k v, In (k, v) (rasters sample_with_mask) -> k <> "metadata" ->
          np_shape v <> None)
    /\ (forall k, In k (converted_fields "sentinel_1") ->
          dict_get (rasters sample_with_mask) k <> None).
Proof.
  eexists. eexists.
  pose proof sample_with_mask_run as Hrun.
  split; [exact Hrun|].
  exact (returns_only_on_complete_records sample_loads "sentinel_1"
           sample_with_mask [] _ _ Hrun).
Defined.

(** ** Images per field *)

Lemma length_unseq_nmap {A B} (f : A -> B) (a : nested A) :
  length (unseq (nmap f a)) = length (unseq a).
Proof. destruct a; simpl; [reflexivity|apply length_map]. Qed.

Ltac field_images Hg :=
  eexists; split;
  [ rewrite ?dict_get_set_other by discriminate; apply dict_get_set_same
  | unfold revisits; rewrite Hg, length_map, ?length_unseq_nmap; reflexivity ].

(** X4: for every valid record, every field the subset's branch converts
    (not only the one that is counted) is returned as a list of images
    with one image per revisit of that field. *)
Theorem one_image_per_revisit loads subset item h :
  valid_record loads subset item h ->
  exists h' out,
    item_to_images loads subset item h = (h', Ok out)
    /\ forall k, In k (converted_fields subset) ->
         exists imgs,
           dict_get out k = Some (VImages imgs)
           /\ revisits item k = Some (length imgs).
Proof.
  intros Hv.
  destruct Hv as
    [ item h d n1 h1 w1 n2 c2 h2 w2 Hreg Hmeta Hrgb H1m
    | item h d n1 h1 w1 Hreg Hmeta H10
    | item h d n1 h1 w1 n2 c2 h2 w2 n3 h3 w3 n4 h4 w4
        Hreg Hmeta H10 H20 Hrgb Hscl Ht1 Ht2 Ht3
    | item h d n1 h1 w1 n2 c2 h2 w2 n3 b3 h3 w3
        Hreg Hmeta Hrgb Hchm H1m Hbounds ].
  - destruct (run_satellogic loads item h d _ _ _ _ _ _ _ Hreg Hmeta Hrgb H1m)
      as (hp & l & rgb & i1m & _ & Hg1 & Hg2 & Hrun).
    eexists. eexists. split; [exact Hrun|].
    unfold satellogic_fields. cbn [converted_fields String.eqb Ascii.eqb Bool.eqb].
    intros k [<-|[<-|[]]]; [field_images Hg1|field_images Hg2].
  - destruct (run_sentinel_1 loads item h d _ _ _ Hreg Hmeta H10)
      as (hp & l & i10m & _ & Hg & Hrun).
    eexists. eexists. split; [exact Hrun|].
    unfold sentinel_1_fields. cbn [converted_fields String.eqb Ascii.eqb Bool.eqb].
    intros k [<-|[]]. field_images Hg.
  - destruct (run_sentinel_2 loads item h d _ _ _ _ _ _ _ _ _ _ _ _ _
                Hreg Hmeta H10 H20 Hrgb Hscl Ht1 Ht2 Ht3)
      as (hp & l & i10m & i20m & rgb & scl & t1 & t2 & t3
          & _ & Hg1 & Hg2 & Hg3 & Hg4 & Hrun).
    eexists. eexists. split; [exact Hrun|].
    unfold sentinel_2_fields. cbn [converted_fields String.eqb Ascii.eqb Bool.eqb].
    intros k [<-|[<-|[<-|[<-|[]]]]];
      [field_images Hg1|field_images Hg2|field_images Hg3|field_images Hg4].
  - destruct Hbounds as (bs & Hb & He).
    destruct (run_neon loads item h d _ _ _ _ _ _ _ _ _ _ _ bs
                Hreg Hmeta Hrgb Hchm H1m Hb He)
      as (hp & l & rgb & chm & i1m & _ & Hg1 & Hg2 & Hg3 & Hrun).
    eexists. eexists. split; [exact Hrun|].
    unfold neon_fields. cbn [converted_fields String.eqb Ascii.eqb Bool.eqb].
    intros k [<-|[<-|[<-|[]]]];
      [field_images Hg1|field_images Hg2|field_images Hg3].
Qed.

Lemma one_image_per_revisit_witness :
  valid_record sample_loads "sentinel_2" sample_sentinel_2
               sample_sentinel_2_heap
  /\ exists h' out,
       item_to_images sample_loads "sentinel_2" sample_sentinel_2
                      sample_sentinel_2_heap = (h', Ok out)
       /\ forall k, In k (converted_fields "sentinel_2") ->
            exists imgs,
              dict_get out k = Some (VImages imgs)
              /\ revisits sample_sentinel_2 k = Some (length imgs).
Proof.
  split; [exact sample_sentinel_2_valid|].
  exact (one_image_per_revisit sample_loads "sentinel_2" sample_sentinel_2
           sample_sentinel_2_heap sample_sentinel_2_valid).
Defined.

(** ** Metadata repairs *)

(** X5: for every valid neon record, the returned metadata has "epsg"
    set to "EPSG:4326" whatever it was (or was not) before, and every
    entry other than "bounds", "epsg" and "count" is as in the input. *)
Theorem neon_epsg_is_forced loads item h d :
  valid_record loads "neon" item h ->
  metadata_dict loads item h = Some d ->
  exists h' out l d',
    item_to_images loads "neon" item h = (h', Ok out)
    /\ returned_metadata out h' = Some (l, d')
    /\ dict_get d' "epsg" = Some (JStr "EPSG:4326")
    /\ (forall k, k <> "bounds" -> k <> "epsg" -> k <> "count" ->
          dict_get d' k = dict_get d k).
Proof.
  intros Hv Hmeta.
  inversion Hv as
    [ | | | item0 h0 d0 n1 h1 w1 n2 c2 h2 w2 n3 b3 h3 w3
            Hreg Hmeta0 Hrgb Hchm H1m Hbounds ]; subst.
  rewrite Hmeta in Hmeta0. inversion Hmeta0; subst d0.
  destruct Hbounds as (bs & Hb & He).
  destruct (run_neon loads item h d _ _ _ _ _ _ _ _ _ _ _ bs
              Hreg Hmeta Hrgb Hchm H1m Hb He)
    as (hp & l & rgb & chm & i1m & Hl & _ & _ & _ & Hrun).
  destruct Hl as (_ & Hget & _).
  eexists. eexists. exists l. eexists.
  split; [exact Hrun|]. split.
  - unfold returned_metadata, neon_fields.
    rewrite !dict_get_set_other by discriminate.
    rewrite dict_get_coerced_metadata.
    erewrite heap_get_put_same by exact Hget. reflexivity.
  - unfold neon_metadata. split.
    + rewrite dict_get_set_other by discriminate. apply dict_get_set_same.
    + intros k K1 K2 K3. now rewrite !dict_get_set_other by congruence.
Qed.

Lemma neon_epsg_is_forced_witness :
  valid_record sample_loads "neon" sample_neon sample_neon_heap
  /\ dict_get [("bounds", JList [JInt 1; JInt 2; JInt 3; JInt 4]);
               ("epsg", JStr "EPSG:32611")] "epsg"
     = Some (JStr "EPSG:32611")
  /\ exists h' out l d',
       item_to_images sample_loads "neon" sample_neon sample_neon_heap
       = (h', Ok out)
       /\ returned_metadata out h' = Some (l, d')
       /\ dict_get d' "epsg" = Some (JStr "EPSG:4326")
       /\ (forall k, k <> "bounds" -> k <> "epsg" -> k <> "count" ->
             dict_get d' k
             = dict_get [("bounds", JList [JInt 1; JInt 2; JInt 3; JInt 4]);
                         ("epsg", JStr "EPSG:32611")] k).
Proof.
  split; [exact sample_neon_valid|]. split; [reflexivity|].
  exact (neon_epsg_is_forced sample_loads sample_neon sample_neon_heap
           [("bounds", JList [JInt 1; JInt 2; JInt 3; JInt 4]);
            ("epsg", JStr "EPSG:32611")]
           sample_neon_valid eq_refl).
Defined.

Lemma map_JStr_inj (t t' : list string) :
  map JStr t = map JStr t' -> t = t'.
Proof.
  revert t'. induction t as [|x t IH]; intros [|y t'] H;
    try discriminate; [reflexivity|].
  simpl in H. inversion H. f_equal. now apply IH.
Qed.

Lemma json_texts_of loads d field texts :
  json_texts loads d field ->
  dict_get d field = Some (JList (map JStr texts)) ->
  Forall (fun t => loads t <> None) texts.
Proof.
  intros (texts' & Hf & Hall) Hg. rewrite Hg in Hf.
  inversion Hf as [Heq]. apply map_JStr_inj in Heq. now subst.
Qed.

Lemma reparse_fields_texts loads l h d t1 t2 t3 :
  heap_get h l = Some d ->
  dict_get d "solarAngles" = Some (JList (map JStr t1)) ->
  dict_get d "tileGeometry" = Some (JList (map JStr t2)) ->
  dict_get d "viewIncidenceAngles" = Some (JList (map JStr t3)) ->
  Forall (fun t => loads t <> None) t1 ->
  Forall (fun t => loads t <> None) t2 ->
  Forall (fun t => loads t <> None) t3 ->
  for_each (reparse_field loads (PDict l))
           ["solarAngles"; "tileGeometry"; "viewIncidenceAngles"] h
  = (heap_put h l (reparsed loads d t1 t2 t3), Ok tt).
Proof.
  intros Hget Hf1 Hf2 Hf3 Ha1 Ha2 Ha3. unfold for_each, mbind.
  rewrite (reparse_field_texts loads l h d _ t1 Hget Hf1 Ha1).
  erewrite reparse_field_texts with (texts := t2);
    [ | eapply heap_get_put_same; exact Hget
      | rewrite dict_get_set_other by discriminate; exact Hf2
      | exact Ha2 ].
  erewrite reparse_field_texts with (texts := t3);
    [ | eapply heap_get_put_same; eapply heap_get_put_same; exact Hget
      | rewrite !dict_get_set_other by discriminate; exact Hf3
      | exact Ha3 ].
  rewrite !heap_put_put. reflexivity.
Qed.

(** X6: for every valid sentinel_2 record, each of the metadata entries
    "solarAngles", "tileGeometry" and "viewIncidenceAngles" is replaced
    by the list of the values its JSON texts decode to, in order; every
    entry other than these three and "count" is as in the input. *)
Theorem optical_metadata_is_decoded loads item h d t1 t2 t3 :
  valid_record loads "sentinel_2" item h ->
  metadata_dict loads item h = Some d ->
  dict_get d "solarAngles" = Some (JList (map JStr t1)) ->
  dict_get d "tileGeometry" = Some (JList (map JStr t2)) ->
  dict_get d "viewIncidenceAngles" = Some (JList (map JStr t3)) ->
  exists h' out l d',
    item_to_images loads "sentinel_2" item h = (h', Ok out)
    /\ returned_metadata out h' = Some (l, d')
    /\ dict_get d' "solarAngles" = Some (JList (map (decoded loads) t1))
    /\ dict_get d' "tileGeometry" = Some (JList (map (decoded loads) t2))
    /\ dict_get d' "viewIncidenceAngles"
       = Some (JList (map (decoded loads) t3))
    /\ (forall t, In t (t1 ++ t2 ++ t3) -> loads t = Some (decoded loads t))
    /\ (forall k, k <> "solarAngles" -> k <> "tileGeometry" ->
          k <> "viewIncidenceAngles" -> k <> "count" ->
          dict_get d' k = dict_get d k).
Proof.
  intros Hv Hmeta Hf1 Hf2 Hf3.
  inversion Hv as
    [ | | item0 h0 d0 n1 h1 w1 n2 c2 h2 w2 n3 h3 w3 n4 h4 w4
          Hreg Hmeta0 H10 H20 Hrgb Hscl Ht1 Ht2 Ht3 | ]; subst.
  rewrite Hmeta in Hmeta0. inversion Hmeta0; subst d0.
  pose proof (json_texts_of _ _ _ _ Ht1 Hf1) as Ha1.
  pose proof (json_texts_of _ _ _ _ Ht2 Hf2) as Ha2.
  pose proof (json_texts_of _ _ _ _ Ht3 Hf3) as Ha3.
  destruct (loaded_of_metadata_dict _ _ _ _ Hmeta) as (hp & l & Hl).
  destruct (convert_bands_valid item (PDict l) _ _ _ _ _ _ _ _ _ _ _ _ _
              H10 H20 Hrgb Hscl)
    as (i10m & i20m & rgb & scl & _ & _ & _ & _ & Hconv).
  destruct Hl as (Hload & Hget & _).
  pose proof (reparse_fields_texts loads l hp d t1 t2 t3
                Hget Hf1 Hf2 Hf3 Ha1 Ha2 Ha3) as Hre.
  assert (Hrun : item_to_images loads "sentinel_2" item h
                 = (heap_put (heap_put hp l (reparsed loads d t1 t2 t3)) l
                      (dict_set (reparsed loads d t1 t2 t3) "count"
                         (JInt (Z.of_nat (S n4)))),
                    Ok (sentinel_2_fields (coerced item (PDict l))
                          i10m i20m rgb scl
                          (S (S h1)) (S (S w1)) (S (S h2)) (S (S w2))
                          (S (S h3)) (S (S w3)) (S (S h4)) (S (S w4))))).
  { eapply item_to_images_finish; eauto.
    - unfold convert_subset. cbn [String.eqb Ascii.eqb Bool.eqb].
      unfold convert_sentinel_2, mbind, lift, ret. rewrite Hconv, Hre.
      reflexivity.
    - eapply heap_get_put_same; exact Hget. }
  eexists. eexists. exists l. eexists.
  split; [exact Hrun|]. split.
  - unfold returned_metadata, sentinel_2_fields.
    rewrite !dict_get_set_other by discriminate.
    rewrite dict_get_coerced_metadata.
    erewrite heap_get_put_same
      by (eapply heap_get_put_same; exact Hget).
    reflexivity.
  - unfold reparsed.
    split; [rewrite !dict_get_set_other by discriminate;
            apply dict_get_set_same|].
    split; [rewrite !dict_get_set_other by discriminate;
            apply dict_get_set_same|].
    split; [rewrite !dict_get_set_other by discriminate;
            apply dict_get_set_same|].
    split.
    + intros t Hin. unfold decoded.
      assert (Hall : Forall (fun t => loads t <> None) (t1 ++ t2 ++ t3))
        by (repeat (apply Forall_app; split); assumption).
      rewrite Forall_forall in Hall. specialize (Hall t Hin).
      destruct (loads t); congruence.
    + intros k K1 K2 K3 K4. now rewrite !dict_get_set_other by congruence.
Qed.

Lemma optical_metadata_is_decoded_witness :
  valid_record sample_loads "sentinel_2" sample_sentinel_2
               sample_sentinel_2_heap
  /\ exists h' out l d',
       item_to_images sample_loads "sentinel_2" sample_sentinel_2
                      sample_sentinel_2_heap = (h', Ok out)
       /\ returned_metadata out h' = Some (l, d')
       /\ dict_get d' "solarAngles"
          = Some (JList (map (decoded sample_loads) ["{}"]))
       /\ dict_get d' "tileGeometry"
          = Some (JList (map (decoded sample_loads) ["[]"]))
       /\ dict_get d' "viewIncidenceAngles"
          = Some (JList (map (decoded sample_loads) []))
       /\ (forall t, In t (["{}"] ++ ["[]"] ++ []) ->
             sample_loads t = Some (decoded sample_loads t))
       /\ (forall k, k <> "solarAngles" -> k <> "tileGeometry" ->
             k <> "viewIncidenceAngles" -> k <> "count" ->
             dict_get d' k
             = dict_get [("solarAngles", JList [JStr "{}"]);
                         ("tileGeometry", JList [JStr "[]"]);
                         ("viewIncidenceAngles", JList [])] k).
Proof.
  split; [exact sample_sentinel_2_valid|].
  exact (optical_metadata_is_decoded sample_loads sample_sentinel_2
           sample_sentinel_2_heap
           [("solarAngles", JList [JStr "{}"]);
            ("tileGeometry", JList [JStr "[]"]);
            ("viewIncidenceAngles", JList [])]
           ["{}"] ["[]"] []
           sample_sentinel_2_valid eq_refl eq_refl eq_refl eq_refl).
Defined.

(** ** Pixels of the decoded images *)

Lemma child_nmap {A B} (f : A -> B) k (a : nested A) :
  child k (nmap f a) = nmap f (child k a).
Proof.
  unfold child. destruct a as [x|l]; cbn [nmap unseq].
  - now destruct k.
  - change (Seq []) with (nmap f (Seq [])) at 1. apply map_nth.
Qed.

Lemma has_shape_child {A} (a : nested A) n s k :
  has_shape (n :: s) a -> (k < n)%nat -> has_shape s (child k a).
Proof.
  intros Hs Hk. apply has_shape_rows in Hs as [Hlen Hall].
  rewrite Forall_forall in Hall. apply Hall. unfold child.
  apply nth_In. lia.
Qed.

Lemma has_shape_scalar {A} (a : nested A) :
  has_shape [] a -> exists x, a = Scalar x.
Proof. destruct a as [x|l]; simpl; [eauto|contradiction]. Qed.

Lemma nth_error_child {A} (a : nested A) n s k :
  has_shape (n :: s) a -> (k < n)%nat ->
  nth_error (unseq a) k = Some (child k a).
Proof.
  intros Hs Hk. apply has_shape_rows in Hs as [Hlen _].
  unfold child. apply nth_error_nth'. lia.
Qed.

(** The value of a [C,H,W] revisit at channel [c], row [y], column [x]
    is the leaf of the channel-last contents at [y], [x], [c]. *)
Lemma hwc_leaf {A} (r : nested A) C H W c y x :
  has_shape [C; H; W] r ->
  (c < C)%nat -> (y < H)%nat -> (x < W)%nat ->
  child c (child x (child y (hwc H W r))) = child x (child y (child c r)).
Proof.
  intros Hs Hc Hy Hx.
  destruct r as [a|chans]; [contradiction|].
  destruct Hs as [Hlen Hall].
  rewrite (hwc_pixel chans H W y x Hall Hy Hx).
  rewrite (child_map (fun ch => child x (child y ch)) chans c (Seq []))
    by lia.
  reflexivity.
Qed.

Lemma channel_last_images (v : nested Z) N H W
    (F : nested Z -> Image) :
  has_shape [N; 3; H; W]%nat v ->
  (forall r, has_shape [3; H; W]%nat r ->
     F r = mk_Image RGB (mk_ndarray [H; W; 3]%nat (hwc H W r))) ->
  forall i c y x, (i < N)%nat -> (c < 3)%nat -> (y < H)%nat -> (x < W)%nat ->
  exists img z,
    nth_error (map F (unseq (nmap uint8 v))) i = Some img
    /\ im_mode img = RGB
    /\ shape (im_array img) = [H; W; 3]%nat
    /\ child x (child y (child c (child i v))) = Scalar z
    /\ child c (child x (child y (data (im_array img)))) = Scalar (uint8 z).
Proof.
  intros Hs HF i c y x Hi Hc Hy Hx.
  pose proof (has_shape_child _ _ _ i Hs Hi) as Hr.
  pose proof (has_shape_child _ _ _ c Hr Hc) as Hch.
  pose proof (has_shape_child _ _ _ y Hch Hy) as Hrow.
  pose proof (has_shape_child _ _ _ x Hrow Hx) as Hleaf.
  destruct (has_shape_scalar _ Hleaf) as (z & Hz).
  exists (F (child i (nmap uint8 v))), z.
  pose proof (has_shape_nmap uint8 _ _ Hs) as Hs'.
  pose proof (has_shape_child _ _ _ i Hs' Hi) as Hr'.
  rewrite (HF _ Hr'). cbn [im_mode im_array shape data].
  split; [|split; [reflexivity|split; [reflexivity|split; [exact Hz|]]]].
  - rewrite nth_error_map, (nth_error_child _ _ _ i Hs' Hi). simpl.
    now rewrite (HF _ Hr').
  - rewrite (hwc_leaf _ 3%nat H W c y x Hr' Hc Hy Hx).
    now rewrite !child_nmap, Hz.
Qed.

(** X7: for every valid record of a subset with a three-channel "rgb"
    field (satellogic, sentinel_2, neon), the field comes back as one
    RGB image of shape [H,W,3] per revisit, and the value of image [i]
    at row [y], column [x], channel [c] is the input value at
    [i][c][y][x] reduced modulo 256. *)
Theorem rgb_images_are_channel_last loads subset item h v :
  valid_record loads subset item h ->
  subset <> "sentinel_1" ->
  dict_get (rasters item) "rgb" = Some v ->
  exists h' out imgs N H W,
    item_to_images loads subset item h = (h', Ok out)
    /\ np_shape v = Some [N; 3; H; W]%nat
    /\ dict_get out "rgb" = Some (VImages imgs)
    /\ forall i c y x,
         (i < N)%nat -> (c < 3)%nat -> (y < H)%nat -> (x < W)%nat ->
         exists img z,
           nth_error imgs i = Some img
           /\ im_mode img = RGB
           /\ shape (im_array img) = [H; W; 3]%nat
           /\ child x (child y (child c (child i v))) = Scalar z
           /\ child c (child x (child y (data (im_array img))))
              = Scalar (uint8 z).
Proof.
  intros Hv Hsub Hv0.
  destruct Hv as
    [ item h d n1 h1 w1 n2 c2 h2 w2 Hreg Hmeta Hrgb H1m
    | item h d n1 h1 w1 Hreg Hmeta H10
    | item h d n1 h1 w1 n2 c2 h2 w2 n3 h3 w3 n4 h4 w4
        Hreg Hmeta H10 H20 Hrgb Hscl Ht1 Ht2 Ht3
    | item h d n1 h1 w1 n2 c2 h2 w2 n3 b3 h3 w3
        Hreg Hmeta Hrgb Hchm H1m Hbounds ].
  - destruct (run_satellogic loads item h d _ _ _ _ _ _ _ Hreg Hmeta Hrgb H1m)
      as (hp & l & rgb & i1m & _ & Hg1 & _ & Hrun).
    rewrite Hv0 in Hg1. inversion Hg1; subst rgb.
    unfold field_shape in Hrgb. rewrite Hv0 in Hrgb.
    do 6 eexists. split; [exact Hrun|]. split; [exact Hrgb|]. split.
    + unfold satellogic_fields.
      rewrite ?dict_get_set_other by discriminate. apply dict_get_set_same.
    + apply channel_last_images; [now apply np_shape_has_shape|reflexivity].
  - congruence.
  - destruct (run_sentinel_2 loads item h d _ _ _ _ _ _ _ _ _ _ _ _ _
                Hreg Hmeta H10 H20 Hrgb Hscl Ht1 Ht2 Ht3)
      as (hp & l & i10m & i20m & rgb & scl & t1 & t2 & t3
          & _ & _ & _ & Hg3 & _ & Hrun).
    rewrite Hv0 in Hg3. inversion Hg3; subst rgb.
    unfold field_shape in Hrgb. rewrite Hv0 in Hrgb.
    do 6 eexists. split; [exact Hrun|]. split; [exact Hrgb|]. split.
    + unfold sentinel_2_fields.
      rewrite ?dict_get_set_other by discriminate. apply dict_get_set_same.
    + rewrite nmap_uint8_idem.
      apply channel_last_images; [now apply np_shape_has_shape|].
      intros r _. unfold band_image. now rewrite squeeze_hwc_3.
  - destruct Hbounds as (bs & Hb & He).
    destruct (run_neon loads item h d _ _ _ _ _ _ _ _ _ _ _ bs
                Hreg Hmeta Hrgb Hchm H1m Hb He)
      as (hp & l & rgb & chm & i1m & _ & Hg1 & _ & _ & Hrun).
    rewrite Hv0 in Hg1. inversion Hg1; subst rgb.
    unfold field_shape in Hrgb. rewrite Hv0 in Hrgb.
    do 6 eexists. split; [exact Hrun|]. split; [exact Hrgb|]. split.
    + unfold neon_fields.
      rewrite ?dict_get_set_other by discriminate. apply dict_get_set_same.
    + apply channel_last_images; [now apply np_shape_has_shape|reflexivity].
Qed.

Lemma rgb_images_are_channel_last_witness :
  valid_record sample_loads "sentinel_2" sample_sentinel_2
               sample_sentinel_2_heap
  /\ "sentinel_2" <> "sentinel_1"
  /\ exists h' out imgs N H W,
       item_to_images sample_loads "sentinel_2" sample_sentinel_2
                      sample_sentinel_2_heap = (h', Ok out)
       /\ np_shape (sample_field 1 3) = Some [N; 3; H; W]%nat
       /\ dict_get out "rgb" = Some (VImages imgs)
       /\ forall i c y x,
            (i < N)%nat -> (c < 3)%nat -> (y < H)%nat -> (x < W)%nat ->
            exists img z,
              nth_error imgs i = Some img
              /\ im_mode img = RGB
              /\ shape (im_array img) = [H; W; 3]%nat
              /\ child x (child y (child c (child i (sample_field 1 3))))
                 = Scalar z
              /\ child c (child x (child y (data (im_array img))))
                 = Scalar (uint8 z).
Proof.
  split; [exact sample_sentinel_2_valid|]. split; [discriminate|].
  exact (rgb_images_are_channel_last sample_loads "sentinel_2"
           sample_sentinel_2 sample_sentinel_2_heap (sample_field 1 3)
           sample_sentinel_2_valid
           ltac:(discriminate) eq_refl).
Defined.

Lemma first_channel_images (v : nested Z) N C H W
    (F : nested Z -> Image) :
  has_shape [N; S C; H; W]%nat v ->
  (forall r y x, has_shape [S C; H; W]%nat r -> (y < H)%nat -> (x < W)%nat ->
     im_mode (F r) = L
     /\ shape (im_array (F r)) = [H; W]%nat
     /\ child x (child y (data (im_array (F r))))
        = child x (child y (child 0 r))) ->
  forall i y x, (i < N)%nat -> (y < H)%nat -> (x < W)%nat ->
  exists img z,
    nth_error (map F (unseq (nmap uint8 v))) i = Some img
    /\ im_mode img = L
    /\ shape (im_array img) = [H; W]%nat
    /\ child x (child y (child 0 (child i v))) = Scalar z
    /\ child x (child y (data (im_array img))) = Scalar (uint8 z).
Proof.
  intros Hs HF i y x Hi Hy Hx.
  pose proof (has_shape_child _ _ _ i Hs Hi) as Hr.
  pose proof (has_shape_child _ _ _ 0%nat Hr (Nat.lt_0_succ C)) as Hch.
  pose proof (has_shape_child _ _ _ y Hch Hy) as Hrow.
  pose proof (has_shape_child _ _ _ x Hrow Hx) as Hleaf.
  destruct (has_shape_scalar _ Hleaf) as (z & Hz).
  exists (F (child i (nmap uint8 v))), z.
  pose proof (has_shape_nmap uint8 _ _ Hs) as Hs'.
  pose proof (has_shape_child _ _ _ i Hs' Hi) as Hr'.
  destruct (HF _ y x Hr' Hy Hx) as (Hm & Hsh & Hpx).
  split; [|split; [exact Hm|split; [exact Hsh|split; [exact Hz|]]]].
  - now rewrite nth_error_map, (nth_error_child _ _ _ i Hs' Hi).
  - now rewrite Hpx, !child_nmap, Hz.
Qed.

(** The squeezed one-channel image of an optical band holds the plane of
    its only channel. *)
Lemma band_image_gray h w (r : nested Z) y x :
  has_shape [1; S (S h); S (S w)]%nat r ->
  (y < S (S h))%nat -> (x < S (S w))%nat ->
  im_mode (band_image L [S (S h); S (S w); 1]%nat (fun a => a)
             (S (S h)) (S (S w)) r) = L
  /\ shape (im_array (band_image L [S (S h); S (S w); 1]%nat (fun a => a)
                        (S (S h)) (S (S w)) r))
     = [S (S h); S (S w)]%nat
  /\ child x (child y (data (im_array
        (band_image L [S (S h); S (S w); 1]%nat (fun a => a)
           (S (S h)) (S (S w)) r))))
     = child x (child y (child 0 r)).
Proof.
  intros Hs Hy Hx. split; [reflexivity|]. split; [reflexivity|].
  unfold band_image, squeeze. cbn [im_array data shape].
  rewrite <- (hwc_leaf r 1%nat (S (S h)) (S (S w)) 0%nat y x Hs
                (Nat.lt_0_succ 0) Hy Hx).
  rewrite hwc_expand. cbn [squeeze_data unseq]. rewrite map_map.
  rewrite !child_seq_map by assumption.
  cbn [unseq]. rewrite map_map.
  rewrite !child_seq_map by assumption.
  reflexivity.
Qed.

(** X8: the single-channel fields ("1m" of satellogic, "chm" of neon,
    "10m" and "scl" of sentinel_2) of a valid record come back as one
    grayscale image of shape [H,W] per revisit, holding channel 0 of
    the revisit: image [i] at row [y], column [x] is the input value at
    [i][0][y][x] reduced modulo 256. *)
Theorem gray_images_hold_first_channel loads subset item h k v :
  valid_record loads subset item h ->
  (subset = "satellogic" /\ k = "1m")
  \/ (subset = "neon" /\ k = "chm")
  \/ (subset = "sentinel_2" /\ (k = "10m" \/ k = "scl")) ->
  dict_get (rasters item) k = Some v ->
  exists h' out imgs N C H W,
    item_to_images loads subset item h = (h', Ok out)
    /\ np_shape v = Some [N; C; H; W]%nat
    /\ dict_get out k = Some (VImages imgs)
    /\ forall i y x, (i < N)%nat -> (y < H)%nat -> (x < W)%nat ->
         exists img z,
           nth_error imgs i = Some img
           /\ im_mode img = L
           /\ shape (im_array img) = [H; W]%nat
           /\ child x (child y (child 0 (child i v))) = Scalar z
           /\ child x (child y (data (im_array img))) = Scalar (uint8 z).
Proof.
  intros Hv Hk Hv0.
  destruct Hv as
    [ item h d n1 h1 w1 n2 c2 h2 w2 Hreg Hmeta Hrgb H1m
    | item h d n1 h1 w1 Hreg Hmeta H10
    | item h d n1 h1 w1 n2 c2 h2 w2 n3 h3 w3 n4 h4 w4
        Hreg Hmeta H10 H20 Hrgb Hscl Ht1 Ht2 Ht3
    | item h d n1 h1 w1 n2 c2 h2 w2 n3 b3 h3 w3
        Hreg Hmeta Hrgb Hchm H1m Hbounds ].
  - destruct Hk as [[_ ->]|[[? _]|[? _]]]; try discriminate.
    destruct (run_satellogic loads item h d _ _ _ _ _ _ _ Hreg Hmeta Hrgb H1m)
      as (hp & l & rgb & i1m & _ & _ & Hg2 & Hrun).
    rewrite Hv0 in Hg2. inversion Hg2; subst i1m.
    unfold field_shape in H1m. rewrite Hv0 in H1m.
    do 7 eexists. split; [exact Hrun|]. split; [exact H1m|]. split.
    + unfold satellogic_fields.
      rewrite ?dict_get_set_other by discriminate. apply dict_get_set_same.
    + apply (first_channel_images v _ c2);
        [now apply np_shape_has_shape|]. intros; auto.
  - destruct Hk as [[? _]|[[? _]|[? _]]]; discriminate.
  - destruct Hk as [[? _]|[[? _]|[_ Hk]]]; try discriminate.
    destruct (run_sentinel_2 loads item h d _ _ _ _ _ _ _ _ _ _ _ _ _
                Hreg Hmeta H10 H20 Hrgb Hscl Ht1 Ht2 Ht3)
      as (hp & l & i10m & i20m & rgb & scl & t1 & t2 & t3
          & _ & Hg1 & _ & _ & Hg4 & Hrun).
    destruct Hk as [->| ->].
    + rewrite Hv0 in Hg1. inversion Hg1; subst i10m.
      unfold field_shape in H10. rewrite Hv0 in H10.
      do 7 eexists. split; [exact Hrun|]. split; [exact H10|]. split.
      * unfold sentinel_2_fields.
        rewrite ?dict_get_set_other by discriminate. apply dict_get_set_same.
      * rewrite nmap_uint8_idem.
        apply (first_channel_images v _ 0%nat);
          [now apply np_shape_has_shape|].
        intros r y x Hr Hy Hx. now apply band_image_gray.
    + rewrite Hv0 in Hg4. inversion Hg4; subst scl.
      unfold field_shape in Hscl. rewrite Hv0 in Hscl.
      do 7 eexists. split; [exact Hrun|]. split; [exact Hscl|]. split.
      * unfold sentinel_2_fields.
        rewrite ?dict_get_set_other by discriminate. apply dict_get_set_same.
      * rewrite nmap_uint8_idem.
        apply (first_channel_images v _ 0%nat);
          [now apply np_shape_has_shape|].
        intros r y x Hr Hy Hx. now apply band_image_gray.
  - destruct Hk as [[? _]|[[_ ->]|[? _]]]; try discriminate.
    destruct Hbounds as (bs & Hb & He).
    destruct (run_neon loads item h d _ _ _ _ _ _ _ _ _ _ _ bs
                Hreg Hmeta Hrgb Hchm H1m Hb He)
      as (hp & l & rgb & chm & i1m & _ & _ & Hg2 & _ & Hrun).
    rewrite Hv0 in Hg2. inversion Hg2; subst chm.
    unfold field_shape in Hchm. rewrite Hv0 in Hchm.
    do 7 eexists. split; [exact Hrun|]. split; [exact Hchm|]. split.
    + unfold neon_fields.
      rewrite ?dict_get_set_other by discriminate. apply dict_get_set_same.
    + apply (first_channel_images v _ c2);
        [now apply np_shape_has_shape|]. intros; auto.
Qed.

Lemma gray_images_hold_first_channel_witness :
  valid_record sample_loads "sentinel_2" sample_sentinel_2
               sample_sentinel_2_heap
  /\ exists h' out imgs N C H W,
       item_to_images sample_loads "sentinel_2" sample_sentinel_2
                      sample_sentinel_2_heap = (h', Ok out)
       /\ np_shape (sample_field 2 1) = Some [N; C; H; W]%nat
       /\ dict_get out "scl" = Some (VImages imgs)
       /\ forall i y x, (i < N)%nat -> (y < H)%nat -> (x < W)%nat ->
            exists img z,
              nth_error imgs i = Some img
              /\ im_mode img = L
              /\ shape (im_array img) = [H; W]%nat
              /\ child x (child y (child 0 (child i (sample_field 2 1))))
                 = Scalar z
              /\ child x (child y (data (im_array img))) = Scalar (uint8 z).
Proof.
  split; [exact sample_sentinel_2_valid|].
  exact (gray_images_hold_first_channel sample_loads "sentinel_2"
           sample_sentinel_2 sample_sentinel_2_heap "scl" (sample_field 2 1)
           sample_sentinel_2_valid
           (or_intror (or_intror (conj eq_refl (or_intror eq_refl))))
           eq_refl).
Defined.

(** ** Failures *)

Lemma traverse_raise {A B} (f : A -> result B) (l : list A) e :
  (forall y, In y l -> (exists v, f y = Ok v) \/ f y = Raise e) ->
  Exists (fun y => f y = Raise e) l ->
  traverse f l = Raise e.
Proof.
  induction l as [|x l IH]; intros Hall Hex; [inversion Hex|].
  simpl. destruct (Hall x (or_introl eq_refl)) as [(v & Hv)|Hx].
  - rewrite Hv. rewrite IH; [reflexivity| |].
    + intros y Hy. apply Hall. now right.
    + inversion Hex as [? ? Hx|? ? Hl]; subst; [congruence|exact Hl].
  - now rewrite Hx.
Qed.

(** X9: a record without a "metadata" entry, or whose metadata text is
    not JSON, is rejected before any raster is looked at: the call
    raises [KeyError "metadata"], respectively [JSONDecodeError],
    whatever the subset and the rasters are, and the store is left as
    it was. *)
Theorem metadata_failure_precedes_rasters loads subset item h e :
  (metadata item = None /\ e = KeyError (JStr "metadata"))
  \/ (exists s, metadata item = Some (MetaStr s) /\ loads s = None
                /\ e = JSONDecodeError) ->
  item_to_images loads subset item h = (h, Raise e).
Proof.
  unfold item_to_images, mbind, load_metadata.
  intros [[-> ->]|(s & -> & Hs & ->)]; [reflexivity|].
  now rewrite Hs.
Qed.

Lemma metadata_failure_precedes_rasters_witness :
  item_to_images sample_loads "satellogic" sample_no_metadata []
  = ([], Raise (KeyError (JStr "metadata")))
  /\ item_to_images sample_loads "no_such_subset" sample_bad_metadata []
     = ([], Raise JSONDecodeError).
Proof.
  split.
  - apply (metadata_failure_precedes_rasters sample_loads "satellogic"
             sample_no_metadata []).
    left. split; reflexivity.
  - apply (metadata_failure_precedes_rasters sample_loads "no_such_subset"
             sample_bad_metadata []).
    right. exists "oops". repeat split; reflexivity.
Defined.

Lemma coerce_fields_ragged item meta k v :
  In (k, v) (rasters item) -> k <> "metadata" -> np_shape v = None ->
  coerce_fields item meta = Raise ValueError.
Proof.
  intros Hin Hk Hv. unfold coerce_fields.
  rewrite (traverse_raise _ _ ValueError); [reflexivity| |].
  - intros [k' v'] _. unfold np_asarray. cbn [snd fst].
    destruct (np_shape v'); [left; eexists; reflexivity|now right].
  - apply Exists_exists. exists (k, v). split.
    + apply filter_In. split; [exact Hin|]. cbn [fst].
      destruct (String.eqb_spec k "metadata"); [contradiction|reflexivity].
    + unfold np_asarray. cbn [snd]. now rewrite Hv.
Qed.

(** X10: a record one of whose rasters is not rectangular (nested lists
    of differing lengths) is rejected with [ValueError] for every
    subset name, known or not; no field is converted and the metadata
    mapping is as it was loaded. *)
Theorem ragged_raster_is_value_error loads subset item h d k v :
  metadata_dict loads item h = Some d ->
  In (k, v) (rasters item) -> k <> "metadata" -> np_shape v = None ->
  exists hp l,
    loaded loads item h d hp l
    /\ item_to_images loads subset item h = (hp, Raise ValueError).
Proof.
  intros Hmeta Hin Hk Hv.
  destruct (loaded_of_metadata_dict _ _ _ _ Hmeta) as (hp & l & Hl).
  exists hp, l. split; [exact Hl|].
  destruct Hl as (Hload & _ & _).
  unfold item_to_images, mbind. rewrite Hload. unfold lift.
  now rewrite (coerce_fields_ragged item (PDict l) k v Hin Hk Hv).
Qed.

Lemma ragged_raster_is_value_error_witness :
  metadata_dict sample_loads sample_ragged [] = Some []
  /\ np_shape (Seq [Seq [Scalar 1%Z]; Seq [Scalar 1%Z; Scalar 2%Z]]) = None
  /\ exists hp l,
       loaded sample_loads sample_ragged [] [] hp l
       /\ item_to_images sample_loads "satellogic" sample_ragged []
          = (hp, Raise ValueError).
Proof.
  split; [reflexivity|]. split; [reflexivity|].
  apply (ragged_raster_is_value_error sample_loads "satellogic"
           sample_ragged [] [] "rgb"
           (Seq [Seq [Scalar 1%Z]; Seq [Scalar 1%Z; Scalar 2%Z]])).
  - reflexivity.
  - left. reflexivity.
  - discriminate.
  - reflexivity.
Defined.

Lemma swap_items_odd (bs : list json) :
  Nat.Odd (length bs) -> swap_items bs = Raise IndexError.
Proof.
  intros [k Hk]. revert bs Hk.
  induction k as [|k IH]; intros bs Hk.
  - destruct bs as [|a [|b rest]]; try (simpl in Hk; lia). reflexivity.
  - destruct bs as [|a [|b rest]]; try (simpl in Hk; lia).
    assert (Hrest : swap_items rest = Raise IndexError)
      by (apply IH; simpl in Hk; lia).
    unfold swap_items. cbn [length]. rewrite range_by_2_SS.
    cbn [traverse seq]. cbn [py_index Nat.add Nat.sub nth_error].
    rewrite traverse_map.
    erewrite traverse_ext_in; [unfold swap_items in Hrest; rewrite Hrest|];
      [reflexivity|].
    intros i _. cbn [traverse seq py_index].
    replace (S (S i) + 1 - 0)%nat with (S (S (i + 1 - 0))) by lia.
    replace (S (S i) + 1 - 1)%nat with (S (S (i + 1 - 1))) by lia.
    reflexivity.
Qed.

Lemma swap_pairs_odd (bs : list json) :
  Nat.Odd (length bs) -> swap_pairs (JList bs) = Raise IndexError.
Proof.
  intros Ho. unfold swap_pairs. cbn [py_len rbind].
  pose proof (swap_items_odd bs Ho) as Hp. unfold swap_items in Hp.
  now rewrite Hp.
Qed.

(** X11: a neon record that is valid except that its "bounds" list has
    an odd number of items fails with [IndexError] (the comprehension
    reads one item past the end); the failure comes after the rasters
    were converted and before the metadata is written to, so the
    mapping keeps its "bounds" and "epsg" and gets no "count". *)
Theorem neon_odd_bounds_is_index_error
    loads item h d n1 h1 w1 n2 c2 h2 w2 n3 b3 h3 w3 bs :
  regular_fields item = true ->
  metadata_dict loads item h = Some d ->
  field_shape item "rgb" = Some [S n1; 3; S h1; S w1]%nat ->
  field_shape item "chm" = Some [S n2; S c2; S h2; S w2]%nat ->
  field_shape item "1m" = Some [S n3; b3; S h3; S w3]%nat ->
  dict_get d "bounds" = Some (JList bs) ->
  Nat.Odd (length bs) ->
  exists hp l,
    loaded loads item h d hp l
    /\ item_to_images loads "neon" item h = (hp, Raise IndexError).
Proof.
  intros Hreg Hmeta Hrgb Hchm H1m Hb Ho.
  destruct (loaded_of_metadata_dict _ _ _ _ Hmeta) as (hp & l & Hl).
  destruct (convert_neon_rasters_valid item (PDict l) _ _ _ _ _ _ _ _ _ _ _
              Hrgb Hchm H1m)
    as (rgb & chm & i1m & _ & _ & _ & Hconv).
  exists hp, l. split; [exact Hl|].
  destruct Hl as (Hload & Hget & _).
  unfold item_to_images, mbind. rewrite Hload. unfold lift at 1.
  rewrite (coerce_fields_regular _ _ Hreg).
  unfold convert_subset. cbn [String.eqb Ascii.eqb Bool.eqb].
  unfold convert_neon, mbind, lift. rewrite Hconv.
  unfold fix_neon_metadata, mbind, meta_getitem, lift, dict_getitem.
  rewrite Hget, Hb. now rewrite (swap_pairs_odd bs Ho).
Qed.

Lemma neon_odd_bounds_is_index_error_witness :
  Nat.Odd (length [JInt 1; JInt 2; JInt 3])
  /\ exists hp l,
       loaded sample_loads sample_neon sample_odd_bounds_heap
              [("bounds", JList [JInt 1; JInt 2; JInt 3]);
               ("epsg", JStr "EPSG:32611")] hp l
       /\ item_to_images sample_loads "neon" sample_neon
                         sample_odd_bounds_heap
          = (hp, Raise IndexError).
Proof.
  assert (Ho : Nat.Odd (length [JInt 1; JInt 2; JInt 3]))
    by (exists 1%nat; reflexivity).
  split; [exact Ho|].
  exact (neon_odd_bounds_is_index_error sample_loads sample_neon
           sample_odd_bounds_heap
           [("bounds", JList [JInt 1; JInt 2; JInt 3]);
            ("epsg", JStr "EPSG:32611")]
           0 1 1 0 0 1 1 0 2 1 1 [JInt 1; JInt 2; JInt 3]
           eq_refl eq_refl eq_refl eq_refl eq_refl eq_refl Ho).
Defined.

Lemma reparse_field_fails loads l h d field texts :
  heap_get h l = Some d ->
  dict_get d field = Some (JList (map JStr texts)) ->
  Exists (fun t => loads t = None) texts ->
  reparse_field loads (PDict l) field h = (h, Raise JSONDecodeError).
Proof.
  intros Hget Hfield Hex.
  unfold reparse_field, mbind, meta_getitem, lift, dict_getitem.
  rewrite Hget, Hfield. cbn [py_iter rbind].
  rewrite traverse_map.
  rewrite (traverse_raise _ _ JSONDecodeError); [reflexivity| |].
  - intros t _. unfold loads_value.
    destruct (loads t); [left; eexists; reflexivity|now right].
  - eapply Exists_impl; [|exact Hex].
    intros t Ht. unfold loads_value. now rewrite Ht.
Qed.

(** X12: the re-parsing of the optical metadata is not undone on
    failure.  When the texts of "solarAngles" decode and one text of
    "tileGeometry" does not, the call raises [JSONDecodeError] and the
    metadata mapping (the caller's own object when a mapping was passed
    in) is left with "solarAngles" already replaced by its decoded
    values and everything else as before. *)
Theorem optical_reparse_is_not_rolled_back
    loads item h d n1 h1 w1 n2 c2 h2 w2 n3 h3 w3 n4 h4 w4 t1 t2 :
  regular_fields item = true ->
  metadata_dict loads item h = Some d ->
  field_shape item "10m" = Some [S n1; 1; S (S h1); S (S w1)]%nat ->
  field_shape item "20m" = Some [S n2; 5 + c2; S (S h2); S (S w2)]%nat ->
  field_shape item "rgb" = Some [S n3; 3; S (S h3); S (S w3)]%nat ->
  field_shape item "scl" = Some [S n4; 1; S (S h4); S (S w4)]%nat ->
  dict_get d "solarAngles" = Some (JList (map JStr t1)) ->
  Forall (fun t => loads t <> None) t1 ->
  dict_get d "tileGeometry" = Some (JList (map JStr t2)) ->
  Exists (fun t => loads t = None) t2 ->
  exists hp l,
    loaded loads item h d hp l
    /\ item_to_images loads "sentinel_2" item h
       = (heap_put hp l
            (dict_set d "solarAngles" (JList (map (decoded loads) t1))),
          Raise JSONDecodeError).
Proof.
  intros Hreg Hmeta H10 H20 Hrgb Hscl Hf1 Ha1 Hf2 Hex.
  destruct (loaded_of_metadata_dict _ _ _ _ Hmeta) as (hp & l & Hl).
  destruct (convert_bands_valid item (PDict l) _ _ _ _ _ _ _ _ _ _ _ _ _
              H10 H20 Hrgb Hscl)
    as (i10m & i20m & rgb & scl & _ & _ & _ & _ & Hconv).
  exists hp, l. split; [exact Hl|].
  destruct Hl as (Hload & Hget & _).
  unfold item_to_images, mbind. rewrite Hload. unfold lift at 1.
  rewrite (coerce_fields_regular _ _ Hreg).
  unfold convert_subset. cbn [String.eqb Ascii.eqb Bool.eqb].
  unfold convert_sentinel_2, mbind, lift. rewrite Hconv.
  cbn [for_each]. unfold mbind.
  rewrite (reparse_field_texts loads l hp d _ t1 Hget Hf1 Ha1).
  erewrite reparse_field_fails with (texts := t2);
    [ reflexivity
    | eapply heap_get_put_same; exact Hget
    | rewrite dict_get_set_other by discriminate; exact Hf2
    | exact Hex ].
Qed.

Lemma optical_reparse_is_not_rolled_back_witness :
  Exists (fun t => sample_loads t = None) ["[]"; "oops"]
  /\ exists hp l,
       loaded sample_loads sample_sentinel_2 sample_bad_geometry_heap
              [("solarAngles", JList [JStr "{}"]);
               ("tileGeometry", JList [JStr "[]"; JStr "oops"]);
               ("viewIncidenceAngles", JList [])] hp l
       /\ item_to_images sample_loads "sentinel_2" sample_sentinel_2
                         sample_bad_geometry_heap
          = (heap_put hp l
               (dict_set [("solarAngles", JList [JStr "{}"]);
                          ("tileGeometry", JList [JStr "[]"; JStr "oops"]);
                          ("viewIncidenceAngles", JList [])]
                  "solarAngles"
                  (JList (map (decoded sample_loads) ["{}"]))),
             Raise JSONDecodeError).
Proof.
  assert (Hex : Exists (fun t => sample_loads t = None) ["[]"; "oops"])
    by (right; left; reflexivity).
  split; [exact Hex|].
  refine (optical_reparse_is_not_rolled_back sample_loads sample_sentinel_2
            sample_bad_geometry_heap
            [("solarAngles", JList [JStr "{}"]);
             ("tileGeometry", JList [JStr "[]"; JStr "oops"]);
             ("viewIncidenceAngles", JList [])]
            0 0 0 0 0 0 0 0 0 0 1 0 0 ["{}"] ["[]"; "oops"]
            eq_refl eq_refl eq_refl eq_refl eq_refl eq_refl eq_refl _
            eq_refl Hex).
  repeat constructor. discriminate.
Defined.

(* ===================================================================== *)
(** * Further properties of [load_dataset] and the shard names *)
(* ===================================================================== *)

Lemma digits_value_string_of_uint d :
  digits_value (NilZero.string_of_uint d) = Some (N.of_uint d).
Proof.
  unfold digits_value. destruct d; try reflexivity;
    unfold NilZero.string_of_uint; now rewrite NilEmpty.usu.
Qed.

Lemma digits_value_digits n : digits_value (digits n) = Some n.
Proof.
  unfold digits. rewrite digits_value_string_of_uint.
  now rewrite DecimalN.Unsigned.of_to.
Qed.

Lemma digits_value_zeros k s n :
  digits_value s = Some n -> digits_value (zeros k ++ s) = Some n.
Proof.
  intros Hs. induction k as [|k IH]; [exact Hs|].
  unfold digits_value in *. cbn [zeros append NilEmpty.uint_of_string].
  destruct (NilEmpty.uint_of_string (zeros k ++ s)) as [d|]; [|discriminate].
  exact IH.
Qed.

Lemma digits_value_minus s : digits_value (String "-" s) = None.
Proof.
  unfold digits_value. cbn [NilEmpty.uint_of_string].
  now destruct (NilEmpty.uint_of_string s).
Qed.

(** Reading a formatted integer back gives the integer. *)
Lemma int_value_format_05d z : int_value (format_05d z) = Some z.
Proof.
  unfold format_05d, int_value.
  destruct (z <? 0) eqn:E.
  - cbn [append]. rewrite digits_value_minus.
    rewrite (digits_value_zeros _ _ _ (digits_value_digits _)).
    f_equal. apply Z.ltb_lt in E. rewrite N2Z.inj_abs_N. lia.
  - rewrite (digits_value_zeros _ _ _ (digits_value_digits _)).
    f_equal. apply Z.ltb_ge in E. rewrite N2Z.inj_abs_N. lia.
Qed.

Lemma int_value_format_d z : int_value (format_d z) = Some z.
Proof.
  unfold format_d, int_value.
  destruct (z <? 0) eqn:E.
  - cbn [append]. rewrite digits_value_minus, digits_value_digits.
    f_equal. apply Z.ltb_lt in E. rewrite N2Z.inj_abs_N. lia.
  - rewrite digits_value_digits.
    f_equal. apply Z.ltb_ge in E. rewrite N2Z.inj_abs_N. lia.
Qed.

Lemma format_05d_inj a b : format_05d a = format_05d b -> a = b.
Proof.
  intros H. pose proof (int_value_format_05d a) as Ha.
  rewrite H, int_value_format_05d in Ha. congruence.
Qed.

Lemma format_d_inj a b : format_d a = format_d b -> a = b.
Proof.
  intros H. pose proof (int_value_format_d a) as Ha.
  rewrite H, int_value_format_d in Ha. congruence.
Qed.

Lemma no_slash_string_of_uint d : no_slash (NilEmpty.string_of_uint d).
Proof.
  induction d; cbn [NilEmpty.string_of_uint no_slash]; auto;
    (split; [discriminate|assumption]).
Qed.

Lemma no_slash_format_d z : no_slash (format_d z).
Proof.
  assert (Hd : forall n, no_slash (digits n)).
  { intros n. unfold digits, NilZero.string_of_uint.
    destruct (N.to_uint n); try apply no_slash_string_of_uint.
    split; [discriminate|exact I]. }
  unfold format_d. destruct (z <? 0); [|apply Hd].
  cbn [append no_slash]. split; [discriminate|apply Hd].
Qed.

Lemma append_inj_l (s a b : string) : s ++ a = s ++ b -> a = b.
Proof.
  induction s as [|c s IH]; cbn [append]; intros H; [exact H|].
  inversion H. auto.
Qed.

Lemma length_append (a b : string) :
  String.length (a ++ b) = (String.length a + String.length b)%nat.
Proof. induction a as [|c a IH]; cbn [append String.length]; lia. Qed.

Lemma append_inj_r (a b s : string) : a ++ s = b ++ s -> a = b.
Proof.
  revert b. induction a as [|c a IH]; intros [|c' b] H; cbn [append] in H.
  - reflexivity.
  - apply (f_equal String.length) in H. cbn [String.length] in H.
    rewrite length_append in H. lia.
  - apply (f_equal String.length) in H. cbn [String.length] in H.
    rewrite length_append in H. lia.
  - inversion H. f_equal. auto.
Qed.

(** Two strings without a slash that are followed by a slash end at
    the same place. *)
Lemma append_slash_inj (a b x y : string) :
  no_slash a -> no_slash b ->
  a ++ String "/" x = b ++ String "/" y -> a = b /\ x = y.
Proof.
  revert b. induction a as [|c a IH]; intros [|c' b] Ha Hb H;
    cbn [append no_slash] in *.
  - inversion H. auto.
  - inversion H; subst c'. now destruct Hb.
  - inversion H; subst c. now destruct Ha.
  - inversion H; subst c'. destruct Ha as [_ Ha], Hb as [_ Hb].
    destruct (IH b Ha Hb) as [-> ->]; auto.
Qed.

Lemma load_dataset_known subset dataset split shard_list streaming d :
  dict_get sets subset = Some d ->
  load_dataset subset dataset split shard_list streaming
  = Ok (mk_load_request dataset
          (match config d with Some c => c | None => subset end) split
          (match shard_list with
           | None => None
           | Some l =>
               Some [(split,
                      if String.eqb subset "sentinel_2"
                      then map (fun shard =>
                             (match path d with Some p => p | None => subset end)
                             ++ "/sentinel_2-" ++ format_d (shard / 10) ++ "/"
                             ++ split ++ "-" ++ format_05d (shard mod 10)
                             ++ "-of-00010.parquet") l
                      else map (fun shard =>
                             (match path d with Some p => p | None => subset end)
                             ++ "/" ++ split ++ "-" ++ format_05d shard
                             ++ "-of-" ++ format_05d (shards d) ++ ".parquet")
                             l)]
           end)
          streaming).
Proof.
  intros Hd.
  unfold load_dataset, get_config, get_nshards, get_path, sets_getitem,
    dict_getitem.
  rewrite Hd. reflexivity.
Qed.

Lemma load_dataset_unknown subset dataset split shard_list streaming :
  dict_get sets subset = None ->
  load_dataset subset dataset split shard_list streaming
  = Raise (KeyError (JStr subset)).
Proof.
  intros Hd.
  unfold load_dataset, get_config, sets_getitem, dict_getitem.
  rewrite Hd. reflexivity.
Qed.

Lemma dict_get_key {V} (d : dict V) (k : string) :
  (In k (map fst d) -> exists v, dict_get d k = Some v)
  /\ (~ In k (map fst d) -> dict_get d k = None).
Proof.
  induction d as [|[k' v'] d [IHin IHout]]; cbn [map fst In dict_get].
  - split; [contradiction|reflexivity].
  - destruct (String.eqb_spec k k') as [->|Hne].
    + split; [eauto|]. intros H. exfalso. apply H. now left.
    + split.
      * intros [H|H]; [congruence|auto].
      * intros H. apply IHout. intros Hin. apply H. now right.
Qed.

Lemma dict_get_sets subset :
  (In subset get_subsets -> exists d, dict_get sets subset = Some d)
  /\ (~ In subset get_subsets -> dict_get sets subset = None).
Proof. exact (dict_get_key sets subset). Qed.

(** X13: [load_dataset] builds a request exactly for the four subset
    names of the table.  For those it passes the dataset, split and
    streaming arguments through, names the configuration [get_config]
    gives, and sends no file list when no shards are asked for; for any
    other name it raises [KeyError] with that name, whatever the other
    arguments are. *)
Theorem load_dataset_known_subsets_only
    subset dataset split shard_list streaming :
  (In subset get_subsets ->
     exists req,
       load_dataset subset dataset split shard_list streaming = Ok req
       /\ req_path req = dataset
       /\ get_config subset = Ok (req_name req)
       /\ req_split req = split
       /\ req_streaming req = streaming
       /\ (shard_list = None -> req_data_files req = None))
  /\ (~ In subset get_subsets ->
        load_dataset subset dataset split shard_list streaming
        = Raise (KeyError (JStr subset))).
Proof.
  destruct (dict_get_sets subset) as [Hin Hout]. split.
  - intros H. destruct (Hin H) as (d & Hd).
    eexists. split; [exact (load_dataset_known _ _ _ _ _ d Hd)|].
    cbn [req_path req_name req_split req_streaming req_data_files].
    split; [reflexivity|]. split.
    + unfold get_config, sets_getitem, dict_getitem. now rewrite Hd.
    + split; [reflexivity|]. split; [reflexivity|]. now intros ->.
  - intros H. apply load_dataset_unknown. auto.
Qed.

(** X14: two different shard numbers never name the same file: whenever
    [load_dataset] answers a request for the shards [a] and [b] with
    [a <> b], the two file names it sends differ.  This holds for every
    subset (flat and two-level layout) and every integer, also outside
    the subset's shard range. *)
Theorem distinct_shards_distinct_files
    subset dataset split streaming a b req :
  load_dataset subset dataset split (Some [a; b]) streaming = Ok req ->
  a <> b ->
  exists fa fb,
    req_data_files req = Some [(split, [fa; fb])] /\ fa <> fb.
Proof.
  intros Hreq Hab.
  destruct (dict_get sets subset) as [d|] eqn:Hd.
  - rewrite (load_dataset_known _ _ _ _ _ d Hd) in Hreq.
    inversion Hreq; subst req; clear Hreq.
    cbn [req_data_files].
    destruct (String.eqb subset "sentinel_2"); cbn [map];
      eexists; eexists; (split; [reflexivity|]); intros Heq; apply Hab.
    + apply append_inj_l in Heq.
      change ("/sentinel_2-" ++ ?x) with ("/sentinel_2-" ++ x) in Heq.
      apply (append_inj_l "/sentinel_2-") in Heq.
      apply append_slash_inj in Heq as [Hq Hr];
        try apply no_slash_format_d.
      apply format_d_inj in Hq.
      apply append_inj_l in Hr.
      apply (append_inj_l "-") in Hr.
      apply append_inj_r in Hr. apply format_05d_inj in Hr.
      rewrite (Z.div_mod a 10), (Z.div_mod b 10) by lia. congruence.
    + apply append_inj_l in Heq.
      apply (append_inj_l "/") in Heq.
      apply append_inj_l in Heq.
      apply (append_inj_l "-") in Heq.
      apply append_inj_r in Heq. now apply format_05d_inj.
  - rewrite (load_dataset_unknown _ _ _ _ _ Hd) in Hreq. discriminate.
Qed.

Lemma distinct_shards_distinct_files_witness :
  load_dataset "sentinel_2" DATASET "train" (Some [5; 15]) true
  = Ok (mk_load_request DATASET "sentinel_2" "train"
          (Some [("train",
                  ["sentinel_2/sentinel_2-0/train-00005-of-00010.parquet";
                   "sentinel_2/sentinel_2-1/train-00005-of-00010.parquet"])])
          true)
  /\ exists fa fb,
       req_data_files
         (mk_load_request DATASET "sentinel_2" "train"
            (Some [("train",
                    ["sentinel_2/sentinel_2-0/train-00005-of-00010.parquet";
                     "sentinel_2/sentinel_2-1/train-00005-of-00010.parquet"])])
            true)
       = Some [("train", [fa; fb])] /\ fa <> fb.
Proof.
  split; [reflexivity|].
  apply (distinct_shards_distinct_files "sentinel_2" DATASET "train" true
           5 15).
  - reflexivity.
  - discriminate.
Defined.

(* ===================================================================== *)
(** * Further properties: [download_images.py] *)
(* ===================================================================== *)

(** X15: the shard URL the download script formats is the dataset's
    download prefix followed by the very file name [load_dataset] sends
    for that shard of the "satellogic" subset (same split, same
    five-digit fields); the script's shard total is the table's shard
    count, and the fallback URL is the URL of shard 0. *)
Theorem shard_url_matches_load_dataset (shard_idx : Z) (streaming : bool) :
  exists req file,
    load_dataset "satellogic" DATASET "train" (Some [shard_idx]) streaming
    = Ok req
    /\ req_data_files req = Some [("train", [file])]
    /\ shard_path shard_idx
       = "https://huggingface.co/datasets/" ++ DATASET ++ "/resolve/main/"
         ++ file
    /\ get_nshards "satellogic" = Ok total_shards
    /\ fallback_shard_path = shard_path 0.
Proof.
  eexists. eexists. split; [reflexivity|]. split; [reflexivity|].
  split; [reflexivity|]. split; reflexivity.
Qed.

Lemma in_uint8_nmap : forall a : nested Z,
  in_uint8 a = true -> nmap uint8 a = a.
Proof.
  fix IH 1. intros [z|l] Hin; cbn [nmap in_uint8] in *.
  - apply andb_prop in Hin as [H0 H1].
    apply Z.leb_le in H0. apply Z.ltb_lt in H1.
    unfold uint8. now rewrite Z.mod_small by lia.
  - f_equal. induction l as [|a l IHl]; [reflexivity|].
    cbn [forallb map] in *. apply andb_prop in Hin as [Ha Hl].
    f_equal; [now apply IH|now apply IHl].
Qed.

Lemma narrow_items_in_range (narrow : Z -> result Z) :
  (forall z, 0 <= z < 256 -> narrow z = Ok z) ->
  forall a : nested Z, in_uint8 a = true -> narrow_items narrow a = Ok a.
Proof.
  intros Hn. fix IH 1. intros [z|l] Hin; cbn [narrow_items in_uint8] in *.
  - apply andb_prop in Hin as [H0 H1].
    apply Z.leb_le in H0. apply Z.ltb_lt in H1.
    now rewrite Hn by lia.
  - match goal with
    | |- match ?go l with _ => _ end = _ =>
        assert (Hgo : go l = Ok l); [|now rewrite Hgo]
    end.
    induction l as [|a l IHl]; [reflexivity|].
    cbn [forallb] in Hin. apply andb_prop in Hin as [Ha Hl].
    rewrite (IH a Ha), (IHl Hl). reflexivity.
Qed.

Lemma in_uint8_child (a : nested Z) k :
  in_uint8 a = true -> (k < length (unseq a))%nat ->
  in_uint8 (child k a) = true.
Proof.
  destruct a as [z|l]; cbn [unseq length]; [lia|].
  cbn [in_uint8]. intros Hall Hk. rewrite forallb_forall in Hall.
  apply Hall. unfold child. cbn [unseq]. now apply nth_In.
Qed.

Lemma zip_with3_nth {A B C D} (f : A -> B -> C -> D) da db dc :
  forall n (l1 : list A) (l2 : list B) (l3 : list C),
  length l1 = n -> length l2 = n -> length l3 = n ->
  zip_with3 f l1 l2 l3
  = map (fun j => f (nth j l1 da) (nth j l2 db) (nth j l3 dc)) (seq 0 n).
Proof.
  induction n as [|n IH]; intros [|x l1] [|y l2] [|z l3] H1 H2 H3;
    try discriminate; [reflexivity|].
  cbn [zip_with3 seq map nth]. f_equal.
  rewrite <- seq_shift, map_map.
  simpl in H1, H2, H3. rewrite (IH l1 l2 l3) by lia. reflexivity.
Qed.

(** Stacking three planes along a new last axis gives the channel-last
    contents of the three planes. *)
Lemma stack_is_hwc {A} (c0 c1 c2 : nested A) H W :
  has_shape [H; W] c0 -> has_shape [H; W] c1 -> has_shape [H; W] c2 ->
  Seq (zip_with3
         (fun rr gr br =>
            Seq (zip_with3 (fun x y z => Seq [x; y; z])
                   (unseq rr) (unseq gr) (unseq br)))
         (unseq c0) (unseq c1) (unseq c2))
  = hwc H W (Seq [c0; c1; c2]).
Proof.
  intros H0 H1 H2.
  assert (Hall : Forall (has_shape [H; W]) [c0; c1; c2])
    by (repeat constructor; assumption).
  rewrite hwc_expand. cbn [unseq]. f_equal.
  rewrite (zip_with3_nth _ (Seq []) (Seq []) (Seq []) H)
    by (eapply has_shape_rows; eassumption).
  apply map_ext_in. intros j Hj. apply in_seq in Hj. f_equal.
  fold (child j c0) (child j c1) (child j c2).
  rewrite (zip_with3_nth _ (Seq []) (Seq []) (Seq []) W)
    by (eapply has_shape_rows; eapply has_shape_child;
        [eassumption|lia]).
  apply map_ext_in. intros i Hi. apply in_seq in Hi. f_equal.
  rewrite (column_column [c0; c1; c2] H W j i Hall) by lia.
  reflexivity.
Qed.

Lemma is_2d_channel_shape {A} (c : nested A) H W :
  np_shape c = Some [S H; W]%nat -> is_2d_channel c = true.
Proof.
  intros Hs. apply np_shape_children in Hs as (rows & -> & Hlen & Hall).
  destruct rows as [|row rows]; [discriminate|].
  unfold is_2d_channel. apply forallb_forall. intros r Hr.
  rewrite Forall_forall in Hall. specialize (Hall r Hr).
  apply np_shape_children in Hall as (l & -> & _). reflexivity.
Qed.

(** The "rgb" field of a valid record of the three subsets that have
    one. *)
Lemma rgb_field_images loads subset item h v :
  valid_record loads subset item h ->
  subset <> "sentinel_1" ->
  dict_get (rasters item) "rgb" = Some v ->
  exists h' out N H W,
    item_to_images loads subset item h = (h', Ok out)
    /\ np_shape v = Some [S N; 3; S H; S W]%nat
    /\ dict_get out "rgb"
       = Some (VImages
                 (map (fun r => mk_Image RGB
                                  (mk_ndarray [S H; S W; 3]%nat
                                     (hwc (S H) (S W) r)))
                      (unseq (nmap uint8 v)))).
Proof.
  intros Hv Hsub Hv0.
  destruct Hv as
    [ item h d n1 h1 w1 n2 c2 h2 w2 Hreg Hmeta Hrgb H1m
    | item h d n1 h1 w1 Hreg Hmeta H10
    | item h d n1 h1 w1 n2 c2 h2 w2 n3 h3 w3 n4 h4 w4
        Hreg Hmeta H10 H20 Hrgb Hscl Ht1 Ht2 Ht3
    | item h d n1 h1 w1 n2 c2 h2 w2 n3 b3 h3 w3
        Hreg Hmeta Hrgb Hchm H1m Hbounds ].
  - destruct (run_satellogic loads item h d _ _ _ _ _ _ _ Hreg Hmeta Hrgb H1m)
      as (hp & l & rgb & i1m & _ & Hg1 & _ & Hrun).
    rewrite Hv0 in Hg1. inversion Hg1; subst rgb.
    unfold field_shape in Hrgb. rewrite Hv0 in Hrgb.
    do 5 eexists. split; [exact Hrun|]. split; [exact Hrgb|].
    unfold satellogic_fields.
    rewrite ?dict_get_set_other by discriminate. apply dict_get_set_same.
  - congruence.
  - destruct (run_sentinel_2 loads item h d _ _ _ _ _ _ _ _ _ _ _ _ _
                Hreg Hmeta H10 H20 Hrgb Hscl Ht1 Ht2 Ht3)
      as (hp & l & i10m & i20m & rgb & scl & t1 & t2 & t3
          & _ & _ & _ & Hg3 & _ & Hrun).
    rewrite Hv0 in Hg3. inversion Hg3; subst rgb.
    unfold field_shape in Hrgb. rewrite Hv0 in Hrgb.
    do 5 eexists. split; [exact Hrun|]. split; [exact Hrgb|].
    unfold sentinel_2_fields.
    rewrite ?dict_get_set_other by discriminate.
    rewrite dict_get_set_same, nmap_uint8_idem. do 2 f_equal.
    apply map_ext. intros r. unfold band_image. now rewrite squeeze_hwc_3.
  - destruct Hbounds as (bs & Hb & He).
    destruct (run_neon loads item h d _ _ _ _ _ _ _ _ _ _ _ bs
                Hreg Hmeta Hrgb Hchm H1m Hb He)
      as (hp & l & rgb & chm & i1m & _ & Hg1 & _ & _ & Hrun).
    rewrite Hv0 in Hg1. inversion Hg1; subst rgb.
    unfold field_shape in Hrgb. rewrite Hv0 in Hrgb.
    do 5 eexists. split; [exact Hrun|]. split; [exact Hrgb|].
    unfold neon_fields.
    rewrite ?dict_get_set_other by discriminate. apply dict_get_set_same.
Qed.

(** X16: on a valid record with an "rgb" field whose first revisit holds
    bytes (0..255), the download script's [process_example] returns
    exactly the first "rgb" image that [item_to_images] produces for
    the record: stacking the three channel planes and transposing the
    revisit give the same picture.  The uint8 conversion is only
    assumed to keep bytes as they are. *)
Theorem process_example_agrees_with_item_to_images
    (narrow : Z -> result Z) loads subset item h v :
  (forall z, 0 <= z < 256 -> narrow z = Ok z) ->
  valid_record loads subset item h ->
  subset <> "sentinel_1" ->
  dict_get (rasters item) "rgb" = Some v ->
  in_uint8 (child 0 v) = true ->
  exists h' out imgs img,
    item_to_images loads subset item h = (h', Ok out)
    /\ dict_get out "rgb" = Some (VImages imgs)
    /\ nth_error imgs 0 = Some img
    /\ process_example narrow item = Ok (Some img).
Proof.
  intros Hn Hv Hsub Hv0 Hbytes.
  destruct (rgb_field_images loads subset item h v Hv Hsub Hv0)
    as (h' & out & N & H & W & Hrun & Hshape & Hout).
  destruct (np_shape_children _ _ _ Hshape) as (l & -> & Hlen & Hall).
  destruct l as [|r0 rest]; [discriminate|].
  apply Forall_inv in Hall. unfold child in Hbytes. cbn [unseq nth] in Hbytes.
  exists h', out. eexists.
  exists (mk_Image RGB (mk_ndarray [S H; S W; 3]%nat (hwc (S H) (S W) r0))).
  split; [exact Hrun|]. split; [exact Hout|].
  cbn [nmap map unseq nth_error].
  rewrite (in_uint8_nmap r0 Hbytes).
  split; [reflexivity|].
  pose proof (np_shape_has_shape _ _ Hall) as Hs0.
  destruct (np_shape_children _ _ _ Hall) as (first & -> & Hlen3 & Hch).
  destruct first as [|c0 [|c1 [|c2 [|c3 first]]]]; try discriminate.
  inversion Hch as [|? ? Hc0 Hch1]; subst.
  inversion Hch1 as [|? ? Hc1 Hch2]; subst.
  inversion Hch2 as [|? ? Hc2 _]; subst.
  cbn [in_uint8 forallb] in Hbytes.
  apply andb_prop in Hbytes as [Hb0 Hbytes].
  apply andb_prop in Hbytes as [Hb1 Hbytes].
  apply andb_prop in Hbytes as [Hb2 _].
  unfold process_example. rewrite Hv0.
  cbn [length Nat.ltb Nat.leb firstn forallb nth].
  rewrite (is_2d_channel_shape c0 H (S W) Hc0),
          (is_2d_channel_shape c1 H (S W) Hc1),
          (is_2d_channel_shape c2 H (S W) Hc2).
  cbn [andb negb]. unfold np_array_uint8.
  rewrite Hc0, Hc1, Hc2.
  rewrite !(narrow_items_in_range narrow Hn) by assumption.
  cbn [rbind shape]. rewrite shape_eqb_refl. cbn [negb orb].
  unfold np_stack_2. cbn [shape data rbind fromarray].
  do 4 f_equal.
  destruct Hs0 as [_ Hs0].
  inversion Hs0 as [|? ? Hp0 Hs1]; subst.
  inversion Hs1 as [|? ? Hp1 Hs2]; subst.
  inversion Hs2 as [|? ? Hp2 _]; subst.
  now apply stack_is_hwc.
Qed.

Lemma process_example_agrees_with_item_to_images_witness :
  valid_record sample_loads "satellogic" sample_satellogic []
  /\ in_uint8 (child 0 (sample_field 1 3)) = true
  /\ exists h' out imgs img,
       item_to_images sample_loads "satellogic" sample_satellogic []
       = (h', Ok out)
       /\ dict_get out "rgb" = Some (VImages imgs)
       /\ nth_error imgs 0 = Some img
       /\ process_example narrow_wrapping sample_satellogic = Ok (Some img).
Proof.
  split; [exact sample_satellogic_valid|]. split; [reflexivity|].
  apply (process_example_agrees_with_item_to_images narrow_wrapping
           sample_loads "satellogic" sample_satellogic [] (sample_field 1 3)).
  - intros z Hz. unfold narrow_wrapping, uint8.
    now rewrite Z.mod_small by lia.
  - exact sample_satellogic_valid.
  - discriminate.
  - reflexivity.
  - reflexivity.
Defined.

(** X17: whatever the record and the uint8 conversion are,
    [process_example] never returns anything but an RGB image with a
    last axis of size 3: a field with more axes, or channels of
    different shapes, gives [None] or an exception, never a picture of
    another mode. *)
Theorem process_example_returns_rgb
    (narrow : Z -> result Z) (example : record) (img : Image) :
  process_example narrow example = Ok (Some img) ->
  im_mode img = RGB
  /\ exists H W, shape (im_array img) = [H; W; 3]%nat.
Proof.
  unfold process_example. intros Hp.
  destruct (dict_get (rasters example) "rgb")
    as [[z|[|[z|first] rest]]|]; try discriminate.
  destruct (length first <? 3)%nat; [discriminate|].
  destruct (negb (forallb is_2d_channel (firstn 3 first))); [discriminate|].
  destruct (np_array_uint8 narrow (nth 0 (firstn 3 first) (Seq [])))
    as [r|]; [|discriminate].
  destruct (np_array_uint8 narrow (nth 1 (firstn 3 first) (Seq [])))
    as [g|]; [|discriminate].
  destruct (np_array_uint8 narrow (nth 2 (firstn 3 first) (Seq [])))
    as [b|]; [|discriminate].
  cbn [rbind] in Hp.
  destruct (negb (shape_eqb (shape r) (shape g))
            || negb (shape_eqb (shape g) (shape b))); [discriminate|].
  unfold np_stack_2 in Hp.
  destruct (shape r) as [|hh [|ww s]]; try discriminate.
  cbn [rbind] in Hp. unfold fromarray in Hp. cbn [shape] in Hp.
  destruct s as [|k s]; [|discriminate].
  cbn [rbind] in Hp. inversion Hp. cbn [im_mode im_array shape]. eauto.
Qed.

Lemma process_example_returns_rgb_witness :
  exists img,
    process_example narrow_wrapping sample_satellogic = Ok (Some img)
    /\ im_mode img = RGB
    /\ exists H W, shape (im_array img) = [H; W; 3]%nat.
Proof.
  eexists. split; [reflexivity|].
  apply (process_example_returns_rgb narrow_wrapping sample_satellogic).
  reflexivity.
Defined.

(* ===================================================================== *)
(** * Further properties: [load_parquet] *)
(* ===================================================================== *)

(** X18: [load_parquet] never opens a file whose name is one of the
    subset names: such an argument is always redirected to
    "dataset/<subset>/sample.parquet", every other argument is used as
    the file name unchanged, and resolving a resolved name changes
    nothing. *)
Theorem parquet_filename_is_never_a_subset_name (s : string) :
  ~ In (parquet_filename s) get_subsets
  /\ (In s get_subsets ->
        parquet_filename s = "dataset/" ++ s ++ "/sample.parquet")
  /\ (~ In s get_subsets -> parquet_filename s = s)
  /\ parquet_filename (parquet_filename s) = parquet_filename s.
Proof.
  assert (Hex : forall t, existsb (String.eqb t) get_subsets = true
                          <-> In t get_subsets).
  { intros t. rewrite existsb_exists. split.
    - intros (x & Hx & E). apply String.eqb_eq in E. now subst.
    - intros Hin. exists t. split; [exact Hin|apply String.eqb_refl]. }
  assert (Hout : forall t, ~ In t get_subsets -> parquet_filename t = t).
  { intros t Ht. unfold parquet_filename.
    destruct (existsb (String.eqb t) get_subsets) eqn:E; [|reflexivity].
    apply Hex in E. contradiction. }
  assert (Hin : forall t, In t get_subsets ->
                  parquet_filename t = "dataset/" ++ t ++ "/sample.parquet").
  { intros t Ht. unfold parquet_filename.
    apply Hex in Ht. now rewrite Ht. }
  assert (Hno : ~ In ("dataset/" ++ s ++ "/sample.parquet") get_subsets).
  { intros [H|[H|[H|[H|[]]]]]; discriminate. }
  destruct (in_dec string_dec s get_subsets) as [Hs|Hs].
  - rewrite (Hin s Hs). split; [exact Hno|]. split; [reflexivity|].
    split; [contradiction|]. now apply Hout.
  - rewrite (Hout s Hs). split; [exact Hs|]. split; [contradiction|].
    split; [reflexivity|]. now apply Hout.
Qed.

(* ===================================================================== *)
(** * Further properties: every returned value is a byte *)
(* ===================================================================== *)

Section Leaves.
Variable A : Type.
Variable P : A -> Prop.
Implicit Types (a x : nested A) (l rows : list (nested A)).

Lemma leaves_seq l :
  Forall P (leaves (Seq l)) <-> Forall (fun x => Forall P (leaves x)) l.
Proof. cbn [leaves]. apply Forall_flat_map. Qed.

Lemma leaves_unseq a :
  Forall P (leaves a) -> Forall (fun x => Forall P (leaves x)) (unseq a).
Proof. destruct a as [z|l]; [constructor|apply leaves_seq]. Qed.

Lemma leaves_child k a :
  Forall P (leaves a) -> Forall P (leaves (child k a)).
Proof.
  intros H. apply leaves_unseq in H. unfold child.
  destruct (nth_in_or_default k (unseq a) (Seq [])) as [Hin|Hd].
  - rewrite Forall_forall in H. auto.
  - rewrite Hd. constructor.
Qed.

Lemma leaves_column j rows :
  Forall (fun x => Forall P (leaves x)) rows ->
  Forall (fun x => Forall P (leaves x)) (column j rows).
Proof.
  unfold column. induction 1 as [|r rows Hr _ IH]; cbn [flat_map];
    [constructor|].
  apply Forall_app. split; [|exact IH].
  destruct (nth_error (unseq r) j) as [x|] eqn:E; [|constructor].
  constructor; [|constructor].
  apply nth_error_In in E. apply leaves_unseq in Hr.
  rewrite Forall_forall in Hr. auto.
Qed.

Lemma leaves_swap01 m a :
  Forall P (leaves a) -> Forall P (leaves (swap01 m a)).
Proof.
  intros H. unfold swap01. apply leaves_seq, Forall_map, Forall_forall.
  intros j _. apply leaves_seq, leaves_column. now apply leaves_unseq.
Qed.

Lemma leaves_map (f : nested A -> nested A) a :
  (forall x, Forall P (leaves x) -> Forall P (leaves (f x))) ->
  Forall P (leaves a) -> Forall P (leaves (Seq (map f (unseq a)))).
Proof.
  intros Hf H. apply leaves_seq, Forall_map.
  eapply Forall_impl; [exact Hf|]. now apply leaves_unseq.
Qed.

Lemma leaves_hwc h w a :
  Forall P (leaves a) -> Forall P (leaves (hwc h w a)).
Proof.
  intros H. unfold hwc. apply leaves_map; [apply leaves_swap01|].
  now apply leaves_swap01.
Qed.

Lemma leaves_squeeze_data s : forall a,
  Forall P (leaves a) -> Forall P (leaves (squeeze_data s a)).
Proof.
  induction s as [|n s IH]; intros a H; [exact H|].
  destruct n as [|[|n]]; cbn [squeeze_data].
  - apply leaves_map; auto.
  - apply IH. now apply leaves_child.
  - apply leaves_map; auto.
Qed.

Lemma leaves_join x y :
  Forall P (leaves x) -> Forall P (leaves y) -> Forall P (leaves (join x y)).
Proof.
  intros Hx Hy. unfold join. apply leaves_seq, Forall_app.
  split; now apply leaves_unseq.
Qed.

Lemma leaves_zip_join l l' :
  Forall (fun x => Forall P (leaves x)) l ->
  Forall (fun x => Forall P (leaves x)) l' ->
  Forall (fun x => Forall P (leaves x)) (zip_with join l l').
Proof.
  intros Hl. revert l'. induction Hl as [|x l Hx _ IH]; intros l' Hl';
    [constructor|].
  destruct Hl' as [|y l' Hy Hl']; cbn [zip_with]; [constructor|].
  constructor; [now apply leaves_join|now apply IH].
Qed.

End Leaves.

Lemma leaves_nmap {A B} (P : B -> Prop) (g : A -> B) :
  (forall x, P (g x)) -> forall a, Forall P (leaves (nmap g a)).
Proof.
  intros Hg. fix IH 1. intros [x|l]; cbn [nmap leaves].
  - constructor; [apply Hg|constructor].
  - induction l as [|a l IHl]; cbn [map flat_map]; [constructor|].
    apply Forall_app. split; [apply IH|exact IHl].
Qed.

Lemma uint8_values_nmap_uint8 (v : nested Z) : uint8_values (nmap uint8 v).
Proof.
  apply leaves_nmap. intros z. unfold uint8. apply Z.mod_pos_bound. lia.
Qed.

Lemma uint8_values_float (a : nested float) :
  uint8_values (nmap float_to_uint8 a).
Proof.
  apply leaves_nmap. intros f. unfold float_to_uint8.
  apply Z.mod_pos_bound. lia.
Qed.

Lemma traverse_Forall {A B} (f : A -> result B) (Q : A -> Prop)
    (R : B -> Prop) :
  (forall x y, Q x -> f x = Ok y -> R y) ->
  forall l l', traverse f l = Ok l' -> Forall Q l -> Forall R l'.
Proof.
  intros Hf. induction l as [|x l IH]; cbn [traverse]; intros l' H Hl.
  - inversion H. constructor.
  - destruct (f x) as [y|] eqn:Ex; [|discriminate].
    destruct (traverse f l) as [ys|] eqn:El; [|discriminate].
    inversion H; subst. inversion Hl; subst.
    constructor; [eapply Hf; eassumption|now apply IH].
Qed.

Lemma fromarray_array a img : fromarray a = Ok img -> im_array img = a.
Proof.
  unfold fromarray. intros H.
  repeat match type of H with
         | context [match ?x with _ => _ end] => destruct x
         end; try discriminate; inversion H; reflexivity.
Qed.

Lemma fromarray_mode_array m a img :
  fromarray_mode m a = Ok img -> im_array img = a.
Proof.
  unfold fromarray_mode. intros H.
  repeat match type of H with
         | context [match ?x with _ => _ end] => destruct x
         end; try discriminate; inversion H; reflexivity.
Qed.

Lemma np_iter_bytes (a : ndarray Z) l :
  np_iter a = Ok l -> uint8_values (data a) ->
  Forall (fun x => uint8_values (data x)) l.
Proof.
  unfold np_iter. destruct (shape a) as [|n s]; [discriminate|].
  intros H Ha. inversion H. apply Forall_map. cbn [data].
  now apply leaves_unseq.
Qed.

Lemma transpose_120_bytes (a t : ndarray Z) :
  transpose_120 a = Ok t -> uint8_values (data a) -> uint8_values (data t).
Proof.
  unfold transpose_120.
  destruct (shape a) as [|c [|h [|w [|? ?]]]]; try discriminate.
  intros H Ha. injection H as <-. cbn [data].
  now apply (leaves_hwc _ _ h w).
Qed.

Lemma decode_hwc_bytes a imgs :
  decode_hwc a = Ok imgs -> uint8_values (data a) ->
  Forall (fun img => uint8_values (data (im_array img))) imgs.
Proof.
  unfold decode_hwc. intros H Ha. unbind H.
  eapply traverse_Forall; [|exact H|eapply np_iter_bytes; eassumption].
  intros x img Hx Hf. cbn beta in Hf. unbind Hf.
  rewrite (fromarray_array _ _ Hf).
  eapply transpose_120_bytes; eassumption.
Qed.

Lemma bytes_dict_set d k v :
  bytes_dict d -> value_in_uint8 v -> bytes_dict (dict_set d k v).
Proof.
  intros Hd Hv k' v' Hg.
  destruct (string_dec k k') as [->|Hne].
  - rewrite dict_get_set_same in Hg. now inversion Hg; subst.
  - rewrite dict_get_set_other in Hg by congruence. eapply Hd; exact Hg.
Qed.

Lemma item_array_bytes d k a :
  item_array d k = Ok a -> bytes_dict d -> uint8_values (data a).
Proof.
  unfold item_array, dict_getitem. intros H Hd.
  destruct (dict_get d k) as [[a'|imgs|m]|] eqn:E; try discriminate.
  cbn [rbind] in H. inversion H; subst. exact (Hd _ _ E).
Qed.

Lemma first_plane_bytes (f : ndarray Z -> result (ndarray Z)) :
  (forall a x, f a = Ok x -> uint8_values (data a) -> uint8_values (data x)) ->
  forall a l imgs,
    np_iter a = Ok l ->
    traverse (fun image => x <- f image ;; fromarray x)%res l = Ok imgs ->
    uint8_values (data a) ->
    Forall (fun img => uint8_values (data (im_array img))) imgs.
Proof.
  intros Hf a l imgs Hi Ht Ha.
  eapply traverse_Forall; [|exact Ht|eapply np_iter_bytes; eassumption].
  intros x img Hx Hr. cbn beta in Hr. unbind Hr.
  rewrite (fromarray_array _ _ Hr). eapply Hf; eassumption.
Qed.

Lemma index_0cc_bytes (a x : ndarray Z) :
  index_0cc a = Ok x -> uint8_values (data a) -> uint8_values (data x).
Proof.
  unfold index_0cc. intros H Ha.
  destruct (shape a) as [|[|n] [|h [|w s]]]; try discriminate;
    destruct (unseq (data a)) as [|y ys] eqn:E; try discriminate.
  injection H as <-. cbn [data].
  apply leaves_unseq in Ha. rewrite E in Ha. now inversion Ha.
Qed.

Lemma index_first_bytes (a x : ndarray Z) :
  index_first a = Ok x -> uint8_values (data a) -> uint8_values (data x).
Proof.
  unfold index_first. intros H Ha.
  destruct (shape a) as [|[|n] s]; try discriminate;
    destruct (unseq (data a)) as [|y ys] eqn:E; try discriminate.
  injection H as <-. cbn [data].
  apply leaves_unseq in Ha. rewrite E in Ha. now inversion Ha.
Qed.

Ltac bytes_step :=
  match goal with
  | |- bytes_dict (dict_set _ _ _) => apply bytes_dict_set
  | H : bytes_dict ?d |- bytes_dict ?d => exact H
  | H : decode_hwc _ = Ok ?l |- value_in_uint8 (VImages ?l) =>
      eapply decode_hwc_bytes; [exact H|]
  | H : item_array _ _ = Ok ?a |- uint8_values (data ?a) =>
      eapply item_array_bytes; [exact H|]
  | Hi : np_iter _ = Ok ?l,
    Ht : traverse (fun image => rbind (index_0cc image) _) ?l = Ok ?imgs
    |- value_in_uint8 (VImages ?imgs) =>
      eapply (first_plane_bytes index_0cc index_0cc_bytes);
        [exact Hi|exact Ht|]
  | Hi : np_iter _ = Ok ?l,
    Ht : traverse (fun image => rbind (index_first image) _) ?l = Ok ?imgs
    |- value_in_uint8 (VImages ?imgs) =>
      eapply (first_plane_bytes index_first index_first_bytes);
        [exact Hi|exact Ht|]
  end.

Lemma convert_satellogic_bytes item item' n :
  convert_satellogic item = Ok (item', n) ->
  bytes_dict item -> bytes_dict item'.
Proof.
  intros H Hd. unfold convert_satellogic in H. unbind H.
  injection H as <- _. repeat bytes_step.
Qed.

Lemma concatenate_1_bytes (a b c : ndarray Z) :
  concatenate_1 a b = Ok c ->
  uint8_values (data a) -> uint8_values (data b) -> uint8_values (data c).
Proof.
  unfold concatenate_1. intros H Ha Hb.
  destruct (shape a) as [|n [|ca s]]; try discriminate.
  destruct (shape b) as [|n' [|cb s']]; try discriminate.
  destruct (shape_eqb (n :: s) (n' :: s')); [|discriminate].
  injection H as <-. cbn [data].
  apply leaves_seq, leaves_zip_join; now apply leaves_unseq.
Qed.

Lemma append_ratio_channel_bytes (a c : ndarray Z) :
  append_ratio_channel a = Ok c ->
  uint8_values (data a) -> uint8_values (data c).
Proof.
  unfold append_ratio_channel. intros H Ha. unbind H.
  eapply concatenate_1_bytes; [exact H|exact Ha|].
  unfold float_astype_uint8. cbn [data]. apply uint8_values_float.
Qed.

Lemma convert_sentinel_1_bytes item item' n :
  convert_sentinel_1 item = Ok (item', n) ->
  bytes_dict item -> bytes_dict item'.
Proof.
  intros H Hd. unfold convert_sentinel_1 in H. unbind H.
  injection H as <- _. repeat bytes_step.
  eapply append_ratio_channel_bytes; [eassumption|]. repeat bytes_step.
Qed.

Lemma transpose_0231_bytes (a t : ndarray Z) :
  transpose_0231 a = Ok t -> uint8_values (data a) -> uint8_values (data t).
Proof.
  unfold transpose_0231.
  destruct (shape a) as [|n [|c [|h [|w [|? ?]]]]]; try discriminate.
  intros H Ha. injection H as <-. cbn [data].
  apply leaves_map; [|exact Ha]. intros x Hx. now apply (leaves_hwc _ _ h w).
Qed.

Lemma index_ccc_024_bytes (a t : ndarray Z) :
  index_ccc_024 a = Ok t -> uint8_values (data a) -> uint8_values (data t).
Proof.
  unfold index_ccc_024.
  destruct (shape a) as [|n [|h [|w [|c [|? ?]]]]]; try discriminate.
  destruct (4 <? c)%nat; [|discriminate].
  intros H Ha. injection H as <-. cbn [data].
  apply leaves_map; [|exact Ha]. intros img Himg.
  apply leaves_map; [|exact Himg]. intros row Hrow.
  apply leaves_map; [|exact Hrow]. intros px Hpx.
  unfold take_last. apply leaves_seq, Forall_map, Forall_forall.
  intros k _. now apply leaves_child.
Qed.

Lemma convert_band_bytes item channel item' n :
  convert_band item channel = Ok (item', n) ->
  bytes_dict item -> bytes_dict item'.
Proof.
  intros H Hd. unfold convert_band in H. unbind H.
  injection H as <- _.
  apply bytes_dict_set; [exact Hd|].
  match goal with
  | Ht : traverse _ ?revs = Ok ?imgs |- _ =>
      eapply traverse_Forall with
        (Q := fun x : ndarray Z => uint8_values (data x)); [|exact Ht|]
  end.
  - intros x img Hx Hf. rewrite (fromarray_mode_array _ _ _ Hf).
    unfold squeeze. cbn [data]. now apply leaves_squeeze_data.
  - eapply np_iter_bytes; [eassumption|].
    assert (Ht : forall a t, transpose_0231 (astype_uint8 a) = Ok t ->
                             uint8_values (data t)).
    { intros a' t Ht. eapply transpose_0231_bytes; [exact Ht|].
      unfold astype_uint8. cbn [data]. apply uint8_values_nmap_uint8. }
    destruct (String.eqb channel "20m").
    + eapply index_ccc_024_bytes; [eassumption|]. eapply Ht; eassumption.
    + match goal with
      | Hs : Ok _ = Ok _ |- _ => injection Hs as <-
      end. eapply Ht; eassumption.
Qed.

Lemma convert_bands_bytes channels : forall item cnt item' cnt',
  convert_bands item cnt channels = Ok (item', cnt') ->
  bytes_dict item -> bytes_dict item'.
Proof.
  induction channels as [|c channels IH]; cbn [convert_bands];
    intros item cnt item' cnt' H Hd.
  - now injection H as <- _.
  - destruct (convert_band item c) as [[item1 n]|e] eqn:E; [|discriminate].
    eapply IH; [exact H|]. eapply convert_band_bytes; eassumption.
Qed.

Lemma pseudo_rgb_bytes image img :
  pseudo_rgb image = Ok img -> uint8_values (data (im_array img)).
Proof.
  unfold pseudo_rgb. intros H. unbind H.
  rewrite (fromarray_array _ _ H). unfold float_astype_uint8. cbn [data].
  apply uint8_values_float.
Qed.

Lemma convert_neon_rasters_bytes item item' n :
  convert_neon_rasters item = Ok (item', n) ->
  bytes_dict item -> bytes_dict item'.
Proof.
  intros H Hd. unfold convert_neon_rasters in H. unbind H.
  injection H as <- _. repeat bytes_step.
  match goal with
  | Ht : traverse pseudo_rgb _ = Ok _ |- _ =>
      eapply traverse_Forall with (Q := fun _ => True); [|exact Ht|]
  end.
  - intros x img _ Hp. eapply pseudo_rgb_bytes; exact Hp.
  - apply Forall_forall. auto.
Qed.

Lemma convert_subset_bytes loads subset fields meta h1 h2 fields' cnt :
  convert_subset loads subset fields meta h1 = (h2, Ok (fields', cnt)) ->
  bytes_dict fields -> bytes_dict fields'.
Proof.
  unfold convert_subset. intros H Hd.
  destruct (String.eqb subset "satellogic").
  { unfold lift in H. inversion H as [[Hh Hr]]. unbind Hr.
    destruct a as [item' n]. inversion Hr; subst.
    eapply convert_satellogic_bytes; eassumption. }
  destruct (String.eqb subset "sentinel_1").
  { unfold lift in H. inversion H as [[Hh Hr]]. unbind Hr.
    destruct a as [item' n]. inversion Hr; subst.
    eapply convert_sentinel_1_bytes; eassumption. }
  destruct (String.eqb subset "sentinel_2").
  { unfold convert_sentinel_2, mbind, lift, ret in H.
    destruct (convert_bands fields None ["10m"; "20m"; "rgb"; "scl"])
      as [[item' c]|e] eqn:E; [|discriminate].
    destruct (for_each _ _ h1) as [h3 [u|e]]; inversion H; subst.
    eapply convert_bands_bytes; eassumption. }
  destruct (String.eqb subset "neon").
  { unfold convert_neon, mbind, lift, ret in H.
    destruct (convert_neon_rasters fields) as [[item' n]|e] eqn:E;
      [|discriminate].
    destruct (fix_neon_metadata meta h1) as [h3 [u|e]]; inversion H; subst.
    eapply convert_neon_rasters_bytes; eassumption. }
  unfold ret in H. inversion H; subst. exact Hd.
Qed.

Lemma coerced_bytes item meta : bytes_dict (coerced item meta).
Proof.
  unfold coerced. apply bytes_dict_set; [|exact I].
  intros k v Hg.
  induction (filter (fun kv : string * nested Z =>
                       negb (String.eqb (fst kv) "metadata"))
                    (rasters item)) as [|[k' v'] l IH];
    cbn [map dict_get fst snd] in Hg; [discriminate|].
  destruct (String.eqb k k'); [|now apply IH].
  injection Hg as <-. unfold uint8_array. cbn [value_in_uint8 data].
  apply uint8_values_nmap_uint8.
Qed.

(** X19: whenever [item_to_images] returns, for any subset and any
    record, every number it hands back is a byte: each element of each
    returned array and each pixel value of each returned image lies in
    0..255, including the computed radar and hyperspectral channels. *)
Theorem returned_values_are_bytes loads subset item h h' out k v :
  item_to_images loads subset item h = (h', Ok out) ->
  dict_get out k = Some v ->
  value_in_uint8 v.
Proof.
  intros Hrun Hg.
  destruct (item_to_images_steps loads subset item h h' out Hrun)
    as (h1 & l & h2 & n & d2 & _ & _ & Hconv & _ & _).
  exact (convert_subset_bytes _ _ _ _ _ _ _ _ Hconv
           (coerced_bytes item (PDict l)) k v Hg).
Qed.

Lemma returned_values_are_bytes_witness :
  exists h' out v,
    item_to_images sample_loads "sentinel_1" sample_with_mask [] = (h', Ok out)
    /\ dict_get out "10m" = Some v
    /\ value_in_uint8 v.
Proof.
  eexists. eexists. eexists.
  pose proof sample_with_mask_run as Hrun.
  split; [exact Hrun|]. split; [reflexivity|].
  exact (returned_values_are_bytes sample_loads "sentinel_1"
           sample_with_mask [] _ _ "10m" _ Hrun eq_refl).
Defined.

(* ===================================================================== *)
(** * Further properties: radar records with another channel count *)
(* ===================================================================== *)

Lemma decode_hwc_rgba n h w d :
  decode_hwc (mk_ndarray [n; 4; h; w]%nat d)
  = Ok (map (fun x => mk_Image RGBA (mk_ndarray [h; w; 4]%nat (hwc h w x)))
            (unseq d)).
Proof.
  unfold decode_hwc, np_iter. simpl.
  rewrite traverse_map. apply traverse_map_ok. intros x _. reflexivity.
Qed.

Lemma decode_hwc_too_many_channels n c h w x l :
  decode_hwc (mk_ndarray [n; S (S (S (S (S c)))); h; w]%nat (Seq (x :: l)))
  = Raise TypeError.
Proof. reflexivity. Qed.

(** X20: a sentinel_1 record whose "10m" field has three channels
    instead of two is not rejected: the computed channel is appended as
    a fourth one and every revisit comes back as an RGBA image of shape
    [H,W,4], one per revisit. *)
Theorem radar_three_channels_give_rgba loads item h d n hh ww :
  regular_fields item = true ->
  metadata_dict loads item h = Some d ->
  field_shape item "10m" = Some [S n; 3; S hh; S ww]%nat ->
  exists h' out imgs,
    item_to_images loads "sentinel_1" item h = (h', Ok out)
    /\ dict_get out "10m" = Some (VImages imgs)
    /\ length imgs = S n
    /\ Forall (fun img => im_mode img = RGBA
                          /\ shape (im_array img) = [S hh; S ww; 4]%nat) imgs.
Proof.
  intros Hreg Hmeta H10m.
  destruct (loaded_of_metadata_dict _ _ _ _ Hmeta) as (hp & l & Hl).
  destruct Hl as (Hload & Hget & _).
  assert (Hconv : exists imgs,
            convert_sentinel_1 (coerced item (PDict l))
            = Ok (dict_set (coerced item (PDict l)) "10m" (VImages imgs), S n)
            /\ length imgs = S n
            /\ Forall (fun img => im_mode img = RGBA
                         /\ shape (im_array img) = [S hh; S ww; 4]%nat) imgs).
  { field_array H10m "10m".
    unfold convert_sentinel_1. rewrite Harr. simpl.
    destruct (revisits_have_shape _ _ _ Hshape) as [Hlen _].
    destruct (nmap uint8 v) as [x|l0] eqn:Ev; [discriminate|].
    rewrite append_ratio_channel_valid. simpl.
    rewrite decode_hwc_rgba. simpl. rewrite map_map.
    eexists. split; [rewrite !length_map; simpl in Hlen; rewrite Hlen;
                     reflexivity|].
    split; [rewrite length_map; exact Hlen|].
    apply Forall_map, Forall_forall. intros x _. split; reflexivity. }
  destruct Hconv as (imgs & Hconv & Hlen & Hall).
  eexists. exists (dict_set (coerced item (PDict l)) "10m" (VImages imgs)).
  exists imgs. split.
  - eapply item_to_images_finish; eauto.
    unfold convert_subset. cbn [String.eqb Ascii.eqb Bool.eqb].
    unfold lift. rewrite Hconv. reflexivity.
  - split; [apply dict_get_set_same|]. split; assumption.
Qed.

Lemma radar_three_channels_give_rgba_witness :
  field_shape (sample_radar 3) "10m" = Some [1; 3; 2; 2]%nat
  /\ exists h' out imgs,
       item_to_images sample_loads "sentinel_1" (sample_radar 3) []
       = (h', Ok out)
       /\ dict_get out "10m" = Some (VImages imgs)
       /\ length imgs = 1%nat
       /\ Forall (fun img => im_mode img = RGBA
                             /\ shape (im_array img) = [2; 2; 4]%nat) imgs.
Proof.
  split; [reflexivity|].
  exact (radar_three_channels_give_rgba sample_loads (sample_radar 3) [] []
           0 1 1 eq_refl eq_refl eq_refl).
Defined.

(** X21: a sentinel_1 record whose "10m" field has a single channel
    fails with [IndexError] (channel 1 is read), one with four or more
    channels fails with [TypeError] (no image mode has five channels);
    in both cases the metadata mapping is as it was loaded. *)
Theorem radar_wrong_channel_count_fails loads item h d n c hh ww :
  regular_fields item = true ->
  metadata_dict loads item h = Some d ->
  field_shape item "10m" = Some [S n; c; S hh; S ww]%nat ->
  c = 1%nat \/ (4 <= c)%nat ->
  exists hp l,
    loaded loads item h d hp l
    /\ item_to_images loads "sentinel_1" item h
       = (hp, Raise (if (c =? 1)%nat then IndexError else TypeError)).
Proof.
  intros Hreg Hmeta H10m Hc.
  destruct (loaded_of_metadata_dict _ _ _ _ Hmeta) as (hp & l & Hl).
  exists hp, l. split; [exact Hl|].
  destruct Hl as (Hload & Hget & _).
  unfold item_to_images, mbind. rewrite Hload. unfold lift at 1.
  rewrite (coerce_fields_regular _ _ Hreg).
  unfold convert_subset. cbn [String.eqb Ascii.eqb Bool.eqb].
  unfold lift.
  assert (Hconv : convert_sentinel_1 (coerced item (PDict l))
                  = Raise (if (c =? 1)%nat then IndexError else TypeError));
    [|now rewrite Hconv].
  field_array H10m "10m".
  unfold convert_sentinel_1. rewrite Harr. cbn [rbind].
  destruct Hc as [->|Hc].
  - reflexivity.
  - destruct c as [|[|[|[|c]]]]; try lia.
    destruct (revisits_have_shape _ _ _ Hshape) as [Hlen _].
    destruct (nmap uint8 v) as [x|[|x l0]] eqn:Ev; try discriminate.
    rewrite append_ratio_channel_valid. cbn [rbind Nat.eqb].
    cbn [map].
    replace (S (S (S (S c))) + 1)%nat with (S (S (S (S (S c))))) by lia.
    now rewrite (decode_hwc_too_many_channels (S n) c (S hh) (S ww)).
Qed.

Lemma radar_wrong_channel_count_fails_witness :
  (exists hp l,
     loaded sample_loads (sample_radar 1) [] [] hp l
     /\ item_to_images sample_loads "sentinel_1" (sample_radar 1) []
        = (hp, Raise IndexError))
  /\ (exists hp l,
        loaded sample_loads (sample_radar 4) [] [] hp l
        /\ item_to_images sample_loads "sentinel_1" (sample_radar 4) []
           = (hp, Raise TypeError)).
Proof.
  split.
  - exact (radar_wrong_channel_count_fails sample_loads (sample_radar 1) [] []
             0 1 1 1 eq_refl eq_refl eq_refl (or_introl eq_refl)).
  - refine (radar_wrong_channel_count_fails sample_loads (sample_radar 4) [] []
              0 4 1 1 eq_refl eq_refl eq_refl (or_intror _)).
    apply le_n.
Defined.

(* ===================================================================== *)
(** * Further properties: optical records with a short "20m" field *)
(* ===================================================================== *)

Lemma convert_band_20m_short (item : dict value) n c h w d :
  item_array item "20m" = Ok (mk_ndarray [n; c; h; w]%nat d) ->
  (c < 5)%nat ->
  convert_band item "20m" = Raise IndexError.
Proof.
  intros Harr Hc. unfold convert_band. rewrite Harr.
  cbn [rbind np_len shape astype_uint8 transpose_0231 String.eqb Ascii.eqb
       Bool.eqb].
  unfold index_ccc_024. cbn [shape].
  destruct (Nat.ltb_spec 4 c); [lia|reflexivity].
Qed.

(** X22: a sentinel_2 record whose "20m" field has fewer than five
    channels fails with [IndexError] (channel 4 is selected); the "10m"
    band was converted before, but nothing is returned, and the
    metadata mapping is as it was loaded: no field was re-parsed and no
    count stored. *)
Theorem optical_20m_needs_five_channels
    loads item h d n1 h1 w1 n2 c2 h2 w2 :
  regular_fields item = true ->
  metadata_dict loads item h = Some d ->
  field_shape item "10m" = Some [S n1; 1; S (S h1); S (S w1)]%nat ->
  field_shape item "20m" = Some [S n2; c2; S h2; S w2]%nat ->
  (c2 < 5)%nat ->
  exists hp l,
    loaded loads item h d hp l
    /\ item_to_images loads "sentinel_2" item h = (hp, Raise IndexError).
Proof.
  intros Hreg Hmeta H10 H20 Hc.
  destruct (loaded_of_metadata_dict _ _ _ _ Hmeta) as (hp & l & Hl).
  exists hp, l. split; [exact Hl|].
  destruct Hl as (Hload & Hget & _).
  unfold item_to_images, mbind. rewrite Hload. unfold lift at 1.
  rewrite (coerce_fields_regular _ _ Hreg).
  unfold convert_subset. cbn [String.eqb Ascii.eqb Bool.eqb].
  unfold convert_sentinel_2, mbind, lift.
  assert (Hconv : convert_bands (coerced item (PDict l)) None
                    ["10m"; "20m"; "rgb"; "scl"] = Raise IndexError);
    [|now rewrite Hconv].
  field_array H10 "10m". field_array H20 "20m".
  unfold convert_bands.
  erewrite convert_band_gray by (first [exact Harr | reflexivity]).
  erewrite convert_band_20m_short;
    [ reflexivity
    | rewrite item_array_set_other by discriminate; exact Harr0
    | exact Hc ].
Qed.

Lemma optical_20m_needs_five_channels_witness :
  field_shape sample_short_20m "20m" = Some [1; 3; 2; 2]%nat
  /\ exists hp l,
       loaded sample_loads sample_short_20m sample_sentinel_2_heap
              [("solarAngles", JList [JStr "{}"]);
               ("tileGeometry", JList [JStr "[]"]);
               ("viewIncidenceAngles", JList [])] hp l
       /\ item_to_images sample_loads "sentinel_2" sample_short_20m
                         sample_sentinel_2_heap
          = (hp, Raise IndexError).
Proof.
  split; [reflexivity|].
  refine (optical_20m_needs_five_channels sample_loads sample_short_20m
            sample_sentinel_2_heap
            [("solarAngles", JList [JStr "{}"]);
             ("tileGeometry", JList [JStr "[]"]);
             ("viewIncidenceAngles", JList [])]
            0 0 0 0 3 1 1 eq_refl eq_refl eq_refl eq_refl _).
  repeat constructor.
Defined.

(* ===================================================================== *)
(** * Further properties: the sampling loop of [download_images.py] *)
(* ===================================================================== *)

Section SamplingLoopFacts.

Variable narrow : Z -> result Z.
Variable random_sample : nat -> nat -> nat -> list nat.
Variable example_at : nat -> nat -> result record.
Variable save : Image -> string -> result unit.

Lemma sample_loop_below per shard_id m indices : forall p,
  (0 < per)%nat -> (m mod per = 0)%nat -> below m p ->
  let r := sample_loop narrow example_at save per shard_id indices p in
  (images_saved r <= num_images_to_download)%nat
  /\ (images_saved r <= m)%nat
  /\ length (written r) = images_saved r.
Proof.
  induction indices as [|idx rest IH]; intros p Hper Hm (HN & Hle & Heq & Hw);
    cbn [sample_loop].
  - auto.
  - destruct (Nat.leb_spec num_images_to_download (images_saved p)) as [Hfull|Hroom];
      [auto|].
    unfold try_example.
    destruct (save_example narrow example_at save shard_id idx)
      as [[|]|e]; try (apply IH; unfold below; auto).
    cbn [images_saved written].
    assert (Hlt : (images_saved p < m)%nat).
    { destruct (Nat.eq_dec (images_saved p) m) as [E|E]; [|lia].
      specialize (Heq E). lia. }
    assert (Hw' : length (written p ++ [image_path shard_id idx])
                  = S (images_saved p))
      by (rewrite length_app; cbn [length]; lia).
    destruct ((S (images_saved p) mod per =? 0)%nat
              && (S (images_saved p) <? num_images_to_download)%nat) eqn:El.
    + cbn [images_saved written]. repeat split; [lia|lia|exact Hw'].
    + apply IH; [exact Hper|exact Hm|].
      unfold below. cbn [images_saved written].
      repeat split; [lia|lia| |exact Hw'].
      intros E. apply andb_false_iff in El as [El|El].
      * apply Nat.eqb_neq in El. rewrite E in El. contradiction.
      * apply Nat.ltb_ge in El. exact El.
Qed.

Lemma shard_loops_bound per shards : forall p k,
  (0 < per)%nat ->
  (images_saved p <= num_images_to_download)%nat ->
  (images_saved p <= k * per)%nat ->
  length (written p) = images_saved p ->
  let r := fold_left
             (shard_loop narrow random_sample example_at save per) shards p in
  (images_saved r <= num_images_to_download)%nat
  /\ (images_saved r <= (k + length shards) * per)%nat
  /\ length (written r) = images_saved r.
Proof.
  induction shards as [|[shard_id shard_size] shards IH];
    intros p k Hper HN Hk Hw; cbn [fold_left length].
  - rewrite Nat.add_0_r. auto.
  - assert (Hstep :
      let q := shard_loop narrow random_sample example_at save per p
                 (shard_id, shard_size) in
      (images_saved q <= num_images_to_download)%nat
      /\ (images_saved q <= S k * per)%nat
      /\ length (written q) = images_saved q).
    { unfold shard_loop.
      destruct (Nat.min shard_size (per * 2) <=? 0)%nat.
      - cbn zeta. repeat split; [exact HN|nia|exact Hw].
      - apply sample_loop_below; [exact Hper|apply Nat.Div0.mod_mul|].
        unfold below. repeat split; [exact HN|nia| |exact Hw].
        intros E. nia. }
    destruct Hstep as (H1 & H2 & H3).
    replace (k + S (length shards))%nat with (S k + length shards)%nat by lia.
    apply IH; assumption.
Qed.

End SamplingLoopFacts.

(** X23: whatever the shards hold and however the random draws, decoding
    and saving go, the sampling loop of the download script saves at
    most [num_images_to_download] images and at most
    [len(all_examples) * per_shard_samples] images (for three loaded
    shards that is 3 * 33); the counter always equals the number of
    files saved. *)
Theorem save_images_bound narrow random_sample example_at save
    (shard_sizes : list nat) :
  let r := save_images narrow random_sample example_at save shard_sizes in
  (images_saved r <= num_images_to_download)%nat
  /\ (images_saved r
      <= length shard_sizes * per_shard_samples (length shard_sizes))%nat
  /\ length (written r) = images_saved r.
Proof.
  unfold save_images.
  assert (Hper : (0 < per_shard_samples (length shard_sizes))%nat)
    by (unfold per_shard_samples; lia).
  pose proof (shard_loops_bound narrow random_sample example_at save
                (per_shard_samples (length shard_sizes))
                (combine (seq 0 (length shard_sizes)) shard_sizes)
                (mk_progress 0 []) 0 Hper) as H.
  cbn [images_saved written length] in H.
  rewrite length_combine, length_seq, Nat.min_id in H.
  apply H; [apply Nat.le_0_l|apply Nat.le_0_l|reflexivity].
Qed.

Lemma lacks_underscore_uint d : lacks "_" (NilEmpty.string_of_uint d).
Proof.
  induction d; cbn [NilEmpty.string_of_uint lacks]; auto;
    (split; [discriminate|assumption]).
Qed.

Lemma lacks_underscore_format_d z : lacks "_" (format_d z).
Proof.
  assert (Hd : forall n, lacks "_" (digits n)).
  { intros n. unfold digits, NilZero.string_of_uint.
    destruct (N.to_uint n); try apply lacks_underscore_uint.
    split; [discriminate|exact I]. }
  unfold format_d. destruct (z <? 0); [|apply Hd].
  cbn [append lacks]. split; [discriminate|apply Hd].
Qed.

Lemma append_char_inj c (a b x y : string) :
  lacks c a -> lacks c b ->
  a ++ String c x = b ++ String c y -> a = b /\ x = y.
Proof.
  revert b. induction a as [|c0 a IH]; intros [|c1 b] Ha Hb H;
    cbn [append lacks] in *.
  - inversion H. auto.
  - inversion H; subst c1. now destruct Hb.
  - inversion H; subst c0. now destruct Ha.
  - inversion H; subst c1. destruct Ha as [_ Ha], Hb as [_ Hb].
    destruct (IH b Ha Hb) as [-> ->]; auto.
Qed.

Lemma format_04d_inj a b : format_04d a = format_04d b -> a = b.
Proof.
  intros H.
  assert (Hv : forall n, digits_value (format_04d n) = Some (N.of_nat n))
    by (intros n; apply digits_value_zeros, digits_value_digits).
  pose proof (Hv a) as Ha. rewrite H, Hv in Ha.
  assert (E : N.of_nat a = N.of_nat b) by congruence. lia.
Qed.

(** Different (shard, index) pairs are saved to different files. *)
Lemma image_path_inj s i s' i' :
  image_path s i = image_path s' i' -> s = s' /\ i = i'.
Proof.
  unfold image_path, output_dir. intros H.
  apply (append_inj_l "sample_images") in H.
  apply (append_inj_l "/rgb_shard") in H.
  cbn [append] in H.
  apply append_char_inj in H as [Hs Hi];
    try apply lacks_underscore_format_d.
  apply format_d_inj, Nat2Z.inj in Hs.
  apply (append_inj_l "idx") in Hi.
  apply append_inj_r, format_04d_inj in Hi. auto.
Qed.

Section SamplingLoopFiles.

Variable narrow : Z -> result Z.
Variable random_sample : nat -> nat -> nat -> list nat.
Variable example_at : nat -> nat -> result record.
Variable save : Image -> string -> result unit.

Lemma sample_loop_written per shard_id indices : forall p,
  exists idxs,
    written (sample_loop narrow example_at save per shard_id indices p)
    = (written p ++ map (image_path shard_id) idxs)%list
    /\ (forall i, In i idxs -> In i indices)
    /\ (NoDup indices -> NoDup idxs).
Proof.
  induction indices as [|idx rest IH]; intros p; cbn [sample_loop].
  - exists []. cbn [map]. rewrite app_nil_r.
    repeat split; [contradiction|constructor].
  - destruct (num_images_to_download <=? images_saved p)%nat.
    { exists []. cbn [map]. rewrite app_nil_r.
      repeat split; [contradiction|constructor]. }
    assert (Hskip : exists idxs,
              written (sample_loop narrow example_at save per shard_id rest p)
              = (written p ++ map (image_path shard_id) idxs)%list
              /\ (forall i, In i idxs -> In i (idx :: rest))
              /\ (NoDup (idx :: rest) -> NoDup idxs)).
    { destruct (IH p) as (idxs & Hw & Hin & Hnd).
      exists idxs. split; [exact Hw|]. split.
      - intros i Hi. right. auto.
      - intros H. inversion H; auto. }
    unfold try_example.
    destruct (save_example narrow example_at save shard_id idx)
      as [[|]|e]; try exact Hskip.
    set (p' := mk_progress (S (images_saved p))
                 (written p ++ [image_path shard_id idx])).
    destruct ((images_saved p' mod per =? 0)%nat
              && (images_saved p' <? num_images_to_download)%nat).
    + exists [idx]. cbn [map written p']. split; [reflexivity|]. split.
      * intros i [<-|[]]. now left.
      * intros _. constructor; [intros []|constructor].
    + destruct (IH p') as (idxs & Hw & Hin & Hnd).
      exists (idx :: idxs). split; [|split].
      * rewrite Hw. cbn [written p' map]. now rewrite <- app_assoc.
      * intros i [<-|Hi]; [now left|right; auto].
      * intros H. inversion H as [|? ? Hnot Hrest]; subst.
        constructor; [|auto]. intros Hi. apply Hnot. auto.
Qed.

Hypothesis draws_distinct :
  forall shard_id n k, NoDup (random_sample shard_id n k).

Lemma shard_loops_written per sizes : forall k p,
  exists pairs : list (nat * nat),
    written (fold_left (shard_loop narrow random_sample example_at save per)
               (combine (seq k (length sizes)) sizes) p)
    = (written p
       ++ map (fun ji => image_path (fst ji) (snd ji)) pairs)%list
    /\ NoDup pairs
    /\ (forall ji, In ji pairs -> (k <= fst ji)%nat).
Proof.
  induction sizes as [|size sizes IH]; intros k p;
    cbn [length seq combine fold_left].
  - exists []. cbn [map]. rewrite app_nil_r.
    repeat split; [constructor|contradiction].
  - assert (Hstep : exists idxs,
              written (shard_loop narrow random_sample example_at save per p
                         (k, size))
              = (written p ++ map (image_path k) idxs)%list
              /\ NoDup idxs).
    { unfold shard_loop.
      destruct (Nat.min size (per * 2) <=? 0)%nat.
      - exists []. cbn [map]. rewrite app_nil_r. split; [reflexivity|constructor].
      - destruct (sample_loop_written per k
                    (random_sample k size (Nat.min size (per * 2))) p)
          as (idxs & Hw & _ & Hnd).
        exists idxs. split; [exact Hw|]. apply Hnd, draws_distinct. }
    destruct Hstep as (idxs & Hw & Hnd).
    destruct (IH (S k)
                (shard_loop narrow random_sample example_at save per p
                   (k, size)))
      as (pairs & Hw' & Hnd' & Hge).
    exists (map (pair k) idxs ++ pairs)%list. split; [|split].
    + rewrite Hw', Hw, map_app, map_map, <- app_assoc. reflexivity.
    + apply NoDup_app.
      * apply NoDup_map_NoDup_ForallPairs; [|exact Hnd].
        intros x y _ _ E. now inversion E.
      * exact Hnd'.
      * intros ji Hin Hin'. apply in_map_iff in Hin as (i & <- & _).
        specialize (Hge _ Hin'). cbn [fst] in Hge. lia.
    + intros ji Hin. apply in_app_or in Hin as [Hin|Hin].
      * apply in_map_iff in Hin as (i & <- & _). cbn [fst]. lia.
      * specialize (Hge _ Hin). lia.
Qed.

End SamplingLoopFiles.

(** X24: when the random draw of a shard never repeats an index (as
    [random.sample] guarantees), no two images of a run are saved under
    the same file name, so no saved image is overwritten: shard number
    and index can be read back from the name. *)
Theorem saved_files_are_distinct narrow random_sample example_at save
    (shard_sizes : list nat) :
  (forall shard_id n k, NoDup (random_sample shard_id n k)) ->
  NoDup (written
           (save_images narrow random_sample example_at save shard_sizes)).
Proof.
  intros Hdraw. unfold save_images.
  destruct (shard_loops_written narrow random_sample example_at save Hdraw
              (per_shard_samples (length shard_sizes)) shard_sizes 0
              (mk_progress 0 []))
    as (pairs & Hw & Hnd & _).
  rewrite Hw. cbn [written app].
  apply NoDup_map_NoDup_ForallPairs; [|exact Hnd].
  intros [j i] [j' i'] _ _ E. cbn [fst snd] in E.
  apply image_path_inj in E as [-> ->]. reflexivity.
Qed.

Lemma saved_files_are_distinct_witness :
  written (save_images narrow_wrapping sample_draw
             (fun _ _ => Ok sample_satellogic) (fun _ _ => Ok tt) [2; 1]%nat)
  = ["sample_images/rgb_shard0_idx0000.png";
     "sample_images/rgb_shard0_idx0001.png";
     "sample_images/rgb_shard1_idx0000.png"]
  /\ NoDup (written
              (save_images narrow_wrapping sample_draw
                 (fun _ _ => Ok sample_satellogic) (fun _ _ => Ok tt)
                 [2; 1]%nat)).
Proof.
  split; [vm_compute; reflexivity|].
  apply (saved_files_are_distinct narrow_wrapping sample_draw
           (fun _ _ => Ok sample_satellogic) (fun _ _ => Ok tt) [2; 1]%nat).
  intros shard_id n k. apply seq_NoDup.
Defined.

(* ===================================================================== *)
(** * Further properties: metadata of the aerial and radar subsets *)
(* ===================================================================== *)

(** X25: for every valid satellogic or sentinel_1 record the returned
    metadata is the input mapping with "count" set and nothing else
    changed: every other entry keeps its value and its position. *)
Theorem aerial_and_radar_metadata_only_gains_count loads subset item h d :
  valid_record loads subset item h ->
  subset = "satellogic" \/ subset = "sentinel_1" ->
  metadata_dict loads item h = Some d ->
  exists h' out l n,
    item_to_images loads subset item h = (h', Ok out)
    /\ returned_metadata out h'
       = Some (l, dict_set d "count" (JInt (Z.of_nat n)))
    /\ (forall k, k <> "count" ->
          dict_get (dict_set d "count" (JInt (Z.of_nat n))) k = dict_get d k).
Proof.
  intros Hv Hsub Hmeta.
  destruct Hv as
    [ item h d0 n1 h1 w1 n2 c2 h2 w2 Hreg Hmeta0 Hrgb H1m
    | item h d0 n1 h1 w1 Hreg Hmeta0 H10
    | item h d0 n1 h1 w1 n2 c2 h2 w2 n3 h3 w3 n4 h4 w4
        Hreg Hmeta0 H10 H20 Hrgb Hscl Ht1 Ht2 Ht3
    | item h d0 n1 h1 w1 n2 c2 h2 w2 n3 b3 h3 w3
        Hreg Hmeta0 Hrgb Hchm H1m Hbounds ];
    try (destruct Hsub; discriminate).
  - destruct (run_satellogic loads item h d _ _ _ _ _ _ _ Hreg Hmeta Hrgb H1m)
      as (hp & l & rgb & i1m & Hl & _ & _ & Hrun).
    destruct Hl as (_ & Hget & _).
    eexists. eexists. exists l, (S n2).
    split; [exact Hrun|]. split.
    + unfold returned_metadata, satellogic_fields.
      rewrite !dict_get_set_other by discriminate.
      rewrite dict_get_coerced_metadata.
      erewrite heap_get_put_same by exact Hget. reflexivity.
    + intros k Hk. now rewrite dict_get_set_other by congruence.
  - destruct (run_sentinel_1 loads item h d _ _ _ Hreg Hmeta H10)
      as (hp & l & i10m & Hl & _ & Hrun).
    destruct Hl as (_ & Hget & _).
    eexists. eexists. exists l, (S n1).
    split; [exact Hrun|]. split.
    + unfold returned_metadata, sentinel_1_fields.
      rewrite !dict_get_set_other by discriminate.
      rewrite dict_get_coerced_metadata.
      erewrite heap_get_put_same by exact Hget. reflexivity.
    + intros k Hk. now rewrite dict_get_set_other by congruence.
Qed.

Lemma aerial_and_radar_metadata_only_gains_count_witness :
  valid_record sample_loads "satellogic" sample_satellogic []
  /\ metadata_dict sample_loads sample_satellogic [] = Some []
  /\ exists h' out l n,
       item_to_images sample_loads "satellogic" sample_satellogic []
       = (h', Ok out)
       /\ returned_metadata out h'
          = Some (l, dict_set [] "count" (JInt (Z.of_nat n)))
       /\ (forall k, k <> "count" ->
             dict_get (dict_set [] "count" (JInt (Z.of_nat n))) k
             = dict_get [] k).
Proof.
  split; [exact sample_satellogic_valid|]. split; [reflexivity|].
  exact (aerial_and_radar_metadata_only_gains_count sample_loads "satellogic"
           sample_satellogic [] [] sample_satellogic_valid
           (or_introl eq_refl) eq_refl).
Defined.
